(** * VentureSync wizard workflow controller

    A shallow embedding of the wizard part of [static/js/scenarios.js]
    (the section that starts with [let currentStep = 1]) together with the
    helpers it calls ([makeAPICall], [showNotification]), and the
    properties of it that the specification states.

    Conventions of the embedding:
    - JavaScript strings are [string]s, i.e. sequences of code units below
      256; numbers are integers ([Z]); other numbers are not modelled.
    - A JavaScript object is an association list in property order, with
      unique keys; writing a property updates it in place or appends it.
      (Property names that are array indices, which JavaScript enumerates
      first, are not expected among the names of form controls, nor are the
      names of the members that every object inherits, [constructor] or
      [__proto__] say.)
    - The module-level variables, the two Web Storage areas, the part of the
      page the wizard reads and writes, the pending [setTimeout] callbacks,
      the time at which the [setInterval] of the auto-save fires next and a
      log of what was shown or sent make up one record, [Wizard];
      every function of the source is a function on that record.

    After the wizard come, each in modules of its own, the scenario carousel
    of the same file, the parts of its dashboard and analytics scripts that
    keep state (local storage, the texts of the metric cards), and the start
    button of the landing page ([main.js]), with the properties that their
    code shows. *)

From Stdlib Require Import ZArith String Ascii List Bool Lia.
From Stdlib Require Import DecimalString DecimalZ DecimalPos DecimalFacts.
From stdpp Require Import base option list strings gmap.

Local Open Scope string_scope.
Local Open Scope Z_scope.

(** ** JavaScript primitives used by the wizard *)

Module Js.

#[local] Set Warnings "-register-all".

(** Values as they come out of [JSON.parse], plus [undefined]. *)
Inductive JValue : Type :=
| JUndef
| JNull
| JBool (b : bool)
| JNum (n : Z)
| JStr (s : string)
| JArr (l : list JValue)
| JObj (kvs : list (string * JValue)).

Abbreviation Obj := (list (string * JValue)).

(** Induction principle that reaches inside arrays and objects. *)
Section JValue_rect.
Variable P : JValue -> Prop.
Hypothesis Hundef : P JUndef.
Hypothesis Hnull : P JNull.
Hypothesis Hbool : forall b, P (JBool b).
Hypothesis Hnum : forall n, P (JNum n).
Hypothesis Hstr : forall s, P (JStr s).
Hypothesis Harr : forall l, Forall P l -> P (JArr l).
Hypothesis Hobj : forall kvs, Forall (fun kv => P (snd kv)) kvs -> P (JObj kvs).

Fixpoint JValue_deep_ind (v : JValue) : P v :=
  match v with
  | JUndef => Hundef
  | JNull => Hnull
  | JBool b => Hbool b
  | JNum n => Hnum n
  | JStr s => Hstr s
  | JArr l =>
      Harr l ((fix go (l : list JValue) : Forall P l :=
                 match l with
                 | [] => @List.Forall_nil _ P
                 | x :: r => @List.Forall_cons _ P x r (JValue_deep_ind x) (go r)
                 end) l)
  | JObj kvs =>
      Hobj kvs ((fix go (l : Obj) : Forall (fun kv => P (snd kv)) l :=
                   match l with
                   | [] => @List.Forall_nil _ _
                   | kv :: r =>
                       @List.Forall_cons _ (fun kv => P (snd kv)) kv r
                         (JValue_deep_ind (snd kv)) (go r)
                   end) kvs)
  end.
End JValue_rect.

(** [ToBoolean]: what [if (v)], [!v] and [v || w] look at. *)
Definition truthy (v : JValue) : bool :=
  match v with
  | JUndef | JNull => false
  | JBool b => b
  | JNum n => negb (n =? 0)
  | JStr s => negb (String.eqb s "")
  | JArr _ | JObj _ => true
  end.

(** [a || b]. *)
Definition or_else (a b : JValue) : JValue := if truthy a then a else b.

(** [v != null] (loose inequality: false exactly for null and undefined). *)
Definition not_nullish (v : JValue) : bool :=
  match v with
  | JUndef | JNull => false
  | _ => true
  end.

(** *** Objects *)

(** [o[k]] for an own property; [None] is [undefined]'s absence. *)
Fixpoint obj_get (k : string) (o : Obj) : option JValue :=
  match o with
  | [] => None
  | (k', v) :: r => if String.eqb k k' then Some v else obj_get k r
  end.

(** [o[k] = v]: an existing property keeps its place, a new one goes last. *)
Fixpoint obj_set (k : string) (v : JValue) (o : Obj) : Obj :=
  match o with
  | [] => [(k, v)]
  | (k', v') :: r =>
      if String.eqb k k' then (k', v) :: r else (k', v') :: obj_set k v r
  end.

(** [v.k] where [v] is any value that admits property access; [undefined]
    when the property is missing.  Only the names the wizard reads are ever
    asked for, none of which is a built-in property of a string, number or
    array.  Property access on [null] and [undefined] throws and is handled
    by the callers. *)
Definition prop (v : JValue) (k : string) : JValue :=
  match v with
  | JObj o => default JUndef (obj_get k o)
  | _ => JUndef
  end.

(** The names of the members that every object literal inherits: looked
    up in a table that is an object literal, one of them finds that member
    where any other name that the table does not hold finds nothing. *)
Definition inherited (name : string) : bool :=
  existsb (String.eqb name)
    ["constructor"; "hasOwnProperty"; "isPrototypeOf"; "propertyIsEnumerable";
     "toLocaleString"; "toString"; "valueOf"; "__proto__";
     "__defineGetter__"; "__defineSetter__"; "__lookupGetter__";
     "__lookupSetter__"].

(** [Object.keys(o).length > 0] *)
Definition obj_nonempty (o : Obj) : bool :=
  match o with [] => false | _ => true end.

(** *** Strings *)

Definition code (c : ascii) : Z := Z.of_nat (nat_of_ascii c).

(** White space and line terminators below 256, as [trim] and [parseInt]
    see them. *)
Definition is_ws (c : ascii) : bool :=
  let n := code c in
  ((9 <=? n) && (n <=? 13)) || (n =? 32) || (n =? 160).

Fixpoint trim_start (s : string) : string :=
  match s with
  | String c r => if is_ws c then trim_start r else s
  | EmptyString => EmptyString
  end.

(** Drops trailing white space: a character is kept when it is not white
    space or something after it is kept. *)
Fixpoint trim_end (s : string) : string :=
  match s with
  | EmptyString => EmptyString
  | String c r =>
      match trim_end r with
      | EmptyString => if is_ws c then EmptyString else String c EmptyString
      | r' => String c r'
      end
  end.

(** [s.trim()] *)
Definition trim (s : string) : string := trim_end (trim_start s).

Fixpoint string_forallb (p : ascii -> bool) (s : string) : bool :=
  match s with
  | EmptyString => true
  | String c r => p c && string_forallb p r
  end.

Fixpoint string_map (f : ascii -> ascii) (s : string) : string :=
  match s with
  | EmptyString => EmptyString
  | String c r => String (f c) (string_map f r)
  end.

Definition lower_char (c : ascii) : ascii :=
  let n := code c in
  if ((65 <=? n) && (n <=? 90))
     || ((192 <=? n) && (n <=? 222) && negb (n =? 215))
  then ascii_of_nat (Z.to_nat (n + 32)) else c.

(** [s.toLowerCase()] *)
Definition toLowerCase (s : string) : string := string_map lower_char s.

(** [s.includes(sub)] *)
Fixpoint includes (sub s : string) : bool :=
  String.prefix sub s ||
  match s with
  | EmptyString => false
  | String _ r => includes sub r
  end.

(** *** Integers as text *)

(** [n.toString()] for an integer. *)
Definition Z_toString (n : Z) : string :=
  NilZero.string_of_int (Z.to_int n).

Definition is_digit (c : ascii) : bool :=
  let n := code c in (48 <=? n) && (n <=? 57).

Definition hex_val (c : ascii) : option Z :=
  let n := code c in
  if (48 <=? n) && (n <=? 57) then Some (n - 48)
  else if (97 <=? n) && (n <=? 102) then Some (n - 87)
  else if (65 <=? n) && (n <=? 70) then Some (n - 55)
  else None.

Definition dec_val (c : ascii) : option Z :=
  if is_digit c then Some (code c - 48) else None.

(** Reads the longest prefix of digits in the given radix; [None] when
    there is no digit at all. *)
Fixpoint read_digits (val : ascii -> option Z) (radix : Z)
    (acc : option Z) (s : string) : option Z :=
  match s with
  | EmptyString => acc
  | String c r =>
      match val c with
      | Some d => read_digits val radix (Some (default 0 acc * radix + d)) r
      | None => acc
      end
  end.

Definition parse_unsigned (s : string) : option Z :=
  match s with
  | String "0" (String x r) =>
      if (Ascii.eqb x "x" || Ascii.eqb x "X")%bool
      then read_digits hex_val 16 None r
      else read_digits dec_val 10 None s
  | _ => read_digits dec_val 10 None s
  end.

(** [parseInt(s)] with no radix argument; [None] is [NaN]. *)
Definition parseInt (s : string) : option Z :=
  match trim_start s with
  | String "-" r => Z.opp <$> parse_unsigned r
  | String "+" r => parse_unsigned r
  | r => parse_unsigned r
  end.

End Js.

(** ** [JSON.stringify] and [JSON.parse] *)

Module Json.
Import Js.

Definition dquote : ascii := "034"%char.
Definition bslash : ascii := "\"%char.

Definition hex_digit (n : Z) : ascii :=
  ascii_of_nat (Z.to_nat (if n <? 10 then 48 + n else 87 + n)).

(** How [JSON.stringify] writes one character of a string. *)
Definition escape_char (c : ascii) : string :=
  let n := code c in
  if Ascii.eqb c dquote then String bslash (String dquote "")
  else if Ascii.eqb c bslash then "\\"
  else if n =? 8 then "\b"
  else if n =? 12 then "\f"
  else if n =? 10 then "\n"
  else if n =? 13 then "\r"
  else if n =? 9 then "\t"
  else if n <? 32 then
    "\u00" +:+ String (hex_digit (n / 16)) (String (hex_digit (n mod 16)) "")
  else String c "".

Fixpoint escape (s : string) : string :=
  match s with
  | EmptyString => ""
  | String c r => escape_char c +:+ escape r
  end.

Definition quote (s : string) : string :=
  String dquote (escape s +:+ String dquote "").

Fixpoint join (sep : string) (l : list string) : string :=
  match l with
  | [] => ""
  | [x] => x
  | x :: r => x +:+ sep +:+ join sep r
  end.

(** [JSON.stringify(v)] for a value other than [undefined] itself.  Inside
    an array [undefined] is written [null]; a property whose value is
    [undefined] is left out of its object. *)
Fixpoint ser (v : JValue) : string :=
  match v with
  | JUndef | JNull => "null"
  | JBool b => if b then "true" else "false"
  | JNum n => Z_toString n
  | JStr s => quote s
  | JArr l => "[" +:+ join "," (map ser l) +:+ "]"
  | JObj kvs =>
      "{" +:+
      join ","
        ((fix members (l : Obj) : list string :=
            match l with
            | [] => []
            | (k, v) :: r =>
                match v with
                | JUndef => members r
                | _ => (quote k +:+ ":" +:+ ser v) :: members r
                end
            end) kvs)
      +:+ "}"
  end.

(** *** Parsing *)

Definition json_ws (c : ascii) : bool :=
  let n := code c in (n =? 32) || (n =? 9) || (n =? 10) || (n =? 13).

Fixpoint skip_ws (s : string) : string :=
  match s with
  | String c r => if json_ws c then skip_ws r else s
  | EmptyString => EmptyString
  end.

(** Reads [lit] off the front of [s]. *)
Fixpoint expect (lit s : string) : option string :=
  match lit, s with
  | EmptyString, _ => Some s
  | String a l, String b r => if Ascii.eqb a b then expect l r else None
  | String _ _, EmptyString => None
  end.

(** The code unit of a [\uXXXX] escape, when it is below 256. *)
Definition hex4 (a b c d : ascii) : option ascii :=
  match hex_val a, hex_val b, hex_val c, hex_val d with
  | Some x3, Some x2, Some x1, Some x0 =>
      if (x3 =? 0) && (x2 =? 0)
      then Some (ascii_of_nat (Z.to_nat (x1 * 16 + x0))) else None
  | _, _, _, _ => None
  end.

Definition simple_escape (e : ascii) : option ascii :=
  if Ascii.eqb e dquote then Some dquote
  else if Ascii.eqb e bslash then Some bslash
  else if Ascii.eqb e "/" then Some "/"%char
  else if Ascii.eqb e "b" then Some "008"%char
  else if Ascii.eqb e "f" then Some "012"%char
  else if Ascii.eqb e "n" then Some "010"%char
  else if Ascii.eqb e "r" then Some "013"%char
  else if Ascii.eqb e "t" then Some "009"%char
  else None.

(** The characters of a string literal after its opening quote, up to and
    including the closing quote. *)
Fixpoint parse_chars (s : string) : option (string * string) :=
  match s with
  | EmptyString => None
  | String c r =>
      if Ascii.eqb c dquote then Some ("", r)
      else if Ascii.eqb c bslash then
        match r with
        | String e r1 =>
            if Ascii.eqb e "u" then
              match r1 with
              | String h3 (String h2 (String h1 (String h0 r2))) =>
                  match hex4 h3 h2 h1 h0, parse_chars r2 with
                  | Some x, Some (str, rest) => Some (String x str, rest)
                  | _, _ => None
                  end
              | _ => None
              end
            else
              match simple_escape e, parse_chars r1 with
              | Some x, Some (str, rest) => Some (String x str, rest)
              | _, _ => None
              end
        | EmptyString => None
        end
      else if code c <? 32 then None
      else
        match parse_chars r with
        | Some (str, rest) => Some (String c str, rest)
        | None => None
        end
  end.

Fixpoint span_digits (s : string) : string * string :=
  match s with
  | String c r =>
      if is_digit c
      then let (d, r') := span_digits r in (String c d, r')
      else ("", s)
  | EmptyString => ("", "")
  end.

(** An integer without sign.  A leading zero is only allowed on its own; a
    fraction or an exponent is outside the model and is rejected. *)
Definition parse_digits (s : string) : option (Z * string) :=
  let (d, r) := span_digits s in
  match d with
  | EmptyString => None
  | String "0" (String _ _) => None
  | _ =>
      match r with
      | String "." _ | String "e" _ | String "E" _ => None
      | _ =>
          match NilEmpty.uint_of_string d with
          | Some u => Some (Z.of_uint u, r)
          | None => None
          end
      end
  end.

Definition parse_number (s : string) : option (Z * string) :=
  match s with
  | String "-" r =>
      match parse_digits r with
      | Some (n, r') => Some (- n, r')
      | None => None
      end
  | _ => parse_digits s
  end.

(** Recursive descent over the text; [fuel] bounds the number of values
    read one inside or after the other. *)
Fixpoint parse_value (fuel : nat) (s : string) : option (JValue * string) :=
  match fuel with
  | O => None
  | S fuel =>
      match skip_ws s with
      | EmptyString => None
      | String c r =>
          if Ascii.eqb c "n" then
            match expect "ull" r with Some r' => Some (JNull, r') | None => None end
          else if Ascii.eqb c "t" then
            match expect "rue" r with Some r' => Some (JBool true, r') | None => None end
          else if Ascii.eqb c "f" then
            match expect "alse" r with Some r' => Some (JBool false, r') | None => None end
          else if Ascii.eqb c dquote then
            match parse_chars r with
            | Some (str, r') => Some (JStr str, r')
            | None => None
            end
          else if Ascii.eqb c "[" then
            match skip_ws r with
            | String "]" r' => Some (JArr [], r')
            | _ =>
                match parse_elements fuel r with
                | Some (l, r') => Some (JArr l, r')
                | None => None
                end
            end
          else if Ascii.eqb c "{" then
            match skip_ws r with
            | String "}" r' => Some (JObj [], r')
            | _ =>
                match parse_members fuel r with
                | Some (kvs, r') =>
                    Some (JObj (fold_left (fun o kv => obj_set (fst kv) (snd kv) o) kvs []), r')
                | None => None
                end
            end
          else
            match parse_number (String c r) with
            | Some (n, r') => Some (JNum n, r')
            | None => None
            end
      end
  end

with parse_elements (fuel : nat) (s : string) : option (list JValue * string) :=
  match fuel with
  | O => None
  | S fuel =>
      match parse_value fuel s with
      | Some (v, r) =>
          match skip_ws r with
          | String "," r' =>
              match parse_elements fuel r' with
              | Some (l, r'') => Some (v :: l, r'')
              | None => None
              end
          | String "]" r' => Some ([v], r')
          | _ => None
          end
      | None => None
      end
  end

with parse_members (fuel : nat) (s : string) : option (Obj * string) :=
  match fuel with
  | O => None
  | S fuel =>
      match skip_ws s with
      | String c r =>
          if Ascii.eqb c dquote then
            match parse_chars r with
            | Some (k, r1) =>
                match skip_ws r1 with
                | String ":" r2 =>
                    match parse_value fuel r2 with
                    | Some (v, r3) =>
                        match skip_ws r3 with
                        | String "," r4 =>
                            match parse_members fuel r4 with
                            | Some (kvs, r5) => Some ((k, v) :: kvs, r5)
                            | None => None
                            end
                        | String "}" r4 => Some ([(k, v)], r4)
                        | _ => None
                        end
                    | None => None
                    end
                | _ => None
                end
            | None => None
            end
          else None
      | EmptyString => None
      end
  end.

(** [JSON.parse(s)]; [None] stands for the [SyntaxError] it throws. *)
Definition parse (s : string) : option JValue :=
  match parse_value (S (String.length s)) s with
  | Some (v, r) =>
      match skip_ws r with
      | EmptyString => Some v
      | _ => None
      end
  | None => None
  end.

(** What may follow a value inside a text: nothing, or the character that
    separates it from the next one or closes the enclosing value. *)
Definition closes (rest : string) : bool :=
  match rest with
  | EmptyString => true
  | String c _ => Ascii.eqb c "," || Ascii.eqb c "]" || Ascii.eqb c "}"
  end.

(** *** Values that survive serialisation *)

Fixpoint unique (l : list string) : bool :=
  match l with
  | [] => true
  | k :: r => negb (existsb (String.eqb k) r) && unique r
  end.

(** No [undefined] anywhere, and no object with a repeated key. *)
Fixpoint representable (v : JValue) : bool :=
  match v with
  | JUndef => false
  | JNull | JBool _ | JNum _ | JStr _ => true
  | JArr l => forallb representable l
  | JObj kvs =>
      unique (map fst kvs) && forallb (fun kv => representable (snd kv)) kvs
  end.

(** Number of values in a value, counting each element once more. *)
Fixpoint size (v : JValue) : nat :=
  match v with
  | JArr l => S (list_sum (map (fun x => S (size x)) l))
  | JObj kvs => S (list_sum (map (fun kv => S (size (snd kv))) kvs))
  | _ => 1
  end.

(** *** Notions used to state that parsing undoes serialisation *)

(** The first character of a number written by [Z_toString]. *)
Definition number_start (c : ascii) : bool := is_digit c || Ascii.eqb c "-".

(** The first character of a serialised value. *)
Definition value_start (c : ascii) : bool :=
  number_start c || Ascii.eqb c "n" || Ascii.eqb c "t" || Ascii.eqb c "f"
  || Ascii.eqb c dquote || Ascii.eqb c "[" || Ascii.eqb c "{".

(** The text of one property of an object. *)
Definition member_text (kv : string * JValue) : string :=
  quote (fst kv) +:+ ":" +:+ ser (snd kv).

Definition sum_sizes (l : list JValue) : nat :=
  list_sum (map (fun x => S (size x)) l).

(** A value is read back from its text, whatever text that closes it
    follows, by a parser with fuel for its size. *)
Definition reads_back (v : JValue) : Prop :=
  representable v = true ->
  forall (fuel : nat) (rest : string),
    closes rest = true -> (size v <= fuel)%nat ->
    parse_value fuel (ser v +:+ rest) = Some (v, rest).

End Json.

(** ** The part of the page the wizard reads and writes *)

Module Dom.
Import Js.

Inductive Kind : Type :=
| KText                          (* text input, textarea *)
| KSelect (options : list string) (* single select with these option values,
                                    the option with its value selected *)
| KUnselected (options : list string) (* the same, with no option selected *)
| KCheckbox
| KRadio.

(** A form control: [f_value] is what its [value] property returns. *)
Record Field : Type := mkField {
  f_name : string;
  f_kind : Kind;
  f_value : string;
  f_checked : bool;
  f_required : bool
}.

(** The element [#stepN]: the controls of its [.wizard-form] when it has
    one, and the controls it holds outside that form. *)
Record StepElement : Type := mkStep {
  se_form : option (list Field);
  se_outside : list Field
}.

Record Page : Type := mkPage {
  pg_steps : gmap Z StepElement;  (* [document.getElementById(`step${n}`)] *)
  pg_results : bool;              (* is there an [#analysisResults] *)
  pg_persona_message : bool;      (* is there a [#personaSpecificMessage] *)
  pg_summary : bool;              (* is there a [#resultsSummary] *)
  pg_analysis_steps : nat;        (* number of [.analysis-step] elements *)
  pg_search : string              (* [window.location.search] *)
}.

Definition is_checkbox (f : Field) : bool :=
  match f_kind f with KCheckbox => true | _ => false end.

Definition is_checkable (f : Field) : bool :=
  match f_kind f with KCheckbox | KRadio => true | _ => false end.

(** A select that has no option selected: it is of that kind, or its value
    is the value of none of its options. *)
Definition is_unselected (f : Field) : bool :=
  match f_kind f with
  | KUnselected _ => true
  | KSelect options => negb (existsb (String.eqb (f_value f)) options)
  | _ => false
  end.

(** [new FormData(form).entries()]: named controls in document order, a
    check box or radio button only when it is checked, a select only when
    one of its options is selected. *)
Definition form_data (fields : list Field) : list (string * string) :=
  flat_map (fun f =>
    if String.eqb (f_name f) "" then []
    else if is_checkable f && negb (f_checked f) then []
    else if is_unselected f then []
    else [(f_name f, f_value f)]) fields.

(** [form.querySelectorAll('input[type="checkbox"]:checked')] *)
Definition checked_boxes (fields : list Field) : list Field :=
  List.filter (fun f => is_checkbox f && f_checked f) fields.

(** [el.querySelectorAll('[required]')].  (The controls of the form are
    listed before the others; validation does not depend on the order.) *)
Definition required_fields (el : StepElement) : list Field :=
  List.filter f_required (default [] (se_form el) ++ se_outside el).

(** Assigning [v] to the [value] property: a select selects the option
    with that value; when it has none, no option is selected any more and
    its [value] is empty. *)
Definition set_value (v : string) (f : Field) : Field :=
  match f_kind f with
  | KSelect options | KUnselected options =>
      if existsb (String.eqb v) options
      then mkField (f_name f) (KSelect options) v (f_checked f) (f_required f)
      else mkField (f_name f) (KUnselected options) "" (f_checked f)
             (f_required f)
  | _ => mkField (f_name f) (f_kind f) v (f_checked f) (f_required f)
  end.

(** [form.querySelector('[name="n"]')] *)
Definition find_named (n : string) (fields : list Field) : option Field :=
  List.find (fun f => String.eqb (f_name f) n) fields.

(** Applies [g] to the first control named [n]. *)
Fixpoint update_named (n : string) (g : Field -> Field) (fields : list Field)
  : list Field :=
  match fields with
  | [] => []
  | f :: r =>
      if String.eqb (f_name f) n then g f :: r
      else f :: update_named n g r
  end.

End Dom.

(** ** What the wizard shows at the end *)

Module Present.
Import Js Json.

(** String conversion of a template hole ([`${v}`]). *)
Fixpoint to_string (v : JValue) : string :=
  match v with
  | JUndef => "undefined"
  | JNull => "null"
  | JBool b => if b then "true" else "false"
  | JNum n => Z_toString n
  | JStr s => s
  | JArr l =>
      join "," (map (fun x =>
        match x with
        | JUndef | JNull => ""
        | _ => to_string x
        end) l)
  | JObj _ => "[object Object]"
  end.

Definition all_digits (val : ascii -> option Z) (s : string) : bool :=
  negb (String.eqb s "") && string_forallb (fun c => bool_decide (is_Some (val c))) s.

(** Numeric conversion of a string for [>=]; [None] is [NaN].  Integers
    in decimal, with a sign, or in hexadecimal are read; the empty string is
    zero. *)
Definition string_to_number (s : string) : option Z :=
  let t := trim s in
  match t with
  | EmptyString => Some 0
  | String "0" (String "x" r) | String "0" (String "X" r) =>
      if all_digits hex_val r then read_digits hex_val 16 None r else None
  | String "-" r =>
      if all_digits dec_val r then Z.opp <$> read_digits dec_val 10 None r else None
  | String "+" r =>
      if all_digits dec_val r then read_digits dec_val 10 None r else None
  | _ =>
      if all_digits dec_val t then read_digits dec_val 10 None t else None
  end.

Definition to_number (v : JValue) : option Z :=
  match v with
  | JUndef => None
  | JNull => Some 0
  | JBool b => Some (if b then 1 else 0)
  | JNum n => Some n
  | JStr s => string_to_number s
  | JArr _ => string_to_number (to_string v)
  | JObj _ => None
  end.

(** [v >= n] *)
Definition ge_number (v : JValue) (n : Z) : bool :=
  match to_number v with
  | Some x => n <=? x
  | None => false
  end.

(** [v === 'text'] *)
Definition is_string (v : JValue) (text : string) : bool :=
  match v with
  | JStr s => String.eqb s text
  | _ => false
  end.

Inductive Template : Type := Entrepreneur | Consultant | Seller.

(** [messages[persona] || messages.entrepreneur]: the three own keys of
    [messages]; every other key falls back.  (Names inherited from
    [Object.prototype] are not expected as persona ids.) *)
Definition template_of (persona : JValue) : Template :=
  let k := to_string persona in
  if String.eqb k "consultant" then Consultant
  else if String.eqb k "seller" then Seller
  else Entrepreneur.

(** The variable parts of the chosen message of [getPersonaSpecificMessage]:
    the text set in bold and the sentence after it. *)
Record PersonaMessage : Type := mkMessage {
  pm_template : Template;
  pm_strong : string;
  pm_verdict : string
}.

Definition getPersonaSpecificMessage (persona riskData : JValue)
  : PersonaMessage :=
  match template_of persona with
  | Entrepreneur =>
      mkMessage Entrepreneur
        (to_string (or_else (prop riskData "compliance_score") (JStr "N/A")) +:+ "%")
        (if ge_number (prop riskData "compliance_score") 85
         then "exceeds VC expectations"
         else "needs improvement for optimal VC appeal")
  | Consultant =>
      mkMessage Consultant
        (to_string (or_else (prop riskData "risk_level") (JStr "Unknown")))
        (if is_string (prop riskData "risk_level") "CRITICAL"
         then "Recommend avoiding this engagement"
         else if is_string (prop riskData "risk_level") "HIGH"
         then "Require enhanced contract protections"
         else "Standard engagement terms acceptable")
  | Seller =>
      mkMessage Seller
        (to_string (or_else (prop riskData "compliance_score") (JStr "N/A")) +:+ "%")
        (if ge_number (prop riskData "compliance_score") 70
         then "Ready for enterprise sales"
         else "Client education recommended before enterprise pitches")
  end.

Definition getPersonaTitle (persona : JValue) : string :=
  let k := to_string persona in
  if String.eqb k "entrepreneur" then "Investor & Fundraising"
  else if String.eqb k "consultant" then "Client Risk & Liability"
  else if String.eqb k "seller" then "Sales & Market Positioning"
  else "Business".

Definition is_word (c : ascii) : bool :=
  let n := code c in
  ((48 <=? n) && (n <=? 57)) || ((65 <=? n) && (n <=? 90))
  || ((97 <=? n) && (n <=? 122)) || (n =? 95).

(** [l.toUpperCase()] for a word character. *)
Definition upper_char (c : ascii) : ascii :=
  let n := code c in
  if (97 <=? n) && (n <=? 122) then ascii_of_nat (Z.to_nat (n - 32)) else c.

(** Second [replace] of [formatLabel]: [/\b\w/g], a word character with no
    word character before it, is put in upper case. *)
Fixpoint capitalise (after_word : bool) (s : string) : string :=
  match s with
  | EmptyString => ""
  | String c r =>
      String (if is_word c && negb after_word then upper_char c else c)
             (capitalise (is_word c) r)
  end.

Definition formatLabel (key : string) : string :=
  capitalise false
    (string_map (fun c => if Ascii.eqb c "_" then " "%char else c) key).

Fixpoint indexed {A} (i : nat) (l : list A) : list (string * A) :=
  match l with
  | [] => []
  | x :: r => (Z_toString (Z.of_nat i), x) :: indexed (S i) r
  end.

(** [Object.entries(v)] for a value that is not null or undefined. *)
Definition entries (v : JValue) : list (string * JValue) :=
  match v with
  | JObj o => o
  | JArr l => indexed 0 l
  | JStr s => indexed 0 (map (fun c => JStr (String c "")) (list_ascii_of_string s))
  | _ => []
  end.

(** The holes of the markup that [createResultsSummary] returns. *)
Record Summary : Type := mkSummary {
  sm_color : string;
  sm_risk_score : string;
  sm_risk_level : string;
  sm_compliance_score : string;
  sm_executive_summary : string;
  sm_insights : option (string * list (string * string))
}.

Definition createResultsSummary (analysis persona : JValue) : Summary :=
  let riskData := or_else (prop analysis "risk_assessment") (JObj []) in
  let insights := or_else (prop analysis "persona_insights") (JObj []) in
  mkSummary
    (to_string (or_else (prop riskData "status_color") (JStr "#dc2626")))
    (to_string (or_else (prop riskData "risk_score") (JStr "--")))
    (to_string (or_else (prop riskData "risk_level") (JStr "Unknown")))
    (to_string (or_else (prop riskData "compliance_score") (JStr "--")))
    (to_string (or_else (prop analysis "executive_summary")
                  (JStr "Analysis completed successfully.")))
    (match entries insights with
     | [] => None
     | es =>
         Some (getPersonaTitle persona,
               map (fun kv => (formatLabel (fst kv), to_string (snd kv))) es)
     end).

End Present.

(** ** The wizard *)

Module Wizard.
Import Js Json Dom Present.

(** [let totalSteps = 4], never assigned again. *)
Definition totalSteps : Z := 4.

(** The period, in milliseconds, of the [setInterval] at the end of the
    script, whose callback is [autoSave]. *)
Definition autoSaveInterval : Z := 30000.

(** Callbacks handed to [setTimeout]. *)
Inductive Task : Type :=
| TUrlEntry (persona : string) (isDemo : bool) (scenarioName : option string)
    (* [selectPersona(persona); if (isDemo) loadDemoScenario(scenarioName)] *)
| TAutoAdvance
    (* [if (currentStep === 1) nextStep()] *)
| TRestoreStep (step : Z).
    (* [currentStep = step; updateWizardDisplay(); updateProgress()] *)

(** How the request of [makeAPICall] ends: [fetch] rejects, the response is
    not [ok], its body is not JSON, or the body parses to a value. *)
Inductive Response : Type :=
| NetworkError
| HttpError (status : Z)
| BadBody
| Ok (body : JValue).

(** What the wizard shows or sends, in the order it happens. *)
Inductive Event : Type :=
| Notify (message kind : string)
| Loading
| StageActive (i : nat)
| Request (endpoint : string) (body : Obj)
| Results (message : option PersonaMessage) (summary : option Summary)
| ErrorState
| Completed (persona : JValue)
| ConsoleError (what : string).

Record Wizard : Type := mkWizard {
  currentStep : Z;
  wizardData : Obj;
  selectedPersona : JValue;
  localStorage : gmap string string;
  sessionStorage : gmap string string;
  page : Page;
  timers : list (Z * Task);   (* pending callbacks with the time they are due *)
  clock : Z;                  (* milliseconds since the page was loaded *)
  autoSaveDue : Z;            (* when the interval of the auto-save is due next *)
  log : list (Z * Event)
}.

Definition set_step (n : Z) (st : Wizard) : Wizard :=
  mkWizard n (wizardData st) (selectedPersona st) (localStorage st)
    (sessionStorage st) (page st) (timers st) (clock st) (autoSaveDue st)
    (log st).

Definition set_data (d : Obj) (st : Wizard) : Wizard :=
  mkWizard (currentStep st) d (selectedPersona st) (localStorage st)
    (sessionStorage st) (page st) (timers st) (clock st) (autoSaveDue st)
    (log st).

Definition set_persona (p : JValue) (st : Wizard) : Wizard :=
  mkWizard (currentStep st) (wizardData st) p (localStorage st)
    (sessionStorage st) (page st) (timers st) (clock st) (autoSaveDue st)
    (log st).

Definition set_local (m : gmap string string) (st : Wizard) : Wizard :=
  mkWizard (currentStep st) (wizardData st) (selectedPersona st) m
    (sessionStorage st) (page st) (timers st) (clock st) (autoSaveDue st)
    (log st).

Definition set_session (m : gmap string string) (st : Wizard) : Wizard :=
  mkWizard (currentStep st) (wizardData st) (selectedPersona st)
    (localStorage st) m (page st) (timers st) (clock st) (autoSaveDue st)
    (log st).

Definition set_page (p : Page) (st : Wizard) : Wizard :=
  mkWizard (currentStep st) (wizardData st) (selectedPersona st)
    (localStorage st) (sessionStorage st) p (timers st) (clock st)
    (autoSaveDue st) (log st).

Definition set_timers (l : list (Z * Task)) (st : Wizard) : Wizard :=
  mkWizard (currentStep st) (wizardData st) (selectedPersona st)
    (localStorage st) (sessionStorage st) (page st) l (clock st)
    (autoSaveDue st) (log st).

Definition set_clock (t : Z) (st : Wizard) : Wizard :=
  mkWizard (currentStep st) (wizardData st) (selectedPersona st)
    (localStorage st) (sessionStorage st) (page st) (timers st) t
    (autoSaveDue st) (log st).

Definition emit (e : Event) (st : Wizard) : Wizard :=
  mkWizard (currentStep st) (wizardData st) (selectedPersona st)
    (localStorage st) (sessionStorage st) (page st) (timers st) (clock st)
    (autoSaveDue st) (log st ++ [(clock st, e)]).

Definition set_due (t : Z) (st : Wizard) : Wizard :=
  mkWizard (currentStep st) (wizardData st) (selectedPersona st)
    (localStorage st) (sessionStorage st) (page st) (timers st) (clock st) t
    (log st).

(** [setTimeout(task, delay)] *)
Definition setTimeout (task : Task) (delay : Z) (st : Wizard) : Wizard :=
  set_timers (timers st ++ [(clock st + delay, task)]) st.

(** [await new Promise(resolve => setTimeout(resolve, ms))] *)
Definition sleep (ms : Z) (st : Wizard) : Wizard :=
  set_clock (clock st + ms) st.

Definition showNotification (message kind : string) (st : Wizard) : Wizard :=
  emit (Notify message kind) st.

(** A storage item that [if (item)] accepts: present and not empty. *)
Definition getItem (k : string) (m : gmap string string) : option string :=
  match m !! k with
  | Some s => if String.eqb s "" then None else Some s
  | None => None
  end.

(** The page as it is when the script has run: the variables as declared,
    no [setTimeout] pending, the interval of the auto-save set and first
    due one period later, nothing shown. *)
Definition fresh (pg : Page) (ls ss : gmap string string) : Wizard :=
  mkWizard 1 [] JNull ls ss pg [] 0 autoSaveInterval [].

(** *** Persistence *)

Definition saveWizardData (st : Wizard) : Wizard :=
  set_local
    (<["nexusai_wizard_step" := Z_toString (currentStep st)]>
       (<["nexusai_wizard_data" := ser (JObj (wizardData st))]>
          (localStorage st)))
    st.

Definition clearSavedWizardData (st : Wizard) : Wizard :=
  set_session
    (delete "selectedPersona" (delete "selectedScenario" (sessionStorage st)))
    (set_local
       (delete "nexusai_wizard_step"
          (delete "nexusai_wizard_data" (localStorage st)))
       st).

(** First half of [loadSavedWizardData].  A stored text that does not parse
    is skipped by the [catch].  A stored text that parses to something that
    is not an object is never written by [saveWizardData]; [wizardData] is
    an object in this model, which therefore speaks of the code only for a
    local storage that is [restorable] (defined below), where that case
    does not arise. *)
Definition restore_data (st : Wizard) : Wizard :=
  match getItem "nexusai_wizard_data" (localStorage st) with
  | Some savedData =>
      if truthy (prop (JObj (wizardData st)) "demo_scenario") then st
      else
        match parse savedData with
        | Some (JObj o) =>
            let st1 := set_data o st in
            if truthy (prop (JObj o) "persona")
            then set_persona (prop (JObj o) "persona") st1
            else st1
        | _ => st
        end
  | None => st
  end.

(** Second half of [loadSavedWizardData]. *)
Definition restore_step (st : Wizard) : Wizard :=
  match getItem "nexusai_wizard_step" (localStorage st) with
  | Some savedStep =>
      if includes "demo" (pg_search (page st)) then st
      else
        match parseInt savedStep with
        | Some step =>
            if (1 <? step) && (step <=? totalSteps)
            then setTimeout (TRestoreStep step) 1000
                   (showNotification "Continuing from where you left off..." "info" st)
            else st
        | None => st
        end
  | None => st
  end.

Definition loadSavedWizardData (st : Wizard) : Wizard :=
  restore_step (restore_data st).

(** A stored data item that [loadSavedWizardData] handles as [restore_data]
    has it: there is none, or it does not parse, or it is an object, which
    is all that [saveWizardData] ever writes.  (The source assigns whatever
    the text parses to; with [null], a number, a string, a boolean or an
    array in [wizardData] the wizard can no longer collect anything, and
    such a session is outside this model.) *)
Definition restorable (ls : gmap string string) : bool :=
  match getItem "nexusai_wizard_data" ls with
  | Some savedData =>
      match parse savedData with
      | Some (JObj _) | None => true
      | Some _ => false
      end
  | None => true
  end.

(** *** Persona and demo scenario *)


Definition selectPersona (persona : string) (st : Wizard) : Wizard :=
  set_data (obj_set "persona" (JStr persona) (wizardData st))
    (set_persona (JStr persona) st).

(** The object literal of [prefillWizardFromScenario]:
    [{...wizardData, company_name: scenario.name, industry:
    scenario.industry.toLowerCase(), ai_description: scenario.ai_system,
    demo_scenario: scenario}]. *)
Definition prefilled (scenario : JValue) (industry : string) (d : Obj) : Obj :=
  obj_set "demo_scenario" scenario
    (obj_set "ai_description" (prop scenario "ai_system")
       (obj_set "industry" (JStr (toLowerCase industry))
          (obj_set "company_name" (prop scenario "name") d))).

(** [None] when evaluating the object literal throws: the scenario is
    [null], or its [industry] is not a string. *)
Definition prefillWizardFromScenario (scenario : JValue) (st : Wizard)
  : option Wizard :=
  match scenario with
  | JNull | JUndef => None
  | _ =>
      match prop scenario "industry" with
      | JStr industry =>
          Some (setTimeout TAutoAdvance 1000
                  (set_data (prefilled scenario industry (wizardData st)) st))
      | _ => None
      end
  end.

Definition loadDemoScenario (scenarioName : option string) (st : Wizard)
  : Wizard :=
  match getItem "selectedScenario" (sessionStorage st) with
  | Some savedScenario =>
      match parse savedScenario with
      | Some scenario =>
          match prefillWizardFromScenario scenario st with
          | Some st' => st'
          | None => emit (ConsoleError "Failed to load saved scenario:") st
          end
      | None => emit (ConsoleError "Failed to load saved scenario:") st
      end
  | None => st
  end.

(** [loadURLParameters], given what [params.get] returns for [persona],
    [demo] and [scenario]. *)
Definition loadURLParameters (persona isDemo scenarioName : option string)
    (st : Wizard) : Wizard :=
  match persona with
  | Some p =>
      if String.eqb p "" then st
      else
        setTimeout
          (TUrlEntry p
             (match isDemo with
              | Some d => negb (String.eqb d "")
              | None => false
              end)
             scenarioName)
          500
          (set_data (obj_set "persona" (JStr p) (wizardData st))
             (set_persona (JStr p) st))
  | None => st
  end.

(** What assigning a value to the [value] property of a control stores. *)
Definition to_dom_string (v : JValue) : string :=
  match v with
  | JNull => ""
  | _ => to_string v
  end.

(** [if (field && !field.value) field.value = v] on the control named [n]. *)
Definition fill_if_empty (n v : string) (fields : list Field) : list Field :=
  match find_named n fields with
  | Some f =>
      if String.eqb (f_value f) "" then update_named n (set_value v) fields
      else fields
  | None => fields
  end.

Definition set_form (n : Z) (el : StepElement) (fields : list Field)
    (st : Wizard) : Wizard :=
  set_page
    (mkPage (<[n := mkStep (Some fields) (se_outside el)]> (pg_steps (page st)))
       (pg_results (page st)) (pg_persona_message (page st))
       (pg_summary (page st)) (pg_analysis_steps (page st))
       (pg_search (page st)))
    st.

(** At step 2, [scenario.industry.toLowerCase()] throws when the scenario
    has no string [industry]; it is the last thing the function and its
    callers do, so nothing else is left undone. *)
Definition autoFillDemoData (st : Wizard) : Wizard :=
  let scenario := prop (JObj (wizardData st)) "demo_scenario" in
  if negb (truthy scenario) then st
  else if currentStep st =? 2 then
    match pg_steps (page st) !! 2 with
    | Some el =>
        match se_form el with
        | Some fields =>
            let fields1 :=
              fill_if_empty "company_name"
                (to_dom_string (prop scenario "name")) fields in
            let fields2 :=
              match find_named "industry" fields1 with
              | Some f =>
                  if String.eqb (f_value f) "" then
                    match prop scenario "industry" with
                    | JStr industry =>
                        update_named "industry"
                          (set_value (toLowerCase industry)) fields1
                    | _ => fields1
                    end
                  else fields1
              | None => fields1
              end in
            set_form 2 el fields2 st
        | None => st
        end
    | None => st
    end
  else if currentStep st =? 3 then
    match pg_steps (page st) !! 3 with
    | Some el =>
        match se_form el with
        | Some fields =>
            set_form 3 el
              (fill_if_empty "ai_description"
                 (to_dom_string (prop scenario "ai_system")) fields)
              st
        | None => st
        end
    | None => st
    end
  else st.

(** *** Steps *)

(** [!s.trim()] *)
Definition blank (s : string) : bool := String.eqb (trim s) "".

(** The result of [validateCurrentStep].  (It also moves the focus to the
    first blank required control and colours borders, which is not part of
    the model.) *)
Definition validateCurrentStep (st : Wizard) : bool :=
  match pg_steps (page st) !! currentStep st with
  | None => true
  | Some el =>
      if currentStep st =? 1 then not_nullish (selectedPersona st)
      else forallb (fun f => negb (blank (f_value f))) (required_fields el)
  end.

(** [checkboxData[name].push(value)], creating the array when needed. *)
Fixpoint push_value (name value : string) (cb : list (string * list string))
  : list (string * list string) :=
  match cb with
  | [] => [(name, [value])]
  | (k, vs) :: r =>
      if String.eqb name k then (k, (vs ++ [value])%list) :: r
      else (k, vs) :: push_value name value r
  end.

Definition checkbox_data (fields : list Field) : list (string * list string) :=
  fold_left (fun cb f => push_value (f_name f) (f_value f) cb)
    (checked_boxes fields) [].

Definition merge_form_data (entries : list (string * string)) (d : Obj) : Obj :=
  fold_left (fun d kv =>
    if includes "checkbox" (fst kv) then d
    else obj_set (fst kv) (JStr (snd kv)) d) entries d.

Definition merge_checkbox_data (cb : list (string * list string)) (d : Obj)
  : Obj :=
  fold_left (fun d kv => obj_set (fst kv) (JArr (map JStr (snd kv))) d) cb d.

(** [collectCurrentStepData].  (The source closes its [for ... of] loop
    with [});]; it is read as the plain loop it is meant to be.) *)
Definition collectCurrentStepData (st : Wizard) : Wizard :=
  match pg_steps (page st) !! currentStep st with
  | None => st
  | Some el =>
      match se_form el with
      | None => st
      | Some fields =>
          saveWizardData
            (set_data
               (merge_checkbox_data (checkbox_data fields)
                  (merge_form_data (form_data fields) (wizardData st)))
               st)
      end
  end.

Definition nextStep (st : Wizard) : Wizard :=
  if negb (validateCurrentStep st)
  then showNotification "Please complete all required fields" "warning" st
  else
    let st1 := collectCurrentStepData st in
    if currentStep st1 <? totalSteps then
      let st2 := set_step (currentStep st1 + 1) st1 in
      if truthy (prop (JObj (wizardData st2)) "demo_scenario")
      then autoFillDemoData st2
      else st2
    else st1.

Definition previousStep (st : Wizard) : Wizard :=
  if 1 <? currentStep st then set_step (currentStep st - 1) st else st.

(** The callback of the [setInterval] at the end of the script. *)
Definition autoSave (st : Wizard) : Wizard :=
  if obj_nonempty (wizardData st) then saveWizardData st else st.

(** *** Pending callbacks *)

Definition run_task (t : Task) (st : Wizard) : Wizard :=
  match t with
  | TUrlEntry persona isDemo scenarioName =>
      let st1 := selectPersona persona st in
      if isDemo then loadDemoScenario scenarioName st1 else st1
  | TAutoAdvance => if currentStep st =? 1 then nextStep st else st
  | TRestoreStep step => set_step step st
  end.

(** Takes the callback that is due first (the one set first among equals)
    out of the list. *)
Fixpoint earliest (l : list (Z * Task))
  : option (Z * Task * list (Z * Task)) :=
  match l with
  | [] => None
  | (d, t) :: r =>
      match earliest r with
      | Some (d', t', r') =>
          if d' <? d then Some (d', t', (d, t) :: r') else Some (d, t, r)
      | None => Some (d, t, [])
      end
  end.

(** The interval of the auto-save fires: its callback runs at the time it
    was due, or at the time it is when that is later (a submission, which
    is not interleaved with anything here, may have gone on past it), and
    it is due again one period after it was. *)
Definition fire_interval (st : Wizard) : Wizard :=
  set_due (autoSaveDue st + autoSaveInterval)
    (autoSave (set_clock (Z.max (clock st) (autoSaveDue st)) st)).

(** Time passes until the next callback is due, and it runs: the earliest
    [setTimeout], or the interval of the auto-save when that is due no
    later (it was set first). *)
Definition fire_next (st : Wizard) : Wizard :=
  match earliest (timers st) with
  | Some (due, t, rest) =>
      if autoSaveDue st <=? due then fire_interval st
      else run_task t (set_clock (Z.max (clock st) due) (set_timers rest st))
  | None => fire_interval st
  end.

(** *** Submission *)

Fixpoint stages (i n : nat) (st : Wizard) : Wizard :=
  match n with
  | O => st
  | S n' => stages (S i) n' (sleep 1200 (emit (StageActive i) st))
  end.

(** [await simulateAnalysisSteps()] *)
Definition simulateAnalysisSteps (st : Wizard) : Wizard :=
  stages 0 (pg_analysis_steps (page st)) st.

(** [await makeAPICall(endpoint, data, 'POST')]: the request goes out, the
    answer arrives [latency] later; [None] when it throws. *)
Definition makeAPICall (endpoint : string) (data : Obj) (resp : Response)
    (latency : Z) (st : Wizard) : option JValue * Wizard :=
  let st1 := sleep latency (emit (Request endpoint data) st) in
  match resp with
  | Ok body => (Some body, st1)
  | _ => (None, emit (ConsoleError "API call failed:") st1)
  end.

(** [None] when [analysis.risk_assessment] throws. *)
Definition displayWizardResults (analysis : JValue) (st : Wizard)
  : option Wizard :=
  if negb (pg_results (page st)) then Some st
  else
    match analysis with
    | JNull | JUndef => None
    | _ =>
        let riskData := or_else (prop analysis "risk_assessment") (JObj []) in
        Some (clearSavedWizardData
                (emit (Results
                         (if pg_persona_message (page st)
                          then Some (getPersonaSpecificMessage (selectedPersona st) riskData)
                          else None)
                         (if pg_summary (page st)
                          then Some (createResultsSummary analysis (selectedPersona st))
                          else None))
                   st))
    end.

Definition showAnalysisError (st : Wizard) : Wizard :=
  if negb (pg_results (page st)) then st else emit ErrorState st.

(** The object [analysisData] that [runAnalysis] builds:
    [{...wizardData, use_demo: !!wizardData.demo_scenario, persona:
    selectedPersona}], with [demo_type] added when [use_demo] holds. *)
Definition analysisData (st : Wizard) : Obj :=
  let use_demo := truthy (prop (JObj (wizardData st)) "demo_scenario") in
  let data :=
    obj_set "persona" (selectedPersona st)
      (obj_set "use_demo" (JBool use_demo) (wizardData st)) in
  if use_demo then obj_set "demo_type" (selectedPersona st) data else data.

(** [runAnalysis], run to its end with the given answer of the service.
    Other events that the browser may handle while the function is
    suspended are not interleaved here. *)
Definition runAnalysis (resp : Response) (latency : Z) (st : Wizard) : Wizard :=
  let st1 := emit Loading (set_step 4 (collectCurrentStepData st)) in
  let data := analysisData st1 in
  let st2 := simulateAnalysisSteps st1 in
  match makeAPICall "/api/analyze" data resp latency st2 with
  | (Some result, st3) =>
      match displayWizardResults result st3 with
      | Some st4 => emit (Completed (selectedPersona st4)) st4
      | None => showAnalysisError (emit (ConsoleError "Analysis failed:") st3)
      end
  | (None, st3) => showAnalysisError (emit (ConsoleError "Analysis failed:") st3)
  end.

(** [DOMContentLoaded]: [initializeWizard(); setupWizardNavigation();
    loadURLParameters()] on a page just loaded.  (What the handler of the
    analytics script does to local storage on the same event is
    [Analytics.onLoad]; it writes no item that the wizard reads.) *)
Definition enter (pg : Page) (persona isDemo scenarioName : option string)
    (ls ss : gmap string string) : Wizard :=
  loadURLParameters persona isDemo scenarioName
    (loadSavedWizardData (fresh pg ls ss)).

(** [startNewAssessment]: clears what is stored and reloads the page. *)
Definition startNewAssessment (pg : Page)
    (persona isDemo scenarioName : option string) (st : Wizard) : Wizard :=
  let st1 := clearSavedWizardData st in
  enter pg persona isDemo scenarioName (localStorage st1) (sessionStorage st1).

(** The user edits the [i]-th control of the form of step [n]. *)
Definition edit_field (n : Z) (i : nat) (g : Field -> Field) (st : Wizard)
  : Wizard :=
  match pg_steps (page st) !! n with
  | Some el =>
      match se_form el with
      | Some fields => set_form n el (alter g i fields) st
      | None => st
      end
  | None => st
  end.

(** *** Everything that can happen to a loaded wizard *)

Inductive Action : Type :=
| ASelect (persona : string)        (* click on a persona card *)
| ANext                             (* click on [#nextBtn] *)
| APrevious                         (* click on [#prevBtn] *)
| AAnalyze (resp : Response) (latency : Z)  (* click on [#analyzeBtn], or retry *)
| ATimer                            (* the next pending callback runs,
                                       the interval of the auto-save among them *)
| AEdit (n : Z) (i : nat) (g : Field -> Field)  (* input into a control *)
| ARestart (pg : Page) (persona isDemo scenarioName : option string).

Definition perform (a : Action) (st : Wizard) : Wizard :=
  match a with
  | ASelect persona => selectPersona persona st
  | ANext => nextStep st
  | APrevious => previousStep st
  | AAnalyze resp latency => runAnalysis resp latency st
  | ATimer => fire_next st
  | AEdit n i g => edit_field n i g st
  | ARestart pg persona isDemo scenarioName =>
      startNewAssessment pg persona isDemo scenarioName st
  end.

Inductive reachable : Wizard -> Prop :=
| reach_enter pg persona isDemo scenarioName ls ss :
    reachable (enter pg persona isDemo scenarioName ls ss)
| reach_perform a st :
    reachable st -> reachable (perform a st).

(** The sessions in which [wizardData] is an object throughout, as this
    model has it: those that start from a local storage that is
    [restorable].  (It then stays so, whatever happens:
    [SessionFacts.session_restorable].) *)
Inductive session : Wizard -> Prop :=
| session_enter pg persona isDemo scenarioName ls ss :
    restorable ls = true ->
    session (enter pg persona isDemo scenarioName ls ss)
| session_perform a st :
    session st -> session (perform a st).



(** The times at which requests were sent and results were shown. *)
Definition request_times (l : list (Z * Event)) : list Z :=
  flat_map (fun e => match snd e with Request _ _ => [fst e] | _ => [] end) l.

Definition result_times (l : list (Z * Event)) : list Z :=
  flat_map (fun e => match snd e with Results _ _ => [fst e] | _ => [] end) l.

End Wizard.

(** ** What the specification describes where the code differs

    These definitions follow the words of the specification; they are only
    used to compare them with the functions above. *)

Module Spec.
Import Js Json Dom Present Wizard.

(** "List-type required fields must have at least one selection": a
    required check box is satisfied when a box of its group is ticked. *)
Definition field_ok (fields : list Field) (f : Field) : bool :=
  if is_checkbox f
  then existsb (fun g => is_checkbox g && String.eqb (f_name g) (f_name f)
                         && f_checked g) fields
  else negb (blank (f_value f)).

(** [check(step)] of the validation gate. *)
Definition check (st : Wizard) : bool :=
  match pg_steps (page st) !! currentStep st with
  | None => true
  | Some el =>
      if currentStep st =? 1 then not_nullish (selectedPersona st)
      else
        let fields := (default [] (se_form el) ++ se_outside el)%list in
        forallb (field_ok fields) (List.filter f_required fields)
  end.

(** "A scenario value is written only if the current field is empty." *)
Definition write_if_empty (k : string) (v : JValue) (d : Obj) : Obj :=
  if truthy (prop (JObj d) k) then d else obj_set k v d.

(** The data after an additive-only prefill from [scenario]. *)
Definition apply_scenario (scenario : JValue) (industry : string) (d : Obj)
  : Obj :=
  write_if_empty "ai_description" (prop scenario "ai_system")
    (write_if_empty "industry" (JStr (toLowerCase industry))
       (write_if_empty "company_name" (prop scenario "name") d)).

(** "The one-shot record is consumed (deleted from storage) the first time
    it is read." *)
Definition session_after_read (ss : gmap string string) : gmap string string :=
  delete "selectedScenario" ss.

(** "[save] is invoked after every [previous()]." *)
Definition previous (st : Wizard) : Wizard := saveWizardData (previousStep st).

(** "This sequence runs concurrently with the network call and does not
    gate the network request": the request goes out when the submission
    starts, and the result is shown once both are over. *)
Definition request_time (st : Wizard) : Z := clock st.

Definition display_time (latency : Z) (st : Wizard) : Z :=
  clock st + Z.max (1200 * Z.of_nat (pg_analysis_steps (page st))) latency.

End Spec.

(** ** A page and sessions to try things on *)

Module Sample.
Import Js Json Dom Present Wizard.

Definition company_name : Field := mkField "company_name" KText "" false true.

Definition industry : Field :=
  mkField "industry" (KSelect [""; "b2b saas"; "healthcare"; "fintech"]) ""
    false true.

Definition frameworks_gdpr : Field :=
  mkField "frameworks" KCheckbox "gdpr" false true.

Definition frameworks_soc2 : Field :=
  mkField "frameworks" KCheckbox "soc2" false false.

Definition ai_description : Field :=
  mkField "ai_description" KText "" false true.

Definition steps : gmap Z StepElement :=
  <[1 := mkStep None []]>
    (<[2 := mkStep (Some [company_name; industry; frameworks_gdpr; frameworks_soc2]) []]>
       (<[3 := mkStep (Some [ai_description]) []]>
          (<[4 := mkStep None []]> ∅))).

(** The wizard opened from the scenario carousel, and opened directly. *)
Definition demo_page : Page :=
  mkPage steps true true true 3
    "?demo=true&persona=entrepreneur&scenario=TechStart+Pro".

Definition plain_page : Page :=
  mkPage steps true true true 3 "?persona=entrepreneur".

Definition scenario : JValue :=
  JObj [("name", JStr "TechStart Pro"); ("industry", JStr "B2B SaaS");
        ("ai_system", JStr "Sales lead scoring with anonymized data")].

(** A record without a name. *)
Definition nameless : JValue :=
  JObj [("industry", JStr "Fintech"); ("ai_system", JStr "Credit scoring")].

(** What [analyzeScenario] leaves in session storage. *)
Definition handoff (record : JValue) : gmap string string :=
  <["selectedScenario" := ser record]> (<["selectedPersona" := "entrepreneur"]> ∅).

Definition demo_entry (record : JValue) (ls : gmap string string) : Wizard :=
  enter demo_page (Some "entrepreneur") (Some "true") (Some "TechStart Pro")
    ls (handoff record).

(** The demo: after 500 ms the persona is selected and the scenario loaded,
    a second later the wizard moves to step 2, and the user goes on. *)
Definition demo_loaded : Wizard := perform ATimer (demo_entry scenario ∅).
Definition demo_step2 : Wizard := perform ATimer demo_loaded.
Definition demo_step3 : Wizard := perform ANext demo_step2.

Definition nameless_loaded : Wizard := perform ATimer (demo_entry nameless ∅).

(** A user who fills the wizard in. *)
Definition plain_entry : Wizard :=
  enter plain_page (Some "entrepreneur") None None ∅ ∅.

Definition plain_step2 : Wizard := perform ANext (perform ATimer plain_entry).

Definition plain_filled : Wizard :=
  perform (AEdit 2 1 (set_value "fintech"))
    (perform (AEdit 2 0 (set_value "Acme Robotics")) plain_step2).

Definition plain_step3 : Wizard := perform ANext plain_filled.

(** A demo in which the user typed a company name before moving on. *)
Definition demo_typed : Wizard :=
  set_step 2 (perform (AEdit 2 0 (set_value "Acme Robotics")) demo_loaded).

(** The same user comes back through a demo link. *)
Definition returning : Wizard := demo_entry scenario (localStorage plain_step3).

Definition answer : JValue :=
  JObj [("risk_assessment",
         JObj [("risk_score", JNum 0); ("compliance_score", JNum 92);
               ("risk_level", JStr "LOW"); ("status_color", JStr "#10b981")]);
        ("persona_insights", JObj [("funding_impact", JStr "+15% valuation")]);
        ("executive_summary", JStr "Low risk.")].

End Sample.

(** ** More of the wizard: what is collected, and the buttons *)

Module WizardView.
Import Js Json Dom Present Wizard.

(** Names of the boxes that [collectCurrentStepData] finds ticked. *)
Definition checked_names (fields : list Field) : list string :=
  map f_name (checked_boxes fields).

(** The values of the ticked boxes named [k], in document order. *)
Definition group_values (k : string) (fields : list Field) : list string :=
  map f_value
    (List.filter (fun f => String.eqb k (f_name f)) (checked_boxes fields)).

(** The value of the last entry named [k]. *)
Definition last_value (k : string) (entries : list (string * string))
  : option string :=
  fold_left (fun acc kv => if String.eqb k (fst kv) then Some (snd kv) else acc)
    entries None.

(** [checkboxData[k]] *)
Fixpoint cb_get (k : string) (cb : list (string * list string))
  : option (list string) :=
  match cb with
  | [] => None
  | (k', vs) :: r => if String.eqb k k' then Some vs else cb_get k r
  end.

(** The [display] that [updateWizardDisplay] gives each of the three
    buttons ([true] for ['block'], [false] for ['none']). *)
Record Buttons : Type := mkButtons {
  prevBtn : bool;
  nextBtn : bool;
  analyzeBtn : bool
}.

Definition updateWizardDisplay (st : Wizard) : Buttons :=
  mkButtons (1 <? currentStep st) (currentStep st <? totalSteps)
    (currentStep st =? 3).

(** Reading a log from its start: [Some k] while every [Results] so far
    answered a request of its own sent before it, [k] requests being still
    without results; [None] once results were shown that no request
    accounts for. *)
Definition settle (open : option nat) (e : Z * Event) : option nat :=
  match open with
  | Some k =>
      match snd e with
      | Request _ _ => Some (S k)
      | Results _ _ => match k with S k' => Some k' | O => None end
      | _ => Some k
      end
  | None => None
  end.

Definition unanswered (l : list (Z * Event)) : option nat :=
  fold_left settle l (Some O).

End WizardView.

(** ** The scenario carousel *)

Module Carousel.
Import Js Json Present.

(** [window.allScenarios]: the scenarios of each persona.  The answer of
    the service is taken to be what the fallback table is, an object whose
    members are arrays. *)
Abbreviation Table := (list (string * list JValue)).

(** Where [analyzeScenario] sends the browser: the values it gives the
    parameters [persona] and [scenario]. *)
Record Address : Type := mkAddress {
  a_persona : string;
  a_scenario : string
}.

(** The variables of the carousel script, session storage, the address
    the page was sent to, and the notifications shown. *)
Record Carousel : Type := mkCarousel {
  currentScenarioIndex : option Z;   (* a number; [None] is [NaN] *)
  scenarios : list JValue;
  currentPersona : string;
  scenarioInterval : bool;           (* is the autoplay interval set *)
  allScenarios : option Table;       (* [None] until it is assigned *)
  storage : gmap string string;      (* [sessionStorage] *)
  href : option Address;             (* [window.location.href], once assigned *)
  notes : list (string * string)
}.

Definition set_index (i : option Z) (c : Carousel) : Carousel :=
  mkCarousel i (scenarios c) (currentPersona c) (scenarioInterval c)
    (allScenarios c) (storage c) (href c) (notes c).

Definition set_currentPersona (p : string) (c : Carousel) : Carousel :=
  mkCarousel (currentScenarioIndex c) (scenarios c) p (scenarioInterval c)
    (allScenarios c) (storage c) (href c) (notes c).

Definition set_interval (b : bool) (c : Carousel) : Carousel :=
  mkCarousel (currentScenarioIndex c) (scenarios c) (currentPersona c) b
    (allScenarios c) (storage c) (href c) (notes c).

Definition set_table (t : Table) (c : Carousel) : Carousel :=
  mkCarousel (currentScenarioIndex c) (scenarios c) (currentPersona c)
    (scenarioInterval c) (Some t) (storage c) (href c) (notes c).

Definition set_storage (m : gmap string string) (c : Carousel) : Carousel :=
  mkCarousel (currentScenarioIndex c) (scenarios c) (currentPersona c)
    (scenarioInterval c) (allScenarios c) m (href c) (notes c).

Definition set_href (a : Address) (c : Carousel) : Carousel :=
  mkCarousel (currentScenarioIndex c) (scenarios c) (currentPersona c)
    (scenarioInterval c) (allScenarios c) (storage c) (Some a) (notes c).

Definition showNotification (message kind : string) (c : Carousel)
  : Carousel :=
  mkCarousel (currentScenarioIndex c) (scenarios c) (currentPersona c)
    (scenarioInterval c) (allScenarios c) (storage c) (href c)
    (notes c ++ [(message, kind)]).

(** The script as loaded: [currentScenarioIndex = 0], [scenarios = []],
    [currentPersona = 'entrepreneur'], no interval, no table. *)
Definition initial (ss : gmap string string) : Carousel :=
  mkCarousel (Some 0) [] "entrepreneur" false None ss None [].

(** [a % n] on integers: [NaN] when [n] is 0, else the remainder with the
    sign of [a]. *)
Definition js_rem (a : option Z) (n : Z) : option Z :=
  match a with
  | Some x => if n =? 0 then None else Some (Z.rem x n)
  | None => None
  end.

(** [a + b] where [a] may be [NaN]. *)
Definition js_add (a : option Z) (b : Z) : option Z :=
  match a with
  | Some x => Some (x + b)
  | None => None
  end.

(** [scenarios.length] *)
Definition len (c : Carousel) : Z := Z.of_nat (length (scenarios c)).

Definition stopCarouselAutoplay (c : Carousel) : Carousel :=
  set_interval false c.

Definition startCarouselAutoplay (c : Carousel) : Carousel :=
  let c1 := stopCarouselAutoplay c in
  if 1 <? len c1 then set_interval true c1 else c1.

(** [table[persona] || []], for a persona that is not [inherited]. *)
Fixpoint lookup_scenarios (persona : string) (table : Table) : list JValue :=
  match table with
  | [] => []
  | (k, l) :: r => if String.eqb persona k then l else lookup_scenarios persona r
  end.

(** Whether [createScenarioCard(scenario, index)] returns: it calls
    [getStatusClass(scenario.status)], and that [status.includes], which a
    string has and an array has.  A scenario that is not an object has no
    [status], or throws when it is read. *)
Definition card_renders (scenario : JValue) : bool :=
  match scenario with
  | JObj _ =>
      match prop scenario "status" with
      | JStr _ | JArr _ => true
      | _ => false
      end
  | _ => false
  end.

(** Whether [renderScenarios] returns, on a page that has
    [#carouselIndicators] beside [#scenarioCarousel] (on another page it
    draws nothing and returns): it throws at the first scenario whose card
    cannot be made. *)
Definition renders (l : list JValue) : bool := forallb card_renders l.

(** [loadPersonaScenarios(persona)].  While [window.allScenarios] is not
    assigned, reading its member throws, after [currentPersona] was set.
    When [renderScenarios] throws, the three variables are set and the
    autoplay is as it was. *)
Definition loadPersonaScenarios (persona : string) (c : Carousel) : Carousel :=
  match allScenarios c with
  | None => set_currentPersona persona c
  | Some table =>
      let c1 :=
        mkCarousel (Some 0) (lookup_scenarios persona table) persona
          (scenarioInterval c) (allScenarios c) (storage c) (href c) (notes c) in
      if negb (renders (scenarios c1)) then c1
      else if 0 <? len c1 then startCarouselAutoplay c1 else c1
  end.

Definition goToScenario (index : Z) (c : Carousel) : Carousel :=
  set_index (Some index) c.

Definition nextScenario (c : Carousel) : Carousel :=
  set_index (js_rem (js_add (currentScenarioIndex c) 1) (len c)) c.

Definition previousScenario (c : Carousel) : Carousel :=
  set_index
    (js_rem (js_add (js_add (currentScenarioIndex c) (-1)) (len c)) (len c)) c.

(** The table that [loadFallbackScenarios] installs.  (The characters of
    the three [status] texts that lie outside the range of this model's
    strings are given by their UTF-8 bytes.) *)
Definition fallbackScenarios : Table :=
  [("entrepreneur",
    [JObj [("name", JStr "TechStart Pro");
           ("type", JStr "AI Startup - Series A");
           ("industry", JStr "B2B SaaS");
           ("ai_system", JStr "Sales lead scoring with anonymized data");
           ("risk_level", JStr "LOW");
           ("risk_score", JNum 25);
           ("compliance_score", JNum 92);
           ("potential_fines", JStr "$15,000");
           ("status", JStr "✅ Investor Ready");
           ("key_strengths",
            JArr [JStr "GDPR compliant"; JStr "SOC2 certified";
                  JStr "Clear data policies"]);
           ("funding_advantage", JStr "78% higher Series A success")]]);
   ("consultant",
    [JObj [("name", JStr "QuickHire AI Client");
           ("type", JStr "HR Tech Prospect");
           ("industry", JStr "Human Resources");
           ("ai_system", JStr "AI hiring tool with bias issues");
           ("risk_level", JStr "CRITICAL");
           ("risk_score", JNum 95);
           ("compliance_score", JNum 15);
           ("potential_fines", JStr "$4,200,000");
           ("status", JStr "🚨 Avoid Client");
           ("key_risks",
            JArr [JStr "EEOC violations"; JStr "Discriminatory AI";
                  JStr "No bias testing"]);
           ("lawsuit_probability", JStr "73% violation rate")]]);
   ("seller",
    [JObj [("name", JStr "FinanceBot Inc");
           ("type", JStr "FinTech SMB");
           ("industry", JStr "Financial Services");
           ("ai_system", JStr "Investment advice chatbot");
           ("risk_level", JStr "MEDIUM");
           ("risk_score", JNum 55);
           ("compliance_score", JNum 68);
           ("potential_fines", JStr "$350,000");
           ("status", JStr "⚠️ Education Needed");
           ("key_gaps",
            JArr [JStr "SEC registration"; JStr "Fiduciary duties";
                  JStr "Risk disclosures"]);
           ("client_education", JStr "Compliance training required")]])].

Definition loadFallbackScenarios (c : Carousel) : Carousel :=
  loadPersonaScenarios "entrepreneur" (set_table fallbackScenarios c).

(** [loadDemoScenarios], given the table the service answered with, or
    [None] when the request or the reading of its answer failed.  The
    [catch] also takes what [loadPersonaScenarios] throws. *)
Definition loadDemoScenarios (data : option Table) (c : Carousel) : Carousel :=
  match data with
  | Some table =>
      let c1 := loadPersonaScenarios "entrepreneur" (set_table table c) in
      if renders (lookup_scenarios "entrepreneur" table) then c1
      else loadFallbackScenarios c1
  | None => loadFallbackScenarios c
  end.

(** [getScoreColor(score)] for a number; every comparison with [NaN] is
    false. *)
Definition getScoreColor (score : option Z) : string :=
  match score with
  | Some s =>
      if 80 <=? s then "#10b981"
      else if 60 <=? s then "#f59e0b"
      else if 40 <=? s then "#ea580c"
      else "#dc2626"
  | None => "#dc2626"
  end.

(** The two colours on a scenario card, as [createScenarioCard] asks for
    them: [getScoreColor(scenario.risk_score)] for the risk score and
    [getScoreColor(100 - scenario.risk_score)] for the compliance score. *)
Definition card_colors (scenario : JValue) : string * string :=
  let risk := to_number (prop scenario "risk_score") in
  (getScoreColor risk, getScoreColor (Z.sub 100 <$> risk)).

(** [scenarios[index]] *)
Definition scenario_at (index : Z) (c : Carousel) : JValue :=
  if index <? 0 then JUndef
  else default JUndef (nth_error (scenarios c) (Z.to_nat index)).






(** [analyzeScenario(index)].  [JSON.stringify] of a missing scenario is
    [undefined], which is stored as the text [undefined]; reading
    [scenario.name] then throws, and so it does for [null]. *)
Definition analyzeScenario (index : Z) (c : Carousel) : Carousel :=
  let scenario := scenario_at index c in
  let c1 := showNotification "Loading scenario analysis..." "info" c in
  let text :=
    match scenario with
    | JUndef => "undefined"
    | _ => ser scenario
    end in
  let c2 :=
    set_storage
      (<["selectedPersona" := currentPersona c]>
         (<["selectedScenario" := text]> (storage c1))) c1 in
  match scenario with
  | JUndef | JNull =>
      showNotification "Failed to load scenario analysis" "error" c2
  | _ =>
      set_href
        (mkAddress (currentPersona c) (to_string (prop scenario "name"))) c2
  end.

(** What can happen on the page of the carousel. *)
Inductive Action : Type :=
| ALoaded (data : option Table)     (* the table arrives, or fails to *)
| ATab (persona : string)           (* click on a persona tab *)
| APrev                             (* click on [#prevBtn], swipe right *)
| ANext                             (* click on [#nextBtn], swipe left *)
| AIndicator (index : nat)          (* click on an indicator *)
| ATick                             (* the autoplay interval elapses *)
| AHidden                           (* the tab is hidden *)
| AVisible                          (* the tab is shown again *)
| AAnalyze (index : nat).           (* the button of a card *)

(** An indicator and a card exist for each scenario shown (only for the
    first of them, after a [renderScenarios] that threw), and the interval
    only fires while it is set. *)
Definition enabled (a : Action) (c : Carousel) : Prop :=
  match a with
  | AIndicator i | AAnalyze i => (i < length (scenarios c))%nat
  | ATick => scenarioInterval c = true
  | _ => True
  end.

Definition perform (a : Action) (c : Carousel) : Carousel :=
  match a with
  | ALoaded data => loadDemoScenarios data c
  | ATab persona => loadPersonaScenarios persona c
  | APrev => previousScenario (stopCarouselAutoplay c)
  | ANext => nextScenario (stopCarouselAutoplay c)
  | AIndicator i => goToScenario (Z.of_nat i) c
  | ATick => nextScenario c
  | AHidden => stopCarouselAutoplay c
  | AVisible => startCarouselAutoplay c
  | AAnalyze i => analyzeScenario (Z.of_nat i) c
  end.

Inductive reachable : Carousel -> Prop :=
| reach_initial ss : reachable (initial ss)
| reach_perform a c : reachable c -> enabled a c -> reachable (perform a c).

(** The index points at one of the scenarios shown. *)
Definition in_range (c : Carousel) : Prop :=
  exists i, currentScenarioIndex c = Some i /\ 0 <= i < len c.


End Carousel.

(** ** The landing page: the start button *)

Module Landing.
Import Js.

(** The element [#startAssessment]. *)
Record Button : Type := mkButton {
  textContent : string;
  b_href : string
}.

(** The table [personaMessages] of [updateStartButton], for a persona that
    is not [inherited]. *)
Definition personaMessages (persona : string) : option string :=
  if String.eqb persona "entrepreneur" then Some "Get Investor-Ready"
  else if String.eqb persona "consultant" then Some "Assess Client Risk"
  else if String.eqb persona "seller" then Some "Enable Enterprise Sales"
  else None.

Definition updateStartButton (persona : string) (b : Button) : Button :=
  mkButton (default "Start Assessment" (personaMessages persona))
    ("/wizard?persona=" +:+ persona).

(** The [cta] texts of the table [messages] of [updatePersonaMessaging],
    for a persona that is not [inherited]. *)
Definition cta (persona : string) : option string :=
  if String.eqb persona "entrepreneur" then Some "Get Investor-Ready"
  else if String.eqb persona "consultant" then Some "Assess Client Risk"
  else if String.eqb persona "seller" then Some "Enable Enterprise Sales"
  else None.

(** [updatePersonaMessaging(persona)] on the button, if the page has it. *)
Definition updatePersonaMessaging (persona : string) (b : option Button)
  : option Button :=
  match cta persona with
  | Some text =>
      match b with
      | Some button => Some (mkButton text (b_href button))
      | None => None
      end
  | None => b
  end.

(** [trackPersonaSelection(persona)] on the button and local storage. *)
Definition trackPersonaSelection (persona : string)
    (s : option Button * gmap string string)
  : option Button * gmap string string :=
  (updatePersonaMessaging persona (fst s),
   <["selected_persona" := persona]> (snd s)).

(** The click handler that [initializePersonaSelection] gives a persona
    option. *)
Definition select_option (persona : string) (b : option Button)
  : option Button :=
  match b with
  | Some button => Some (updateStartButton persona button)
  | None => None
  end.

End Landing.

(** ** The dashboard *)

Module Dashboard.
Import Js Json Dom.

Record Dashboard : Type := mkDashboard {
  localStorage : gmap string string;
  pending : list Z      (* delays of the pending [viewPricingStrategy] calls *)
}.

(** The storage part of [initializeDashboard]. *)
Definition initializeDashboard (d : Dashboard) : Dashboard :=
  match localStorage d !! "showPricing" with
  | Some flag =>
      if String.eqb flag "true"
      then mkDashboard (delete "showPricing" (localStorage d))
             (pending d ++ [500])
      else d
  | None => d
  end.

(** [Object.fromEntries(formData)] *)
Definition fromEntries (entries : list (string * string)) : Obj :=
  fold_left (fun d kv => obj_set (fst kv) (JStr (snd kv)) d) entries [].

(** The object that [handleQuickAssessment] sends, given the controls of
    the form and the [checked] property of [#useDemoData]; [None] when
    that element is missing and reading its property throws. *)
Definition quickAssessmentData (fields : list Field)
    (useDemoData : option bool) : option Obj :=
  match useDemoData with
  | None => None
  | Some checked =>
      let data := obj_set "use_demo" (JBool checked)
                    (fromEntries (form_data fields)) in
      let persona := or_else (prop (JObj data) "persona") (JStr "entrepreneur") in
      let data := obj_set "persona" persona data in
      Some (if checked then obj_set "demo_type" persona data else data)
  end.

(** A number as text, [NaN] included. *)
Definition number_text (n : option Z) : string :=
  match n with
  | Some z => Z_toString z
  | None => "NaN"
  end.

(** What [updateAssessmentCount] does to the text of one [.stat-value],
    where [r] is [Math.floor(Math.random() * 2)]. *)
Definition bump (r : Z) (text : string) : string :=
  if includes "%" text
  then number_text (Z.min 40 <$> ((fun v => v + r) <$> parseInt text)) +:+ "%"
  else text.

(** [updateAssessmentCount] on the cards of the page, each given as the
    text of its [.stat-value] if it has one; [rnd i] is what the random
    draw for the [i]-th card yields. *)
Definition updateAssessmentCount (rnd : nat -> Z)
    (cards : list (option string)) : list (option string) :=
  imap (fun i card => bump (rnd i) <$> card) cards.

End Dashboard.

(** ** Analytics kept in local storage *)

Module Analytics.
Import Js Json.

(** [l.slice(-n)] *)
Definition slice_last {A} (n : nat) (l : list A) : list A :=
  skipn (length l - n) l.

(** [localStorage.getItem(k) || dflt] *)
Definition stored_or (dflt k : string) (ls : gmap string string) : string :=
  default dflt (Wizard.getItem k ls).

(** How a call ends, with local storage as it is then. *)
Inductive Outcome : Type :=
| Returned (ls : gmap string string)
| Thrown (ls : gmap string string).

(** The object that [trackEvent] records. *)
Definition eventData (eventName : string) (properties : Obj)
    (timestamp url user_agent : string) : JValue :=
  JObj [("event", JStr eventName);
        ("properties",
         JObj (obj_set "user_agent" (JStr user_agent)
                 (obj_set "url" (JStr url)
                    (obj_set "timestamp" (JStr timestamp) properties))))].

(** [trackEvent(eventName, properties)] at the given time, address and
    browser.  [JSON.parse] throws on a text that does not parse, and
    [events.push] on a value that is not an array. *)
Definition trackEvent (eventName : string) (properties : Obj)
    (timestamp url user_agent : string) (ls : gmap string string) : Outcome :=
  match parse (stored_or "[]" "analytics_events" ls) with
  | Some (JArr events) =>
      Returned
        (<["analytics_events" :=
            ser (JArr (slice_last 100
                         (events ++
                          [eventData eventName properties timestamp url
                             user_agent])))]> ls)
  | _ => Thrown ls
  end.

(** One call of [trackEvent]: its arguments and the time it is made. *)
Record Call : Type := mkCall {
  c_name : string;
  c_properties : Obj;
  c_time : string
}.

Definition recorded (url user_agent : string) (c : Call) : JValue :=
  eventData (c_name c) (c_properties c) (c_time c) url user_agent.

(** One call after the other in the same script, on the same page and
    browser. *)
Fixpoint trackEvents (calls : list Call) (url user_agent : string)
    (ls : gmap string string) : Outcome :=
  match calls with
  | [] => Returned ls
  | c :: r =>
      match trackEvent (c_name c) (c_properties c) (c_time c) url user_agent ls with
      | Returned ls' => trackEvents r url user_agent ls'
      | Thrown ls' => Thrown ls'
      end
  end.

(** The object that [trackUserJourney] records; [getItem] gives [null]
    for a key that is not there. *)
Definition journeyStep (pathname timestamp : string)
    (ls : gmap string string) : JValue :=
  JObj [("page", JStr pathname);
        ("timestamp", JStr timestamp);
        ("persona",
         match ls !! "selected_persona" with
         | Some p => JStr p
         | None => JNull
         end)].

Definition trackUserJourney (pathname timestamp : string)
    (ls : gmap string string) : Outcome :=
  match parse (stored_or "[]" "user_journey" ls) with
  | Some (JArr journey) =>
      Returned
        (<["user_journey" :=
            ser (JArr (slice_last 20
                         (journey ++ [journeyStep pathname timestamp ls])))]>
           ls)
  | _ => Thrown ls
  end.

(** The index that a property name is when an array is assigned to:
    the decimal text of a number below [2^32 - 1]. *)
Definition array_index (k : string) : option nat :=
  match read_digits dec_val 10 None k with
  | Some n =>
      if String.eqb (Z_toString n) k && (n <? 4294967295)
      then Some (Z.to_nat n) else None
  | None => None
  end.

(** [target[k] = v] for a string [v] that is not the text of a number (a
    time stamp): [None] when it throws.  An object gets the property, an
    array an element when [k] is an index, a boolean, number or string is
    left as it is.  [__proto__] is a property of its own only where the
    parsed text had it; elsewhere the assignment goes to the inherited
    setter, which ignores a string. *)
Definition assign (k : string) (v : string) (target : JValue)
  : option JValue :=
  match target with
  | JUndef | JNull => None
  | JObj o =>
      match obj_get k o with
      | None =>
          if String.eqb k "__proto__" then Some target
          else Some (JObj (obj_set k (JStr v) o))
      | Some _ => Some (JObj (obj_set k (JStr v) o))
      end
  | JArr l =>
      match array_index k with
      | Some i =>
          Some (JArr (if (i <? length l)%nat then <[i := JStr v]> l
                      else l ++ repeat JUndef (i - length l) ++ [JStr v]))
      | None => if String.eqb k "length" then None else Some target
      end
  | _ => Some target
  end.

(** [trackFunnelStep(step)]: [timestamp] is the time written into the
    funnel, [timestamp'] the time of the event recorded after it. *)
Definition trackFunnelStep (step timestamp timestamp' url user_agent : string)
    (ls : gmap string string) : Outcome :=
  match parse (stored_or "{}" "conversion_funnel" ls) with
  | Some funnel =>
      match assign step timestamp funnel with
      | Some funnel' =>
          trackEvent "funnel_step" [("step", JStr step)] timestamp' url
            user_agent (<["conversion_funnel" := ser funnel']> ls)
      | None => Thrown ls
      end
  | None => Thrown ls
  end.

(** [trackABTest(testName, variant)] *)
Definition trackABTest (testName variant : string) (ls : gmap string string)
  : gmap string string :=
  <["ab_test_" +:+ testName := variant]> ls.

(** The readings of the clock during one run of the handler below, by
    [trackUserJourney], [trackFunnelStep] and [trackEvent]. *)
Record Times : Type := mkTimes {
  t_journey : string;
  t_funnel : string;
  t_event : string
}.

(** The handler of [DOMContentLoaded] of the analytics script, which
    tells the landing page, the wizard and the dashboard apart by their
    paths, as far as local storage goes; [variant_b] is the draw of
    [initializeABTests]. *)
Definition onLoad (pathname url user_agent : string) (t : Times)
    (variant_b : bool) (ls : gmap string string) : Outcome :=
  match trackUserJourney pathname (t_journey t) ls with
  | Returned ls1 =>
      if String.eqb pathname "/" then
        trackFunnelStep "landing_page_view" (t_funnel t) (t_event t) url
          user_agent
          (trackABTest "cta_text" (if variant_b then "variant_b" else "control")
             ls1)
      else if String.eqb pathname "/wizard" then
        trackFunnelStep "wizard_start" (t_funnel t) (t_event t) url user_agent
          ls1
      else if String.eqb pathname "/dashboard" then
        trackFunnelStep "dashboard_view" (t_funnel t) (t_event t) url
          user_agent ls1
      else Returned ls1
  | Thrown ls1 => Thrown ls1
  end.

(** Local storage when a call has ended, either way. *)
Definition stored (o : Outcome) : gmap string string :=
  match o with
  | Returned ls | Thrown ls => ls
  end.

End Analytics.

(** ** More sessions to try things on *)

Module Scenes.
Import Js Json Dom Present Wizard Sample.

(** The user ticks a box. *)
Definition tick (f : Field) : Field :=
  mkField (f_name f) (f_kind f) (f_value f) true (f_required f).

(** The user of [plain_filled] ticks both boxes of the group. *)
Definition ticked : Wizard :=
  perform (AEdit 2 3 tick) (perform (AEdit 2 2 tick) plain_filled).

(** A scenario as the service sends it, with a [status]. *)
Definition with_status (status : string) (scenario : JValue) : JValue :=
  match scenario with
  | JObj o => JObj (o ++ [("status", JStr status)])
  | _ => scenario
  end.

(** A table with three scenarios for one persona, one for another, none
    for a third and one that lacks its [status] for a fourth, and the
    carousel once it has arrived. *)
Definition table : Carousel.Table :=
  [("entrepreneur",
    [with_status "Investor Ready" scenario;
     with_status "Needs Review" nameless;
     JObj [("name", JStr "MedScan & Co"); ("industry", JStr "Healthcare");
           ("ai_system", JStr "Triage of scans"); ("risk_score", JNum 85);
           ("status", JStr "Critical")]]);
   ("consultant", [with_status "Investor Ready" scenario]);
   ("seller", []);
   ("investor", [scenario; nameless])].

Definition carousel : Carousel.Carousel :=
  Carousel.perform (Carousel.ALoaded (Some table)) (Carousel.initial ∅).

(** The wizard page at an address without a query. *)
Definition bare_page : Page := mkPage steps true true true 3 "".

(** The [n]-th click on the start button, as [trackEvent] is told. *)
Definition click (n : nat) : Analytics.Call :=
  Analytics.mkCall "cta_click" [("count", JNum (Z.of_nat n))]
    "2024-05-01T10:00:00.000Z".

(** The local storage of a visitor who chose a persona on the landing
    page the day before: a funnel with two steps, a log with one event. *)
Definition funnel : Obj :=
  [("landing_page_view", JStr "2024-05-01T10:00:00.000Z");
   ("wizard_start", JStr "2024-05-01T10:05:00.000Z")].

Definition landing_event : JValue :=
  Analytics.eventData "funnel_step" [("step", JStr "landing_page_view")]
    "2024-05-01T10:00:00.001Z" "https://example.org/" "browser".

Definition visited : gmap string string :=
  <["conversion_funnel" := ser (JObj funnel)]>
    (<["analytics_events" := ser (JArr [landing_event])]>
       (<["selected_persona" := "seller"]> ∅)).

(** The local storage of a visitor with twenty page loads behind them. *)
Definition landing_step : JValue :=
  JObj [("page", JStr "/"); ("timestamp", JStr "2024-05-01T10:00:00.000Z");
        ("persona", JNull)].

Definition travelled : gmap string string :=
  <["user_journey" := ser (JArr (repeat landing_step 20))]> ∅.

End Scenes.

(** * Properties *)

(** ** Strings and numbers *)

Module JsFacts.
Import Js.

Lemma append_cons (x : ascii) (a b : string) :
  String x a +:+ b = String x (a +:+ b).
Proof. reflexivity. Qed.

Lemma append_nil_l (b : string) : "" +:+ b = b.
Proof. reflexivity. Qed.

Lemma append_assoc (a b c : string) : (a +:+ b) +:+ c = a +:+ (b +:+ c).
Proof.
  induction a as [|x a IH]; [reflexivity|].
  now rewrite !append_cons, IH.
Qed.

Lemma append_nil_r (a : string) : a +:+ "" = a.
Proof.
  induction a as [|x a IH]; [reflexivity|].
  now rewrite append_cons, IH.
Qed.

Lemma length_append (a b : string) :
  String.length (a +:+ b) = (String.length a + String.length b)%nat.
Proof.
  induction a as [|x a IH]; [reflexivity|].
  rewrite append_cons. simpl. now rewrite IH.
Qed.

(** [trim] leaves nothing exactly when every character is white space. *)
Lemma trim_start_blank (s : string) :
  trim_start s = "" <-> string_forallb is_ws s = true.
Proof.
  induction s as [|c s IH]; simpl; [tauto|].
  destruct (is_ws c); simpl; [exact IH | split; discriminate].
Qed.

Lemma trim_end_blank (s : string) :
  trim_end s = "" <-> string_forallb is_ws s = true.
Proof.
  induction s as [|c s IH]; simpl; [tauto|].
  destruct (trim_end s) eqn:E.
  - destruct (is_ws c); simpl; [tauto | ].
    split; discriminate.
  - split; [discriminate|].
    intros H. apply andb_true_iff in H as [_ H].
    apply IH in H. discriminate.
Qed.

Lemma trim_start_suffix_ws (s : string) :
  string_forallb is_ws (trim_start s) = true -> string_forallb is_ws s = true.
Proof.
  induction s as [|c s IH]; simpl; [tauto|].
  destruct (is_ws c) eqn:E; simpl; [exact IH | now rewrite E].
Qed.

Lemma trim_blank (s : string) :
  trim s = "" <-> string_forallb is_ws s = true.
Proof.
  unfold trim. rewrite trim_end_blank. split.
  - apply trim_start_suffix_ws.
  - intros H. apply trim_start_blank in H. now rewrite H.
Qed.

End JsFacts.

(** ** Serialisation round trip *)

Module JsonFacts.
Import Js Json JsFacts.

Lemma parse_chars_escape_char (c : ascii) (r : string) :
  parse_chars (escape_char c +:+ r) =
  match parse_chars r with
  | Some (str, rest) => Some (String c str, rest)
  | None => None
  end.
Proof.
  destruct c as [[] [] [] [] [] [] [] []]; reflexivity.
Qed.

Lemma parse_chars_escape (s rest : string) :
  parse_chars (escape s +:+ String dquote rest) = Some (s, rest).
Proof.
  induction s as [|c s IH].
  - reflexivity.
  - change (escape (String c s)) with (escape_char c +:+ escape s).
    now rewrite append_assoc, parse_chars_escape_char, IH.
Qed.

Lemma parse_chars_quote (s rest : string) :
  exists tl, quote s +:+ rest = String dquote tl /\ parse_chars tl = Some (s, rest).
Proof.
  exists (escape s +:+ String dquote rest). split.
  - unfold quote. now rewrite append_cons, append_assoc.
  - apply parse_chars_escape.
Qed.

Lemma closes_cases (rest : string) :
  closes rest = true ->
  rest = "" \/ exists r, rest = String "," r \/ rest = String "]" r \/ rest = String "}" r.
Proof.
  destruct rest as [|c r]; [now left|]. simpl. intros H. right. exists r.
  destruct (Ascii.eqb_spec c ","); [subst; tauto|].
  destruct (Ascii.eqb_spec c "]"); [subst; tauto|].
  destruct (Ascii.eqb_spec c "}"); [subst; tauto|]. discriminate.
Qed.

Lemma digits_of_uint (d : Decimal.uint) :
  string_forallb is_digit (NilEmpty.string_of_uint d) = true.
Proof. induction d; simpl; auto. Qed.

Lemma span_digits_app (ds rest : string) :
  string_forallb is_digit ds = true ->
  closes rest = true ->
  span_digits (ds +:+ rest) = (ds, rest).
Proof.
  intros Hd Hr. induction ds as [|c ds IH].
  - rewrite append_nil_l.
    destruct (closes_cases rest Hr) as [->|[r [->|[->| ->]]]]; reflexivity.
  - simpl in Hd. apply andb_true_iff in Hd as [Hc Hd].
    rewrite append_cons. simpl. rewrite Hc, (IH Hd). reflexivity.
Qed.

Lemma parse_digits_uint (d : Decimal.uint) (rest : string) :
  d <> Decimal.Nil ->
  (forall d', d = Decimal.D0 d' -> d' = Decimal.Nil) ->
  closes rest = true ->
  parse_digits (NilEmpty.string_of_uint d +:+ rest) = Some (Z.of_uint d, rest).
Proof.
  intros Hnil Hzero Hr. unfold parse_digits.
  rewrite (span_digits_app _ _ (digits_of_uint d) Hr).
  assert (Hu := NilEmpty.usu d).
  assert (Hrest : forall (X : Type) (a b : X),
             match rest with
             | String "." _ | String "e" _ | String "E" _ => a
             | _ => b
             end = b).
  { intros X a b.
    destruct (closes_cases rest Hr) as [->|[r [->|[->| ->]]]]; reflexivity. }
  destruct d; try congruence;
    try (simpl NilEmpty.string_of_uint; cbv iota beta;
         simpl NilEmpty.string_of_uint in Hu; rewrite Hrest, Hu; reflexivity).
  rewrite (Hzero d eq_refl). simpl. now rewrite Hrest.
Qed.

Lemma to_uint_head (p : positive) (d' : Decimal.uint) :
  Pos.to_uint p <> Decimal.D0 d'.
Proof.
  intros E.
  assert (Hn : Decimal.unorm (Pos.to_uint p) = Pos.to_uint p).
  { rewrite <- DecimalPos.Unsigned.to_of, DecimalPos.Unsigned.of_to. reflexivity. }
  assert (Hz : Decimal.nzhead (Pos.to_uint p) <> Decimal.Nil).
  { intros Hz. apply DecimalFacts.unorm_0 in Hz. rewrite Hn in Hz.
    now apply DecimalPos.Unsigned.to_uint_nonzero in Hz. }
  rewrite (DecimalFacts.unorm_nzhead _ Hz) in Hn.
  rewrite E in Hn at 2. now apply DecimalFacts.nzhead_nonzero in Hn.
Qed.

Lemma Z_toString_pos (p : positive) :
  Z_toString (Z.pos p) = NilEmpty.string_of_uint (Pos.to_uint p).
Proof.
  unfold Z_toString. simpl.
  assert (H := DecimalPos.Unsigned.to_uint_nonnil p).
  destruct (Pos.to_uint p); [congruence | reflexivity ..].
Qed.

Lemma Z_toString_neg (p : positive) :
  Z_toString (Z.neg p) = String "-" (NilEmpty.string_of_uint (Pos.to_uint p)).
Proof.
  unfold Z_toString. simpl.
  assert (H := DecimalPos.Unsigned.to_uint_nonnil p).
  destruct (Pos.to_uint p); [congruence | reflexivity ..].
Qed.

Lemma parse_digits_pos (p : positive) (rest : string) :
  closes rest = true ->
  parse_digits (NilEmpty.string_of_uint (Pos.to_uint p) +:+ rest)
  = Some (Z.pos p, rest).
Proof.
  intros Hr. rewrite parse_digits_uint; trivial.
  - unfold Z.of_uint. now rewrite DecimalPos.Unsigned.of_to.
  - apply DecimalPos.Unsigned.to_uint_nonnil.
  - intros d' E. now apply to_uint_head in E.
Qed.

Lemma uint_start (d : Decimal.uint) :
  d <> Decimal.Nil ->
  exists c tl, NilEmpty.string_of_uint d = String c tl /\ is_digit c = true.
Proof. destruct d; [congruence | intros _; simpl; eauto ..]. Qed.

Lemma Z_toString_start (n : Z) :
  exists c tl, Z_toString n = String c tl /\ number_start c = true.
Proof.
  destruct n as [|p|p].
  - exists "0"%char, "". split; reflexivity.
  - rewrite Z_toString_pos.
    destruct (uint_start _ (DecimalPos.Unsigned.to_uint_nonnil p)) as (c & tl & -> & Hc).
    exists c, tl. unfold number_start. now rewrite Hc.
  - rewrite Z_toString_neg. exists "-"%char. eexists. split; reflexivity.
Qed.

Lemma parse_number_toString (n : Z) (rest : string) :
  closes rest = true ->
  parse_number (Z_toString n +:+ rest) = Some (n, rest).
Proof.
  intros Hr. destruct n as [|p|p].
  - change (Z_toString 0) with "0". unfold parse_number. rewrite append_cons, append_nil_l.
    change (String "0" rest) with (NilEmpty.string_of_uint (Decimal.D0 Decimal.Nil) +:+ rest).
    cbv iota beta. rewrite parse_digits_uint; trivial; [discriminate | congruence].
  - rewrite Z_toString_pos.
    destruct (uint_start _ (DecimalPos.Unsigned.to_uint_nonnil p)) as (c & tl & E & Hc).
    unfold parse_number.
    assert (Hp := parse_digits_pos p rest Hr). rewrite E in *.
    rewrite append_cons in *.
    destruct c as [[] [] [] [] [] [] [] []]; try discriminate Hc; exact Hp.
  - rewrite Z_toString_neg, append_cons. unfold parse_number.
    now rewrite parse_digits_pos.
Qed.

Lemma ser_arr (l : list JValue) :
  ser (JArr l) = "[" +:+ join "," (map ser l) +:+ "]".
Proof. reflexivity. Qed.

Lemma ser_obj (kvs : Obj) :
  forallb (fun kv => representable (snd kv)) kvs = true ->
  ser (JObj kvs) = "{" +:+ join "," (map member_text kvs) +:+ "}".
Proof.
  intros H. simpl. do 3 f_equal.
  induction kvs as [|[k v] kvs IH]; [reflexivity|].
  simpl in H. apply andb_true_iff in H as [Hv H].
  rewrite map_cons, <- (IH H). unfold member_text. simpl fst. simpl snd.
  destruct v; try reflexivity. discriminate.
Qed.

Lemma ser_arr_app (l : list JValue) (rest : string) :
  ser (JArr l) +:+ rest = String "[" (join "," (map ser l) +:+ String "]" rest).
Proof. rewrite ser_arr, !append_assoc. reflexivity. Qed.

Lemma ser_obj_app (kvs : Obj) (rest : string) :
  forallb (fun kv => representable (snd kv)) kvs = true ->
  ser (JObj kvs) +:+ rest
  = String "{" (join "," (map member_text kvs) +:+ String "}" rest).
Proof. intros H. rewrite (ser_obj _ H), !append_assoc. reflexivity. Qed.

Lemma join_cons2 (sep x y : string) (l : list string) :
  join sep (x :: y :: l) = x +:+ sep +:+ join sep (y :: l).
Proof. reflexivity. Qed.

Lemma ser_start (v : JValue) :
  exists c tl, ser v = String c tl /\ value_start c = true.
Proof.
  destruct v as [| |b|n|s|l|kvs].
  - exists "n"%char, "ull". split; reflexivity.
  - exists "n"%char, "ull". split; reflexivity.
  - destruct b; [exists "t"%char, "rue" | exists "f"%char, "alse"]; split; reflexivity.
  - destruct (Z_toString_start n) as (c & tl & E & Hc).
    exists c, tl. split; [exact E|]. unfold value_start. now rewrite Hc.
  - exists dquote. eexists. split; reflexivity.
  - exists "["%char. eexists. split; reflexivity.
  - exists "{"%char. eexists. split; reflexivity.
Qed.

Lemma parse_value_number (f : nat) (c : ascii) (s : string) :
  number_start c = true ->
  parse_value (S f) (String c s) =
  match parse_number (String c s) with
  | Some (n, r) => Some (JNum n, r)
  | None => None
  end.
Proof.
  destruct c as [[] [] [] [] [] [] [] []]; intros H; try discriminate H; reflexivity.
Qed.

Lemma parse_value_array (f : nat) (c : ascii) (s : string) :
  value_start c = true ->
  parse_value (S f) (String "[" (String c s)) =
  match parse_elements f (String c s) with
  | Some (l, r) => Some (JArr l, r)
  | None => None
  end.
Proof.
  destruct c as [[] [] [] [] [] [] [] []]; intros H; try discriminate H; reflexivity.
Qed.

Lemma parse_value_object (f : nat) (s : string) :
  parse_value (S f) (String "{" (String dquote s)) =
  match parse_members f (String dquote s) with
  | Some (kvs, r) =>
      Some (JObj (fold_left (fun o kv => obj_set (fst kv) (snd kv) o) kvs []), r)
  | None => None
  end.
Proof. reflexivity. Qed.

(** Writing the properties of an object with distinct keys one after the
    other into an empty object gives the object back. *)
Lemma obj_set_fresh (k : string) (v : JValue) (o : Obj) :
  existsb (String.eqb k) (map fst o) = false ->
  obj_set k v o = (o ++ [(k, v)])%list.
Proof.
  induction o as [|[k' v'] o IH]; simpl; [reflexivity|].
  intros H. apply orb_false_iff in H as [H1 H2].
  rewrite H1. now rewrite (IH H2).
Qed.

Lemma existsb_app_single (k k' : string) (l : list string) :
  existsb (String.eqb k) l = false -> String.eqb k k' = false ->
  existsb (String.eqb k) (l ++ [k']) = false.
Proof.
  intros H1 H2. rewrite existsb_app, H1. simpl. now rewrite H2.
Qed.

Lemma fold_obj_set (kvs acc : Obj) :
  unique (map fst (acc ++ kvs)) = true ->
  fold_left (fun o kv => obj_set (fst kv) (snd kv) o) kvs acc = (acc ++ kvs)%list.
Proof.
  revert acc. induction kvs as [|[k v] kvs IH]; intros acc H; simpl.
  - now rewrite app_nil_r.
  - rewrite obj_set_fresh.
    + rewrite IH; rewrite <- app_assoc; [reflexivity | exact H].
    + clear IH. induction acc as [|[k' v'] acc IHa]; [reflexivity|].
      simpl in H. apply andb_true_iff in H as [Hk H].
      simpl. rewrite (IHa H), orb_false_r.
      rewrite map_app, existsb_app in Hk. simpl in Hk.
      apply negb_true_iff, orb_false_iff in Hk as [_ Hk].
      apply orb_false_iff in Hk as [Hk _].
      now rewrite String.eqb_sym.
Qed.

Lemma parse_elements_join (l : list JValue) :
  Forall reads_back l -> l <> [] ->
  forallb representable l = true ->
  forall (fuel : nat) (rest : string),
    closes rest = true -> (sum_sizes l <= fuel)%nat ->
    parse_elements fuel (join "," (map ser l) +:+ String "]" rest) = Some (l, rest).
Proof.
  induction l as [|x l IH]; intros HF Hne Hrep fuel rest Hr Hfuel; [congruence|].
  apply Forall_cons_iff in HF as [Hx HF].
  simpl in Hrep. apply andb_true_iff in Hrep as [Hrx Hrl].
  unfold sum_sizes in Hfuel. simpl in Hfuel.
  destruct fuel as [|fuel]; [lia|].
  destruct l as [|y l].
  - simpl map. simpl join. simpl parse_elements.
    rewrite (Hx Hrx); [reflexivity | reflexivity | lia].
  - rewrite !map_cons, join_cons2, <- !map_cons, !append_assoc.
    simpl parse_elements. rewrite append_cons, append_nil_l.
    rewrite (Hx Hrx); [| reflexivity | simpl in *; lia].
    simpl skip_ws. cbv iota beta.
    rewrite IH; trivial; [congruence | unfold sum_sizes; simpl in *; lia].
Qed.

Lemma parse_members_join (kvs : Obj) :
  Forall (fun kv => reads_back (snd kv)) kvs -> kvs <> [] ->
  forallb (fun kv => representable (snd kv)) kvs = true ->
  forall (fuel : nat) (rest : string),
    closes rest = true ->
    (list_sum (map (fun kv => S (size (snd kv))) kvs) <= fuel)%nat ->
    parse_members fuel (join "," (map member_text kvs) +:+ String "}" rest)
    = Some (kvs, rest).
Proof.
  induction kvs as [|[k x] l IH]; intros HF Hne Hrep fuel rest Hr Hfuel; [congruence|].
  apply Forall_cons_iff in HF as [Hx HF]. simpl in Hx.
  simpl in Hrep. apply andb_true_iff in Hrep as [Hrx Hrl].
  simpl in Hfuel.
  destruct fuel as [|fuel]; [lia|].
  destruct l as [|y l].
  - simpl map. simpl join. unfold member_text at 1. simpl fst. simpl snd.
    rewrite !append_assoc.
    destruct (parse_chars_quote k (":" +:+ ser x +:+ String "}" rest)) as (tl & -> & Htl).
    simpl parse_members. rewrite Htl.
    rewrite append_cons, append_nil_l. simpl skip_ws. cbv iota beta.
    rewrite (Hx Hrx); [reflexivity | reflexivity | lia].
  - rewrite !map_cons, join_cons2, <- !map_cons.
    unfold member_text at 1. simpl fst. simpl snd.
    rewrite !append_assoc.
    destruct (parse_chars_quote k
                (":" +:+ ser x +:+ "," +:+ join "," (map member_text (y :: l))
                 +:+ String "}" rest)) as (tl & -> & Htl).
    simpl parse_members. rewrite Htl.
    rewrite append_cons, append_nil_l. simpl skip_ws. cbv iota beta.
    rewrite (Hx Hrx); [| reflexivity | simpl in *; lia].
    rewrite append_cons, append_nil_l. simpl skip_ws. cbv iota beta.
    rewrite IH; trivial; [congruence | simpl in *; lia].
Qed.

Lemma parse_value_ser (v : JValue) : reads_back v.
Proof.
  induction v as [| |b|n|s|l IH|kvs IH] using JValue_deep_ind;
    intros Hrep fuel rest Hr Hfuel;
    (destruct fuel as [|fuel]; [simpl in Hfuel; lia|]).
  - discriminate.
  - reflexivity.
  - destruct b; reflexivity.
  - destruct (Z_toString_start n) as (c & tl & E & Hc).
    assert (Hp := parse_number_toString n rest Hr).
    simpl ser. rewrite E in *. rewrite append_cons in *.
    now rewrite (parse_value_number fuel c _ Hc), Hp.
  - simpl ser.
    destruct (parse_chars_quote s rest) as (tl & -> & Htl).
    simpl. now rewrite Htl.
  - destruct l as [|x l]; [reflexivity|].
    rewrite ser_arr_app.
    destruct (ser_start x) as (c & tl & E & Hc).
    assert (Hj : exists tl', join "," (map ser (x :: l)) +:+ String "]" rest = String c tl').
    { destruct l; simpl map; [simpl join | rewrite join_cons2];
        rewrite E, append_cons; eauto. }
    destruct Hj as (tl' & Hj).
    assert (He := parse_elements_join (x :: l) IH ltac:(congruence)
                    Hrep fuel rest Hr ltac:(unfold sum_sizes; simpl in *; lia)).
    rewrite Hj in *.
    now rewrite (parse_value_array fuel c _ Hc), He.
  - destruct kvs as [|[k x] l]; [reflexivity|].
    simpl in Hrep. apply andb_true_iff in Hrep as [Hu Hrep].
    change (representable x && forallb (fun kv => representable (snd kv)) l)
      with (forallb (fun kv => representable (snd kv)) ((k, x) :: l)) in Hrep.
    rewrite (ser_obj_app _ _ Hrep).
    assert (Hj : exists tl', join "," (map member_text ((k, x) :: l)) +:+ String "}" rest
                            = String dquote tl').
    { destruct l; simpl map; [simpl join | rewrite join_cons2];
        unfold member_text at 1; unfold quote; rewrite !append_cons; eauto. }
    destruct Hj as (tl' & Hj).
    assert (He := parse_members_join ((k, x) :: l) IH ltac:(congruence)
                    Hrep fuel rest Hr ltac:(simpl in *; lia)).
    rewrite Hj in *.
    rewrite parse_value_object, He.
    rewrite (fold_obj_set ((k, x) :: l) []); [reflexivity | exact Hu].
Qed.

Lemma length_join (l : list string) :
  (list_sum (map (fun t => S (String.length t)) l)
   <= S (String.length (join "," l)))%nat.
Proof.
  induction l as [|x l IH]; [simpl; lia|].
  destruct l as [|y l].
  - simpl. lia.
  - rewrite join_cons2, !length_append. simpl in *. lia.
Qed.

Lemma list_sum_le {A} (f g : A -> nat) (l : list A) :
  Forall (fun x => (f x <= g x)%nat) l ->
  (list_sum (map f l) <= list_sum (map g l))%nat.
Proof. induction 1; simpl; lia. Qed.

Lemma size_le_length (v : JValue) :
  representable v = true -> (size v <= String.length (ser v))%nat.
Proof.
  induction v as [| |b|n|s|l IH|kvs IH] using JValue_deep_ind; intros Hrep.
  - discriminate.
  - simpl. lia.
  - destruct b; simpl; lia.
  - destruct (Z_toString_start n) as (c & tl & E & _). simpl. rewrite E. simpl. lia.
  - simpl. lia.
  - rewrite ser_arr, !length_append. simpl size. simpl String.length.
    assert (H := length_join (map ser l)). rewrite map_map in H.
    assert (H2 : (list_sum (map (fun x => S (size x)) l)
                  <= list_sum (map (fun x => S (String.length (ser x))) l))%nat).
    { apply list_sum_le. simpl in Hrep.
      rewrite forallb_forall in Hrep. rewrite Forall_forall in IH |- *.
      intros x Hx. apply le_n_S, IH; [exact Hx|].
      apply Hrep. now apply list_elem_of_In. }
    lia.
  - simpl in Hrep. apply andb_true_iff in Hrep as [_ Hrep].
    rewrite (ser_obj _ Hrep), !length_append. simpl size. simpl String.length.
    assert (H := length_join (map member_text kvs)). rewrite map_map in H.
    assert (H2 : (list_sum (map (fun kv => S (size (snd kv))) kvs)
                  <= list_sum (map (fun kv => S (String.length (member_text kv))) kvs))%nat).
    { apply list_sum_le.
      rewrite forallb_forall in Hrep. rewrite Forall_forall in IH |- *.
      intros kv Hkv. unfold member_text. rewrite !length_append.
      specialize (IH kv Hkv (Hrep kv ltac:(now apply list_elem_of_In))). lia. }
    lia.
Qed.

(** What [JSON.stringify] writes for a value without [undefined] in it,
    [JSON.parse] reads back as the same value. *)
Lemma parse_ser (v : JValue) :
  representable v = true -> parse (ser v) = Some v.
Proof.
  intros Hrep. unfold parse.
  rewrite <- (append_nil_r (ser v)) at 2.
  rewrite (parse_value_ser v Hrep); [reflexivity | reflexivity |].
  apply size_le_length in Hrep. lia.
Qed.

Lemma ser_nonempty (v : JValue) : String.eqb (ser v) "" = false.
Proof. destruct (ser_start v) as (c & tl & -> & _). reflexivity. Qed.

End JsonFacts.

(** ** The step counter *)

Module StepFacts.
Import Js Json Dom Present Wizard.

Ltac split_cases :=
  repeat (simpl;
          match goal with
          | |- context [match ?x with _ => _ end] => destruct x eqn:?
          end);
  simpl.

Lemma collect_step st : currentStep (collectCurrentStepData st) = currentStep st.
Proof. unfold collectCurrentStepData. split_cases; reflexivity. Qed.


Lemma autoFill_step st : currentStep (autoFillDemoData st) = currentStep st.
Proof. unfold autoFillDemoData. split_cases; reflexivity. Qed.


Lemma autoFill_data st : wizardData (autoFillDemoData st) = wizardData st.
Proof. unfold autoFillDemoData. split_cases; reflexivity. Qed.

Lemma nextStep_step st :
  currentStep (nextStep st) =
  if validateCurrentStep st && (currentStep st <? totalSteps)
  then currentStep st + 1 else currentStep st.
Proof.
  unfold nextStep. destruct (validateCurrentStep st); simpl; [|reflexivity].
  rewrite collect_step. destruct (currentStep st <? totalSteps); simpl.
  - destruct (truthy _); rewrite ?autoFill_step; reflexivity.
  - apply collect_step.
Qed.


(** What a prefill that does not throw leaves behind. *)
Lemma prefill_some scenario st w :
  prefillWizardFromScenario scenario st = Some w ->
  exists industry,
    prop scenario "industry" = JStr industry /\
    w = setTimeout TAutoAdvance 1000
          (set_data (prefilled scenario industry (wizardData st)) st).
Proof.
  unfold prefillWizardFromScenario.
  destruct scenario; try discriminate;
    (destruct (prop _ "industry") eqn:E; try discriminate;
     intros [= <-]; eexists; split; reflexivity).
Qed.





Ltac run_cases resp :=
  unfold runAnalysis, makeAPICall, simulateAnalysisSteps;
  destruct resp as [| | |body]; cbv zeta; cbv iota beta;
  unfold displayWizardResults, showAnalysisError;
  repeat match goal with
         | |- context [pg_results ?p] => destruct (pg_results p) eqn:?; simpl negb; cbv iota
         end;
  try (destruct body; cbv iota beta);
  simpl.



(** *** When the auto-save is due *)

Lemma collect_due st : autoSaveDue (collectCurrentStepData st) = autoSaveDue st.
Proof. unfold collectCurrentStepData. split_cases; reflexivity. Qed.

Lemma autoFill_due st : autoSaveDue (autoFillDemoData st) = autoSaveDue st.
Proof. unfold autoFillDemoData. split_cases; reflexivity. Qed.

Lemma nextStep_due st : autoSaveDue (nextStep st) = autoSaveDue st.
Proof.
  unfold nextStep. destruct (validateCurrentStep st); simpl; [|reflexivity].
  rewrite collect_step. destruct (currentStep st <? totalSteps); simpl.
  - destruct (truthy _); rewrite ?autoFill_due; simpl; apply collect_due.
  - apply collect_due.
Qed.

Lemma loadDemoScenario_due n st :
  autoSaveDue (loadDemoScenario n st) = autoSaveDue st.
Proof.
  unfold loadDemoScenario.
  destruct (getItem _ _); [|reflexivity].
  destruct (parse _); [|reflexivity].
  destruct (prefillWizardFromScenario _ _) eqn:E; [|reflexivity].
  apply prefill_some in E as (industry & _ & ->). reflexivity.
Qed.

Lemma stages_due i n st : autoSaveDue (stages i n st) = autoSaveDue st.
Proof.
  revert i st. induction n as [|n IH]; intros i st; simpl; [reflexivity|].
  now rewrite IH.
Qed.

Lemma runAnalysis_due resp latency st :
  autoSaveDue (runAnalysis resp latency st) = autoSaveDue st.
Proof. run_cases resp; rewrite ?stages_due; simpl; apply collect_due. Qed.

Lemma restore_data_due st : autoSaveDue (restore_data st) = autoSaveDue st.
Proof.
  unfold restore_data.
  destruct (getItem _ _); [|reflexivity].
  destruct (truthy _); [reflexivity|].
  destruct (parse _) as [[]|]; try reflexivity.
  destruct (truthy _); reflexivity.
Qed.

Lemma restore_step_due st : autoSaveDue (restore_step st) = autoSaveDue st.
Proof. unfold restore_step. split_cases; reflexivity. Qed.

Lemma enter_due pg persona isDemo scenarioName ls ss :
  autoSaveDue (enter pg persona isDemo scenarioName ls ss) = autoSaveInterval.
Proof.
  unfold enter, loadSavedWizardData, loadURLParameters.
  destruct persona as [p|]; [destruct (String.eqb p "")|]; simpl;
    now rewrite restore_step_due, restore_data_due.
Qed.

Lemma run_task_due t st : autoSaveDue (run_task t st) = autoSaveDue st.
Proof.
  destruct t as [persona isDemo scenarioName| |step]; simpl.
  - destruct isDemo; [|reflexivity]. now rewrite loadDemoScenario_due.
  - destruct (currentStep st =? 1); [apply nextStep_due | reflexivity].
  - reflexivity.
Qed.

Lemma interval_due st :
  autoSaveDue (fire_interval st) = autoSaveDue st + autoSaveInterval.
Proof. reflexivity. Qed.

(** An action leaves the time at which the auto-save is due alone, unless
    it is the interval that fires, or the page is loaded again. *)
Lemma perform_due a st :
  autoSaveDue (perform a st) = autoSaveDue st
  \/ (a = ATimer /\ perform a st = fire_interval st)
  \/ ((exists pg persona isDemo scenarioName,
         a = ARestart pg persona isDemo scenarioName)
      /\ autoSaveDue (perform a st) = autoSaveInterval).
Proof.
  destruct a; simpl.
  - now left.
  - left. apply nextStep_due.
  - left. unfold previousStep. now destruct (1 <? currentStep st).
  - left. apply runAnalysis_due.
  - unfold fire_next.
    destruct (earliest (timers st)) as [[[due t] rest]|]; [|now right; left].
    destruct (autoSaveDue st <=? due); [now right; left|].
    left. now rewrite run_task_due.
  - left. unfold edit_field. destruct (pg_steps _ !! _) as [el|]; [|reflexivity].
    now destruct (se_form el).
  - right. right. split; [eauto | apply enter_due].
Qed.

Lemma reachable_due st :
  reachable st -> exists k, 0 < k /\ autoSaveDue st = k * autoSaveInterval.
Proof.
  induction 1 as [pg persona isDemo scenarioName ls ss | a st _ (k & Hk & IH)].
  - exists 1. rewrite enter_due. lia.
  - destruct (perform_due a st) as [E|[[_ E]|[_ E]]].
    + exists k. now rewrite E.
    + exists (k + 1). rewrite E, interval_due, IH. lia.
    + exists 1. rewrite E. lia.
Qed.

Lemma earliest_some l d t rest :
  earliest l = Some (d, t, rest) ->
  forall P : Z * Task -> Prop, Forall P l -> P (d, t) /\ Forall P rest.
Proof.
  revert d t rest. induction l as [|[d0 t0] l IH]; intros d t rest E P HF; [discriminate|].
  apply Forall_cons_iff in HF as [H0 HF]. simpl in E.
  destruct (earliest l) as [[[d' t'] r']|] eqn:El.
  - destruct (IH _ _ _ eq_refl P HF) as [H1 H2].
    destruct (d' <? d0); simplify_eq; split; auto.
  - simplify_eq. auto.
Qed.












End StepFacts.

(** ** Persistence *)

Module StorageFacts.
Import Js Json Dom Present Wizard JsFacts JsonFacts StepFacts.

#[local] Arguments ser : simpl never.
#[local] Arguments parse : simpl never.
#[local] Arguments Z_toString : simpl never.
#[local] Arguments parseInt : simpl never.
#[local] Arguments includes : simpl never.

(** [collectCurrentStepData] either finds no form and does nothing, or
    saves the session with the merged data. *)
Lemma collect_cases st :
  (collectCurrentStepData st = st /\
   forall el, pg_steps (page st) !! currentStep st = Some el -> se_form el = None)
  \/ exists el fields,
       pg_steps (page st) !! currentStep st = Some el /\
       se_form el = Some fields /\
       collectCurrentStepData st =
       saveWizardData
         (set_data (merge_checkbox_data (checkbox_data fields)
                      (merge_form_data (form_data fields) (wizardData st))) st).
Proof.
  unfold collectCurrentStepData.
  destruct (pg_steps (page st) !! currentStep st) as [el|] eqn:E.
  - destruct (se_form el) as [fields|] eqn:F.
    + right. exists el, fields. auto.
    + left. split; [reflexivity|]. now intros el' [= <-].
  - left. split; [reflexivity|]. discriminate.
Qed.

Lemma autoFill_local st : localStorage (autoFillDemoData st) = localStorage st.
Proof. unfold autoFillDemoData. split_cases; reflexivity. Qed.

Lemma autoFill_session st : sessionStorage (autoFillDemoData st) = sessionStorage st.
Proof. unfold autoFillDemoData. split_cases; reflexivity. Qed.

Lemma stages_local i n st : localStorage (stages i n st) = localStorage st.
Proof. revert i st. induction n as [|n IH]; intros i st; simpl; [reflexivity|]. now rewrite IH. Qed.





Lemma getItem_insert k v (m : gmap string string) :
  String.eqb v "" = false -> getItem k (<[k := v]> m) = Some v.
Proof. intros H. unfold getItem. now rewrite lookup_insert_eq, H. Qed.

Lemma getItem_insert_ne k k' v (m : gmap string string) :
  k' <> k -> getItem k (<[k' := v]> m) = getItem k m.
Proof. intros H. unfold getItem. now rewrite lookup_insert_ne. Qed.

Lemma Z_toString_nonempty n : String.eqb (Z_toString n) "" = false.
Proof. destruct (Z_toString_start n) as (c & tl & -> & _). reflexivity. Qed.

Lemma parseInt_step n :
  1 <= n <= totalSteps -> parseInt (Z_toString n) = Some n.
Proof.
  unfold totalSteps. intros H.
  assert (n = 1 \/ n = 2 \/ n = 3 \/ n = 4) as [->|[->|[->| ->]]] by lia;
    reflexivity.
Qed.

Lemma restore_data_frame st :
  localStorage (restore_data st) = localStorage st
  /\ sessionStorage (restore_data st) = sessionStorage st
  /\ page (restore_data st) = page st
  /\ timers (restore_data st) = timers st
  /\ currentStep (restore_data st) = currentStep st
  /\ clock (restore_data st) = clock st
  /\ log (restore_data st) = log st.
Proof.
  unfold restore_data.
  destruct (getItem _ _); [|tauto].
  destruct (truthy _); [tauto|].
  destruct (parse _) as [[]|]; try tauto.
  destruct (truthy _); simpl; tauto.
Qed.

Lemma interval_frame st :
  wizardData (fire_interval st) = wizardData st
  /\ currentStep (fire_interval st) = currentStep st
  /\ timers (fire_interval st) = timers st
  /\ selectedPersona (fire_interval st) = selectedPersona st
  /\ sessionStorage (fire_interval st) = sessionStorage st
  /\ page (fire_interval st) = page st
  /\ log (fire_interval st) = log st.
Proof.
  unfold fire_interval, autoSave. destruct (obj_nonempty _); simpl; tauto.
Qed.

Lemma restore_data_saved st d :
  getItem "nexusai_wizard_data" (localStorage st) = Some (ser (JObj d)) ->
  truthy (prop (JObj (wizardData st)) "demo_scenario") = false ->
  representable (JObj d) = true ->
  wizardData (restore_data st) = d.
Proof.
  intros Hget Hdemo Hrep. unfold restore_data.
  rewrite Hget, Hdemo, (parse_ser _ Hrep).
  destruct (truthy (prop (JObj d) "persona")); reflexivity.
Qed.

Lemma saved_data_item st :
  getItem "nexusai_wizard_data" (localStorage (saveWizardData st))
  = Some (ser (JObj (wizardData st))).
Proof.
  simpl. rewrite getItem_insert_ne by discriminate.
  apply getItem_insert, ser_nonempty.
Qed.

Lemma saved_step_item st :
  getItem "nexusai_wizard_step" (localStorage (saveWizardData st))
  = Some (Z_toString (currentStep st)).
Proof. simpl. apply getItem_insert, Z_toString_nonempty. Qed.

Lemma restore_step_saved st n :
  getItem "nexusai_wizard_step" (localStorage st) = Some (Z_toString n) ->
  1 <= n <= totalSteps ->
  restore_step st =
  if includes "demo" (pg_search (page st)) then st
  else if 1 <? n
       then setTimeout (TRestoreStep n) 1000
              (showNotification "Continuing from where you left off..." "info" st)
       else st.
Proof.
  intros Hget Hn. unfold restore_step. rewrite Hget, (parseInt_step _ Hn).
  destruct (includes _ _); [reflexivity|].
  destruct (1 <? n); simpl; [|reflexivity].
  destruct (n <=? totalSteps) eqn:E; [reflexivity | lia].
Qed.

(** C7 (amended): a session with [1 <= currentStep <= totalSteps] is saved
    and the page is loaded again.  Once the pending resume has run, the
    data is the saved data provided it holds no [undefined] (which
    [JSON.stringify] drops), and the step is the saved step provided the
    query string of the page does not contain [demo]; no callback is left
    pending. *)
Theorem save_then_load (st : Wizard) (pg : Page) (ss : gmap string string) :
  1 <= currentStep st <= totalSteps ->
  let st' :=
    fire_next
      (loadSavedWizardData (fresh pg (localStorage (saveWizardData st)) ss)) in
  (representable (JObj (wizardData st)) = true -> wizardData st' = wizardData st)
  /\ (includes "demo" (pg_search pg) = false -> currentStep st' = currentStep st)
  /\ timers st' = [].
Proof.
  intros Hstep. cbv zeta.
  remember (fresh pg (localStorage (saveWizardData st)) ss) as f eqn:Ef.
  destruct (restore_data_frame f) as (Hls & _ & Hpg & Htm & Hcs & Hck & _).
  assert (Hdata : representable (JObj (wizardData st)) = true ->
                  wizardData (restore_data f) = wizardData st).
  { subst f. apply restore_data_saved; [apply saved_data_item | reflexivity]. }
  assert (Hck' : clock (restore_data f) = 0).
  { rewrite Hck. now subst f. }
  assert (Hdue : autoSaveDue (restore_data f) = autoSaveInterval).
  { rewrite restore_data_due. now subst f. }
  assert (Hget : getItem "nexusai_wizard_step" (localStorage (restore_data f))
                 = Some (Z_toString (currentStep st))).
  { rewrite Hls. subst f. apply saved_step_item. }
  assert (Hpg' : pg_search (page (restore_data f)) = pg_search pg).
  { rewrite Hpg. now subst f. }
  assert (Htm' : timers (restore_data f) = []).
  { rewrite Htm. now subst f. }
  assert (Hcs' : currentStep (restore_data f) = 1).
  { rewrite Hcs. now subst f. }
  unfold loadSavedWizardData.
  rewrite (restore_step_saved _ _ Hget Hstep), Hpg'.
  remember (restore_data f) as base eqn:Eb.
  clear Eb Ef Hls Hpg Htm Hcs Hck Hget Hpg'.
  destruct (interval_frame base) as (Hd & Hc & Ht & _).
  destruct (includes "demo" (pg_search pg)).
  - unfold fire_next. rewrite Htm'. cbn [earliest]. rewrite Hd, Hc, Ht.
    split; [exact Hdata|]. split; [discriminate | exact Htm'].
  - destruct (1 <? currentStep st) eqn:E.
    + unfold fire_next. cbn. rewrite Htm', Hdue, Hck'. cbn.
      split; [exact Hdata|]. split; reflexivity.
    + unfold fire_next. rewrite Htm'. cbn [earliest]. rewrite Hd, Hc, Ht.
      split; [exact Hdata|]. split; [|exact Htm'].
      intros _. rewrite Hcs'. lia.
Qed.

Lemma loadURLParameters_frame persona isDemo scenarioName st :
  currentStep (loadURLParameters persona isDemo scenarioName st) = currentStep st
  /\ forall due step,
       In (due, TRestoreStep step)
          (timers (loadURLParameters persona isDemo scenarioName st)) ->
       In (due, TRestoreStep step) (timers st).
Proof.
  unfold loadURLParameters. destruct persona as [p|]; [|now split].
  destruct (String.eqb p ""); [now split|]. split; [reflexivity|].
  simpl. intros due step Hin. apply in_app_or in Hin as [Hin|Hin]; [exact Hin|].
  destruct Hin as [Hin|[]]. discriminate.
Qed.

(** C10: [loadSavedWizardData] leaves the data (and the persona) alone when
    the live session already holds a demo scenario, and leaves the step
    alone, scheduling no resume, when the query string contains [demo]; so
    a page entered with [demo] in its query string is at step 1 with no
    resume pending, whatever is stored. *)
Theorem demo_suppresses_resume (st : Wizard) :
  (truthy (prop (JObj (wizardData st)) "demo_scenario") = true ->
   wizardData (loadSavedWizardData st) = wizardData st
   /\ selectedPersona (loadSavedWizardData st) = selectedPersona st)
  /\ (includes "demo" (pg_search (page st)) = true ->
      currentStep (loadSavedWizardData st) = currentStep st
      /\ timers (loadSavedWizardData st) = timers st)
  /\ (forall pg persona isDemo scenarioName ls ss,
        includes "demo" (pg_search pg) = true ->
        currentStep (enter pg persona isDemo scenarioName ls ss) = 1
        /\ forall due step,
             ~ In (due, TRestoreStep step)
                 (timers (enter pg persona isDemo scenarioName ls ss))).
Proof.
  assert (Hstep : forall s, includes "demo" (pg_search (page s)) = true ->
                            restore_step s = s).
  { intros s H. unfold restore_step. rewrite H. now destruct (getItem _ _). }
  split; [|split].
  - intros Hdemo.
    assert (Hd : restore_data st = st).
    { unfold restore_data. rewrite Hdemo. now destruct (getItem _ _). }
    unfold loadSavedWizardData. rewrite Hd. unfold restore_step.
    destruct (getItem _ _); [|now split].
    destruct (includes _ _); [now split|].
    destruct (parseInt _); [|now split].
    destruct (_ && _); now split.
  - intros Hdemo. unfold loadSavedWizardData.
    destruct (restore_data_frame st) as (_ & _ & Hpg & Htm & Hcs & _ & _).
    rewrite Hstep by now rewrite Hpg. now split.
  - intros pg persona isDemo scenarioName ls ss Hdemo. unfold enter.
    destruct (loadURLParameters_frame persona isDemo scenarioName
                (loadSavedWizardData (fresh pg ls ss))) as [Hc Ht].
    unfold loadSavedWizardData in *.
    destruct (restore_data_frame (fresh pg ls ss)) as (_ & _ & Hpg & Htm & Hcs & _ & _).
    rewrite Hstep in * by now rewrite Hpg.
    split; [now rewrite Hc, Hcs|].
    intros due step Hin. apply Ht in Hin. now rewrite Htm in Hin.
Qed.

Lemma load_nothing_stored pg (ls ss : gmap string string) :
  ls !! "nexusai_wizard_data" = None ->
  ls !! "nexusai_wizard_step" = None ->
  loadSavedWizardData (fresh pg ls ss) = fresh pg ls ss.
Proof.
  intros Hd Hs. unfold loadSavedWizardData, restore_data, restore_step, getItem.
  simpl. rewrite Hd. simpl. now rewrite Hs.
Qed.






(** What the interval callback stores when there is data. *)
Lemma interval_saves st :
  obj_nonempty (wizardData st) = true ->
  localStorage (fire_interval st)
  = <["nexusai_wizard_step" := Z_toString (currentStep st)]>
      (<["nexusai_wizard_data" := ser (JObj (wizardData st))]>
         (localStorage st)).
Proof. intros H. unfold fire_interval, autoSave. simpl. now rewrite H. Qed.


Lemma fire_next_interval st :
  Forall (fun dt => autoSaveDue st <= fst dt) (timers st) ->
  fire_next st = fire_interval st.
Proof.
  intros H. unfold fire_next.
  destruct (earliest (timers st)) as [[[due t] rest]|] eqn:E; [|reflexivity].
  destruct (earliest_some _ _ _ _ E _ H) as [H1 _]. simpl in H1.
  destruct (autoSaveDue st <=? due) eqn:El; [reflexivity | lia].
Qed.

(** C5 (amended): a save is made inside a successful [nextStep], by the
    collecting step and so before the step advances, when the step has a
    form: what is stored is the data as collected and the step that was
    left; [previousStep] makes no save; the interval callback saves exactly
    when the data is not empty.  The period of the interval is 30000 ms: in
    every state the wizard can reach, the time at which the callback is due
    is one of 30000, 60000, ... since the page was loaded.  No action moves
    that time except a reload of the page, which starts the interval again,
    and the callback itself: it runs when no [setTimeout] is due before it
    (one that is due earlier runs first), not before its own time, and is
    then due 30000 ms later. *)
Theorem save_points (st : Wizard) :
  (forall el fields,
     validateCurrentStep st = true ->
     pg_steps (page st) !! currentStep st = Some el ->
     se_form el = Some fields ->
     localStorage (nextStep st)
     = <["nexusai_wizard_step" := Z_toString (currentStep st)]>
         (<["nexusai_wizard_data" := ser (JObj (wizardData (nextStep st)))]>
            (localStorage st)))
  /\ localStorage (previousStep st) = localStorage st
  /\ (obj_nonempty (wizardData st) = true -> autoSave st = saveWizardData st)
  /\ (obj_nonempty (wizardData st) = false -> autoSave st = st)
  /\ autoSaveInterval = 30000
  /\ (reachable st ->
      exists k, 0 < k /\ autoSaveDue st = k * autoSaveInterval)
  /\ (forall a,
        autoSaveDue (perform a st) = autoSaveDue st
        \/ (a = ATimer /\ perform a st = fire_interval st)
        \/ ((exists pg persona isDemo scenarioName,
               a = ARestart pg persona isDemo scenarioName)
            /\ autoSaveDue (perform a st) = autoSaveInterval))
  /\ (Forall (fun dt => autoSaveDue st <= fst dt) (timers st) ->
      perform ATimer st = fire_interval st)
  /\ (forall due t rest,
        earliest (timers st) = Some (due, t, rest) ->
        due < autoSaveDue st ->
        perform ATimer st
        = run_task t (set_clock (Z.max (clock st) due) (set_timers rest st)))
  /\ autoSaveDue (fire_interval st) = autoSaveDue st + autoSaveInterval
  /\ clock (fire_interval st) = Z.max (clock st) (autoSaveDue st)
  /\ localStorage (fire_interval st) = localStorage (autoSave st).
Proof.
  split; [|split; [|split; [|split; [|split; [|split; [|split; [|split;
    [|split; [|split; [|split]]]]]]]]]];
    [| | | |reflexivity|apply reachable_due|intros a; apply perform_due
     |apply fire_next_interval| |reflexivity| |].
  5:{ intros due t rest E Hlt. cbn [perform]. unfold fire_next. rewrite E.
      destruct (autoSaveDue st <=? due) eqn:El; [lia | reflexivity]. }
  5:{ unfold fire_interval, autoSave. simpl. now destruct (obj_nonempty _). }
  5:{ unfold fire_interval, autoSave. simpl. now destruct (obj_nonempty _). }
  - intros el fields Hv Hel Hform.
    assert (Hn : localStorage (nextStep st) = localStorage (collectCurrentStepData st)
                 /\ wizardData (nextStep st) = wizardData (collectCurrentStepData st)).
    { unfold nextStep. rewrite Hv. cbn [negb].
      destruct (_ <? _); [|now split].
      destruct (truthy _); [|now split].
      now rewrite autoFill_local, autoFill_data. }
    destruct Hn as [-> ->].
    destruct (collect_cases st) as [[_ Hno]|(el' & fields' & Hel' & Hform' & ->)].
    + rewrite (Hno _ Hel) in Hform. discriminate.
    + reflexivity.
  - unfold previousStep. now destruct (1 <? currentStep st).
  - intros H. unfold autoSave. now rewrite H.
  - intros H. unfold autoSave. now rewrite H.
Qed.

End StorageFacts.

(** ** Validation *)

Module GateFacts.
Import Js Json Dom Present Wizard JsFacts StepFacts StorageFacts.

(** C6 (amended): on a page that has the element of the current step,
    validation at step 1 passes exactly when a persona is selected; at any
    other step it passes exactly when the [value] of every control marked
    required is not blank after trimming (whether a check box is ticked is
    not looked at); and when validation fails [nextStep] only shows a
    notification: step, data and stored state stay as they are. *)
Theorem validation_gate (st : Wizard) (el : StepElement) :
  pg_steps (page st) !! currentStep st = Some el ->
  (currentStep st = 1 ->
   validateCurrentStep st = not_nullish (selectedPersona st))
  /\ (currentStep st <> 1 ->
      (validateCurrentStep st = true <->
       forall f, In f (required_fields el) -> trim (f_value f) <> ""))
  /\ (validateCurrentStep st = false ->
      nextStep st
      = showNotification "Please complete all required fields" "warning" st
      /\ currentStep (nextStep st) = currentStep st
      /\ wizardData (nextStep st) = wizardData st
      /\ localStorage (nextStep st) = localStorage st).
Proof.
  intros Hel. split; [|split].
  - intros H1. unfold validateCurrentStep. rewrite Hel, H1. reflexivity.
  - intros Hne. unfold validateCurrentStep. rewrite Hel.
    destruct (currentStep st =? 1) eqn:E; [lia|].
    rewrite forallb_forall. unfold blank. split.
    + intros H f Hf Hblank. specialize (H f Hf).
      rewrite Hblank in H. discriminate.
    + intros H f Hf. specialize (H f Hf).
      apply negb_true_iff, String.eqb_neq, H.
  - intros Hv. unfold nextStep. rewrite Hv. cbn. auto.
Qed.

End GateFacts.

(** ** Demo prefill *)

Module DemoFacts.
Import Js Json Dom Present Wizard JsFacts StepFacts StorageFacts.

Lemma obj_get_set_eq k v o : obj_get k (obj_set k v o) = Some v.
Proof.
  induction o as [|[k' v'] o IH]; simpl.
  - now rewrite String.eqb_refl.
  - destruct (String.eqb k k') eqn:E; simpl; rewrite E; [reflexivity | exact IH].
Qed.

Lemma obj_get_set_ne k k' v o :
  k <> k' -> obj_get k' (obj_set k v o) = obj_get k' o.
Proof.
  intros Hne. induction o as [|[k0 v0] o IH]; simpl.
  - apply String.eqb_neq in Hne. rewrite String.eqb_sym in Hne. now rewrite Hne.
  - destruct (String.eqb k k0) eqn:E; simpl.
    + apply String.eqb_eq in E. subst k0.
      apply String.eqb_neq in Hne. rewrite String.eqb_sym in Hne. now rewrite Hne.
    + destruct (String.eqb k' k0); [reflexivity | exact IH].
Qed.

Lemma obj_set_same k v o : obj_get k o = Some v -> obj_set k v o = o.
Proof.
  induction o as [|[k' v'] o IH]; simpl; [discriminate|].
  destruct (String.eqb k k') eqn:E.
  - now intros [= ->].
  - intros H. now rewrite (IH H).
Qed.

Lemma prefilled_idem scenario industry d :
  prefilled scenario industry (prefilled scenario industry d)
  = prefilled scenario industry d.
Proof.
  unfold prefilled at 1.
  set (D := prefilled scenario industry d).
  assert (H1 : obj_get "company_name" D = Some (prop scenario "name")).
  { unfold D, prefilled. rewrite !obj_get_set_ne by discriminate. apply obj_get_set_eq. }
  assert (H2 : obj_get "industry" D = Some (JStr (toLowerCase industry))).
  { unfold D, prefilled. rewrite !obj_get_set_ne by discriminate. apply obj_get_set_eq. }
  assert (H3 : obj_get "ai_description" D = Some (prop scenario "ai_system")).
  { unfold D, prefilled. rewrite !obj_get_set_ne by discriminate. apply obj_get_set_eq. }
  assert (H4 : obj_get "demo_scenario" D = Some scenario).
  { unfold D, prefilled. apply obj_get_set_eq. }
  now rewrite (obj_set_same _ _ _ H1), (obj_set_same _ _ _ H2),
    (obj_set_same _ _ _ H3), (obj_set_same _ _ _ H4).
Qed.

Lemma update_named_keep n g (fields : list Field) f0 i f :
  find_named n fields = Some f0 -> f_value f0 = "" ->
  fields !! i = Some f -> f_value f <> "" ->
  update_named n g fields !! i = Some f.
Proof.
  revert i. induction fields as [|h r IH]; intros i Hfind Hempty Hi Hval; [discriminate|].
  unfold find_named in Hfind. simpl in Hfind. simpl.
  destruct (String.eqb (f_name h) n) eqn:E.
  - simplify_eq. destruct i as [|i]; simpl in *; [|exact Hi].
    simplify_eq; congruence.
  - destruct i as [|i]; simpl in *; [exact Hi|].
    now apply IH.
Qed.

Lemma fill_if_empty_keep n v (fields : list Field) i f :
  fields !! i = Some f -> f_value f <> "" ->
  fill_if_empty n v fields !! i = Some f.
Proof.
  intros Hi Hval. unfold fill_if_empty.
  destruct (find_named n fields) as [f0|] eqn:Hfind; [|exact Hi].
  destruct (String.eqb (f_value f0) "") eqn:E; [|exact Hi].
  apply String.eqb_eq in E. eapply update_named_keep; eauto.
Qed.

Lemma industry_fill scenario (fields : list Field) i f :
  fields !! i = Some f -> f_value f <> "" ->
  match find_named "industry" fields with
  | Some f0 =>
      if String.eqb (f_value f0) "" then
        match prop scenario "industry" with
        | JStr industry =>
            update_named "industry" (set_value (toLowerCase industry)) fields
        | _ => fields
        end
      else fields
  | None => fields
  end !! i = Some f.
Proof.
  intros Hi Hval.
  destruct (find_named "industry" fields) as [f0|] eqn:Hfind; [|exact Hi].
  destruct (String.eqb (f_value f0) "") eqn:E; [|exact Hi].
  apply String.eqb_eq in E.
  destruct (prop scenario "industry"); try exact Hi.
  eapply update_named_keep; eauto.
Qed.

Lemma set_form_lookup n el fields st m :
  pg_steps (page (set_form n el fields st)) !! m =
  if decide (n = m) then Some (mkStep (Some fields) (se_outside el))
  else pg_steps (page st) !! m.
Proof. simpl. apply lookup_insert. Qed.

(** [autoFillDemoData] never changes a control that already has a value. *)
Lemma autoFill_keeps_values st n el fields i f :
  pg_steps (page st) !! n = Some el -> se_form el = Some fields ->
  fields !! i = Some f -> f_value f <> "" ->
  exists el' fields',
    pg_steps (page (autoFillDemoData st)) !! n = Some el'
    /\ se_form el' = Some fields' /\ fields' !! i = Some f.
Proof.
  intros Hel Hform Hi Hval. unfold autoFillDemoData.
  destruct (negb (truthy _)); [eauto|].
  destruct (currentStep st =? 2).
  - destruct (pg_steps (page st) !! 2) as [el2|] eqn:E2; [|eauto].
    destruct (se_form el2) as [fields2|] eqn:F2; [|eauto].
    rewrite set_form_lookup. destruct (decide (2 = n)) as [<-|Hne]; [|eauto].
    simplify_eq. eexists _, _. split; [reflexivity|]. split; [reflexivity|].
    apply industry_fill; [|exact Hval]. now apply fill_if_empty_keep.
  - destruct (currentStep st =? 3); [|eauto].
    destruct (pg_steps (page st) !! 3) as [el3|] eqn:E3; [|eauto].
    destruct (se_form el3) as [fields3|] eqn:F3; [|eauto].
    rewrite set_form_lookup. destruct (decide (3 = n)) as [<-|Hne]; [|eauto].
    simplify_eq. eexists _, _. split; [reflexivity|]. split; [reflexivity|].
    now apply fill_if_empty_keep.
Qed.

(** C2 (amended): the prefill is additive on the form: [autoFillDemoData]
    leaves every control that already has a value as it is, and does not
    touch the data; in the data, [prefillWizardFromScenario] sets
    [company_name], [industry] (lower-cased), [ai_description] and
    [demo_scenario] from the scenario whatever they held, and leaves every
    other key as it is. *)
Theorem prefill_additive_on_form (st : Wizard) :
  (forall n el fields i f,
     pg_steps (page st) !! n = Some el -> se_form el = Some fields ->
     fields !! i = Some f -> f_value f <> "" ->
     exists el' fields',
       pg_steps (page (autoFillDemoData st)) !! n = Some el'
       /\ se_form el' = Some fields' /\ fields' !! i = Some f)
  /\ wizardData (autoFillDemoData st) = wizardData st
  /\ (forall scenario st',
        prefillWizardFromScenario scenario st = Some st' ->
        exists industry,
          prop scenario "industry" = JStr industry
          /\ obj_get "company_name" (wizardData st') = Some (prop scenario "name")
          /\ obj_get "industry" (wizardData st') = Some (JStr (toLowerCase industry))
          /\ obj_get "ai_description" (wizardData st') = Some (prop scenario "ai_system")
          /\ obj_get "demo_scenario" (wizardData st') = Some scenario
          /\ forall k, k <> "company_name" -> k <> "industry" ->
                       k <> "ai_description" -> k <> "demo_scenario" ->
                       obj_get k (wizardData st') = obj_get k (wizardData st)).
Proof.
  split; [|split].
  - intros n el fields i f. apply autoFill_keeps_values.
  - apply autoFill_data.
  - intros scenario st' H. apply prefill_some in H as (industry & Hind & ->).
    exists industry. split; [exact Hind|].
    cbn [wizardData setTimeout set_timers set_data]. unfold prefilled.
    split; [rewrite !obj_get_set_ne by discriminate; apply obj_get_set_eq|].
    split; [rewrite !obj_get_set_ne by discriminate; apply obj_get_set_eq|].
    split; [rewrite !obj_get_set_ne by discriminate; apply obj_get_set_eq|].
    split; [apply obj_get_set_eq|].
    intros k H1 H2 H3 H4. now rewrite !obj_get_set_ne by congruence.
Qed.

(** C3 (amended): reading the handoff record does not delete it:
    [loadDemoScenario] leaves session storage as it is, so a second call
    reads the same record again; it applies the same prefill, and the data
    after two calls is the data after one.  The record is deleted by
    [clearSavedWizardData], after which [loadDemoScenario] does nothing. *)
Theorem handoff_read_not_consumed (st : Wizard) (n m : option string) :
  sessionStorage (loadDemoScenario n st) = sessionStorage st
  /\ wizardData (loadDemoScenario m (loadDemoScenario n st))
     = wizardData (loadDemoScenario n st)
  /\ sessionStorage (clearSavedWizardData st) !! "selectedScenario" = None
  /\ loadDemoScenario n (clearSavedWizardData st) = clearSavedWizardData st.
Proof.
  assert (Hs : forall k s, sessionStorage (loadDemoScenario k s) = sessionStorage s).
  { intros k s. unfold loadDemoScenario.
    destruct (getItem _ _); [|reflexivity].
    destruct (parse _); [|reflexivity].
    destruct (prefillWizardFromScenario _ _) eqn:E; [|reflexivity].
    apply prefill_some in E as (industry & _ & ->). reflexivity. }
  split; [apply Hs|]. split; [|split].
  - unfold loadDemoScenario at 1. rewrite Hs.
    unfold loadDemoScenario.
    destruct (getItem _ _) as [saved|]; [|reflexivity].
    destruct (parse saved) as [scenario|]; [|reflexivity].
    destruct (prefillWizardFromScenario scenario st) as [w|] eqn:E.
    + apply prefill_some in E as (industry & Hind & ->).
      unfold prefillWizardFromScenario.
      destruct scenario; try discriminate Hind; rewrite Hind;
        cbn [wizardData setTimeout set_timers set_data];
        apply (prefilled_idem _ industry).
    + unfold prefillWizardFromScenario in *. cbn [wizardData emit].
      destruct scenario; try reflexivity;
        (destruct (prop _ "industry"); try discriminate E; reflexivity).
  - cbn. rewrite lookup_delete_ne by discriminate. apply lookup_delete_eq.
  - unfold loadDemoScenario, getItem. cbn.
    rewrite lookup_delete_ne by discriminate. now rewrite lookup_delete_eq.
Qed.

End DemoFacts.

(** ** Submission *)

Module SubmitFacts.
Import Js Json Dom Present Wizard JsFacts StepFacts StorageFacts.

Lemma stages_clock i n st :
  clock (stages i n st) = clock st + 1200 * Z.of_nat n.
Proof.
  revert i st. induction n as [|n IH]; intros i st.
  - simpl. lia.
  - cbn [stages]. rewrite IH. cbn. lia.
Qed.

Lemma stages_log i n st :
  log (stages i n st) =
  (log st ++ map (fun j => (clock st + 1200 * Z.of_nat j, StageActive (i + j)))
               (seq 0 n))%list.
Proof.
  revert i st. induction n as [|n IH]; intros i st.
  - simpl. now rewrite app_nil_r.
  - cbn [stages]. rewrite IH. cbn [log clock sleep emit set_clock].
    rewrite <- app_assoc. f_equal. cbn [seq map app].
    rewrite Z.mul_0_r, Z.add_0_r, Nat.add_0_r. f_equal.
    rewrite <- seq_shift, map_map. apply map_ext. intros j.
    f_equal; [lia | f_equal; lia].
Qed.

Lemma collect_clock_log st :
  clock (collectCurrentStepData st) = clock st
  /\ log (collectCurrentStepData st) = log st
  /\ page (collectCurrentStepData st) = page st.
Proof.
  destruct (collect_cases st) as [[-> _]|(el & fields & _ & _ & ->)]; auto.
Qed.

(** C1 (amended): [runAnalysis] runs the staged progress sequence to its
    end before it sends the request: with [n] stages and the submission at
    time [t0], stage [j] is shown at [t0 + 1200 * j], the one request goes
    out at [t0 + 1200 * n], and whatever is shown afterwards, the results
    among it, is shown when the answer is there, at
    [t0 + 1200 * n + latency]; results are only shown for an answer that
    carries a value. *)
Theorem analysis_runs_in_sequence (st : Wizard) (resp : Response) (latency : Z) :
  exists tail,
    log (runAnalysis resp latency st) =
    (log st
     ++ (clock st, Loading)
     :: map (fun j => (clock st + 1200 * Z.of_nat j, StageActive j))
          (seq 0 (pg_analysis_steps (page st)))
     ++ (clock st + 1200 * Z.of_nat (pg_analysis_steps (page st)),
         Request "/api/analyze" (analysisData (collectCurrentStepData st)))
     :: tail)%list
    /\ Forall (fun e => fst e
                        = clock st + 1200 * Z.of_nat (pg_analysis_steps (page st))
                          + latency) tail
    /\ (forall message summary,
          In (Results message summary) (map snd tail) ->
          exists body, resp = Ok body).
Proof.
  destruct (collect_clock_log st) as (Hc & Hl & Hp).
  set (st1 := emit Loading (set_step 4 (collectCurrentStepData st))).
  set (t1 := clock st + 1200 * Z.of_nat (pg_analysis_steps (page st))).
  set (req := (t1, Request "/api/analyze" (analysisData (collectCurrentStepData st)))).
  set (sent := sleep latency
                 (emit (Request "/api/analyze"
                          (analysisData (collectCurrentStepData st)))
                    (simulateAnalysisSteps st1))).
  assert (Hsent :
    log sent
    = ((log st ++ (clock st, Loading)
        :: map (fun j => (clock st + 1200 * Z.of_nat j, StageActive j))
             (seq 0 (pg_analysis_steps (page st)))) ++ [req])%list
    /\ clock sent = t1 + latency).
  { unfold sent, simulateAnalysisSteps, st1.
    cbn [log clock emit sleep set_clock page set_step].
    rewrite stages_clock, stages_log. cbn [log clock page emit set_step].
    rewrite Hc, Hl, Hp. split; [|reflexivity].
    now rewrite <- !app_assoc. }
  destruct Hsent as [Hlog Hclock].
  assert (Hrun :
    runAnalysis resp latency st =
    match resp with
    | Ok body =>
        match displayWizardResults body sent with
        | Some st4 => emit (Completed (selectedPersona st4)) st4
        | None => showAnalysisError (emit (ConsoleError "Analysis failed:") sent)
        end
    | _ =>
        showAnalysisError
          (emit (ConsoleError "Analysis failed:")
             (emit (ConsoleError "API call failed:") sent))
    end) by (destruct resp; reflexivity).
  rewrite Hrun. clear Hrun. clearbody sent.
  assert (Hshape : forall tail,
    (((log st ++ (clock st, Loading)
       :: map (fun j => (clock st + 1200 * Z.of_nat j, StageActive j))
            (seq 0 (pg_analysis_steps (page st)))) ++ [req]) ++ tail
    = log st ++ (clock st, Loading)
       :: map (fun j => (clock st + 1200 * Z.of_nat j, StageActive j))
            (seq 0 (pg_analysis_steps (page st))) ++ req :: tail)%list).
  { intros tail. rewrite <- !app_assoc. reflexivity. }
  destruct resp as [| | |body];
    unfold displayWizardResults, showAnalysisError;
    cbn [page emit];
    destruct (negb (pg_results (page sent)));
    try (destruct body);
    cbn [log emit clock clearSavedWizardData set_session set_local selectedPersona];
    rewrite Hlog, ?Hclock;
    repeat rewrite <- (app_assoc (_ ++ [req]));
    rewrite Hshape;
    (eexists; split; [reflexivity|]);
    (split; [repeat constructor|]);
    cbn; intros message summary H; solve [eauto | intuition discriminate].
Qed.

End SubmitFacts.

(** ** Presentation of the results *)

Module PresentFacts.
Import Js Json Dom Present Wizard DemoFacts.

Lemma prop_set_eq k v o : prop (JObj (obj_set k v o)) k = v.
Proof. simpl. now rewrite obj_get_set_eq. Qed.

Lemma prop_set_ne k k' v o :
  k <> k' -> prop (JObj (obj_set k v o)) k' = prop (JObj o) k'.
Proof. intros H. simpl. now rewrite obj_get_set_ne. Qed.

Lemma prop_absent k o : obj_get k o = None -> prop (JObj o) k = JUndef.
Proof. intros H. simpl. now rewrite H. Qed.

(** C9: in the results summary a [risk_score] or [compliance_score] of 0
    is shown as the placeholder [--], and the whole summary (and the
    persona message, whose placeholder is [N/A]) is the one shown when the
    field is missing. *)
Theorem zero_score_shown_as_missing (analysis risk : Obj) (persona : JValue) :
  let with_risk r := JObj (obj_set "risk_assessment" (JObj r) analysis) in
  (obj_get "risk_score" risk = None ->
   sm_risk_score
     (createResultsSummary (with_risk (obj_set "risk_score" (JNum 0) risk)) persona)
   = "--"
   /\ createResultsSummary (with_risk (obj_set "risk_score" (JNum 0) risk)) persona
      = createResultsSummary (with_risk risk) persona)
  /\ (obj_get "compliance_score" risk = None ->
      sm_compliance_score
        (createResultsSummary
           (with_risk (obj_set "compliance_score" (JNum 0) risk)) persona)
      = "--"
      /\ createResultsSummary
           (with_risk (obj_set "compliance_score" (JNum 0) risk)) persona
         = createResultsSummary (with_risk risk) persona
      /\ getPersonaSpecificMessage persona
           (JObj (obj_set "compliance_score" (JNum 0) risk))
         = getPersonaSpecificMessage persona (JObj risk)).
Proof.
  cbv zeta. split.
  - intros Habs. unfold createResultsSummary.
    rewrite !prop_set_eq. cbn [or_else truthy].
    rewrite prop_set_eq, !prop_set_ne by discriminate.
    rewrite (prop_absent _ _ Habs). split; reflexivity.
  - intros Habs. unfold createResultsSummary.
    rewrite !prop_set_eq. cbn [or_else truthy].
    rewrite prop_set_eq, !prop_set_ne by discriminate.
    rewrite (prop_absent _ _ Habs). split; [reflexivity|]. split; [reflexivity|].
    unfold getPersonaSpecificMessage.
    rewrite !prop_set_eq, !prop_set_ne by discriminate.
    rewrite (prop_absent _ _ Habs). reflexivity.
Qed.

End PresentFacts.

(** ** The properties on the sample sessions *)

Module Cases.
Import Js Json Dom Present Wizard Sample.
Import StepFacts StorageFacts GateFacts DemoFacts SubmitFacts PresentFacts.

Ltac compute_both := vm_compute; intuition congruence.

(** C1: with three progress stages the request does not go out when the
    submission starts but 3600 ms later, and the results are shown 300 ms
    after that, not when the later of the two would be over. *)
Lemma request_waits_for_stages_counterexample :
  ~ In (Spec.request_time demo_step3)
       (request_times (log (runAnalysis (Ok answer) 300 demo_step3)))
  /\ request_times (log (runAnalysis (Ok answer) 300 demo_step3))
     = [Spec.request_time demo_step3 + 3600]
  /\ result_times (log (runAnalysis (Ok answer) 300 demo_step3))
     = [Spec.display_time 300 demo_step3 + 300].
Proof. compute_both. Qed.

(** C2: a company name that the user entered earlier and that was restored
    into the data is replaced by the name of the scenario, where an
    additive-only prefill would have kept it. *)
Lemma prefill_overwrites_data_counterexample :
  obj_get "company_name" (wizardData returning) = Some (JStr "Acme Robotics")
  /\ obj_get "company_name" (wizardData (perform ATimer returning))
     = Some (JStr "TechStart Pro")
  /\ obj_get "company_name"
       (Spec.apply_scenario scenario "B2B SaaS" (wizardData returning))
     = Some (JStr "Acme Robotics").
Proof. compute_both. Qed.

(** C3: after the wizard has read the handoff record it is still in
    session storage, and a second read is not a no-op: it schedules another
    automatic advance. *)
Lemma handoff_survives_read_counterexample :
  sessionStorage demo_loaded !! "selectedScenario" = Some (ser scenario)
  /\ Spec.session_after_read (sessionStorage (demo_entry scenario ∅))
     !! "selectedScenario" = None
  /\ timers demo_loaded = [(1500, TAutoAdvance)]
  /\ timers (loadDemoScenario None demo_loaded)
     = [(1500, TAutoAdvance); (1500, TAutoAdvance)].
Proof. compute_both. Qed.

(** C5: going back from step 2 of the demo stores nothing, where a save
    after [previous()] would have stored step 1; and after going back twice
    from step 3 the stored step is still the 2 that [nextStep] saved. *)
Lemma previous_does_not_save_counterexample :
  (currentStep (previousStep demo_step2) = 1
   /\ localStorage (previousStep demo_step2) !! "nexusai_wizard_step" = None
   /\ localStorage (Spec.previous demo_step2) !! "nexusai_wizard_step"
      = Some "1")
  /\ (currentStep (previousStep (previousStep plain_step3)) = 1
      /\ localStorage (previousStep (previousStep plain_step3))
         !! "nexusai_wizard_step" = Some "2"
      /\ localStorage (Spec.previous (Spec.previous plain_step3))
         !! "nexusai_wizard_step" = Some "1").
Proof. compute_both. Qed.

(** C6: at step 2 with no box of the required group [frameworks] ticked,
    the check of the specification fails but validation passes and
    [nextStep] moves to step 3. *)
Lemma unticked_required_box_counterexample :
  currentStep demo_step2 = 2
  /\ Spec.check demo_step2 = false
  /\ validateCurrentStep demo_step2 = true
  /\ currentStep (nextStep demo_step2) = 3.
Proof. compute_both. Qed.

(** C7: a session at step 3 saved and loaded again on the demo page is at
    step 1; a session whose data holds an [undefined] company name comes
    back without that key. *)
Lemma reload_loses_step_counterexample :
  (1 <= currentStep demo_step3 <= totalSteps
   /\ currentStep demo_step3 = 3
   /\ currentStep
        (fire_next
           (loadSavedWizardData
              (fresh demo_page (localStorage (saveWizardData demo_step3)) ∅)))
      = 1)
  /\ (1 <= currentStep nameless_loaded <= totalSteps
      /\ obj_get "company_name" (wizardData nameless_loaded) = Some JUndef
      /\ obj_get "company_name"
           (wizardData
              (fire_next
                 (loadSavedWizardData
                    (fresh plain_page
                       (localStorage (saveWizardData nameless_loaded)) ∅))))
         = None).
Proof. compute_both. Qed.


(** The interval on the plain session: first due 30 seconds after the page
    was loaded, it runs then, stores step 2 and is due 30 seconds later. *)
Remark auto_save_every_thirty_seconds :
  autoSaveDue plain_filled = 30000
  /\ localStorage plain_filled !! "nexusai_wizard_step" = None
  /\ clock (perform ATimer plain_filled) = 30000
  /\ localStorage (perform ATimer plain_filled) !! "nexusai_wizard_step"
     = Some "2"
  /\ autoSaveDue (perform ATimer plain_filled) = 60000.
Proof. compute_both. Qed.

(** What [displayWizardResults] cleared does not stay cleared: the data is
    still in memory, and the next run of the interval callback stores it
    again, with step 4. *)
Remark auto_save_after_results :
  localStorage (runAnalysis (Ok answer) 300 demo_step3) !! "nexusai_wizard_step"
  = None
  /\ localStorage (autoSave (runAnalysis (Ok answer) 300 demo_step3))
     !! "nexusai_wizard_step" = Some "4".
Proof. compute_both. Qed.


(** The session of a user at step 3, saved and loaded on the plain page. *)
Lemma save_then_load_witness :
  1 <= currentStep plain_step3 <= totalSteps
  /\ wizardData
       (fire_next
          (loadSavedWizardData
             (fresh plain_page (localStorage (saveWizardData plain_step3)) ∅)))
     = wizardData plain_step3
  /\ currentStep
       (fire_next
          (loadSavedWizardData
             (fresh plain_page (localStorage (saveWizardData plain_step3)) ∅)))
     = currentStep plain_step3.
Proof.
  assert (H : 1 <= currentStep plain_step3 <= totalSteps) by (vm_compute; intuition congruence).
  destruct (save_then_load plain_step3 plain_page ∅ H) as (Hd & Hs & _).
  split; [exact H|]. split; [apply Hd | apply Hs]; reflexivity.
Defined.


(** The filled-in step 2 of the plain session. *)
Lemma save_points_witness :
  localStorage (nextStep plain_filled)
  = <["nexusai_wizard_step" := Z_toString (currentStep plain_filled)]>
      (<["nexusai_wizard_data" := ser (JObj (wizardData (nextStep plain_filled)))]>
         (localStorage plain_filled))
  /\ autoSave plain_filled = saveWizardData plain_filled
  /\ (exists k, 0 < k /\ autoSaveDue plain_filled = k * autoSaveInterval)
  /\ perform ATimer plain_filled = fire_interval plain_filled.
Proof.
  split; [|split; [|split]].
  - eapply (proj1 (save_points plain_filled)); vm_compute; reflexivity.
  - apply (proj1 (proj2 (proj2 (save_points plain_filled)))). reflexivity.
  - apply (proj1 (proj2 (proj2 (proj2 (proj2 (proj2
             (save_points plain_filled))))))).
    unfold plain_filled, plain_step2, plain_entry.
    do 4 apply reach_perform. apply reach_enter.
  - apply (proj1 (proj2 (proj2 (proj2 (proj2 (proj2 (proj2 (proj2
             (save_points plain_filled))))))))).
    constructor.
Defined.

(** Step 2 of the demo session after the prefill. *)
Lemma validation_gate_witness :
  validateCurrentStep demo_step2 = true <->
  forall f,
    In f (Dom.required_fields
            (mkStep (Some [set_value "TechStart Pro" company_name;
                           set_value "b2b saas" industry;
                           frameworks_gdpr; frameworks_soc2]) [])) ->
    trim (f_value f) <> "".
Proof.
  assert (Hel : pg_steps (page demo_step2) !! currentStep demo_step2
                = Some (mkStep (Some [set_value "TechStart Pro" company_name;
                                      set_value "b2b saas" industry;
                                      frameworks_gdpr; frameworks_soc2]) []))
    by (vm_compute; reflexivity).
  apply (proj1 (proj2 (validation_gate demo_step2 _ Hel))).
  vm_compute. congruence.
Defined.

(** The company name typed by the user survives the prefill of the form. *)
Lemma prefill_additive_on_form_witness :
  exists el' fields',
    pg_steps (page (autoFillDemoData demo_typed)) !! 2 = Some el'
    /\ se_form el' = Some fields'
    /\ fields' !! 0%nat = Some (set_value "Acme Robotics" company_name).
Proof.
  eapply (proj1 (prefill_additive_on_form demo_typed) 2);
    [vm_compute; reflexivity | reflexivity | reflexivity | vm_compute; congruence].
Defined.

(** A returning user enters through a demo link. *)
Lemma demo_suppresses_resume_witness :
  currentStep returning = 1
  /\ wizardData (loadSavedWizardData (set_local (localStorage plain_step3) demo_loaded))
     = wizardData demo_loaded.
Proof.
  split.
  - apply (proj2 (proj2 (demo_suppresses_resume demo_loaded))). reflexivity.
  - apply (proj1 (demo_suppresses_resume
                    (set_local (localStorage plain_step3) demo_loaded))).
    reflexivity.
Defined.

(** A risk score of 0 in an answer for a seller. *)
Lemma zero_score_shown_as_missing_witness :
  sm_risk_score
    (createResultsSummary
       (JObj (obj_set "risk_assessment"
                (JObj (obj_set "risk_score" (JNum 0) [("risk_level", JStr "LOW")]))
                [("executive_summary", JStr "Low risk.")]))
       (JStr "seller"))
  = "--".
Proof.
  apply (proj1 (zero_score_shown_as_missing
                  [("executive_summary", JStr "Low risk.")]
                  [("risk_level", JStr "LOW")] (JStr "seller"))).
  reflexivity.
Defined.

End Cases.

(** ** What a step's form adds to the collected data *)

Module CollectFacts.
Import Js Json Dom Present Wizard WizardView.
Import JsFacts StepFacts StorageFacts DemoFacts.

Lemma cb_get_push k n v cb :
  cb_get k (push_value n v cb) =
  if String.eqb k n then Some (default [] (cb_get k cb) ++ [v])%list
  else cb_get k cb.
Proof.
  induction cb as [|[k' vs] cb IH]; simpl.
  - destruct (String.eqb k n); reflexivity.
  - destruct (String.eqb n k') eqn:E; simpl.
    + apply String.eqb_eq in E. subst k'.
      destruct (String.eqb k n); reflexivity.
    + destruct (String.eqb k k') eqn:E'; simpl.
      * apply String.eqb_eq in E'. subst k'.
        rewrite String.eqb_sym, E. reflexivity.
      * exact IH.
Qed.

Lemma cb_get_fold k (boxes : list Field) acc :
  cb_get k (fold_left (fun cb f => push_value (f_name f) (f_value f) cb) boxes acc) =
  match map f_value (List.filter (fun f => String.eqb k (f_name f)) boxes) with
  | [] => cb_get k acc
  | vs => Some (default [] (cb_get k acc) ++ vs)%list
  end.
Proof.
  revert acc. induction boxes as [|f boxes IH]; intros acc; simpl; [reflexivity|].
  rewrite IH, cb_get_push.
  destruct (String.eqb k (f_name f)); simpl.
  - destruct (map f_value _) as [|v vs]; simpl.
    + reflexivity.
    + now rewrite <- app_assoc.
  - reflexivity.
Qed.

Lemma cb_get_checkbox_data k fields :
  cb_get k (checkbox_data fields) =
  match group_values k fields with
  | [] => None
  | vs => Some vs
  end.
Proof.
  unfold checkbox_data, group_values. rewrite cb_get_fold. reflexivity.
Qed.

Lemma cb_get_none k cb : ~ In k (map fst cb) -> cb_get k cb = None.
Proof.
  induction cb as [|[k' vs] cb IH]; simpl; [reflexivity|].
  intros H. destruct (String.eqb k k') eqn:E.
  - apply String.eqb_eq in E. subst. tauto.
  - apply IH. tauto.
Qed.

Lemma push_value_keys n v cb :
  map fst (push_value n v cb) =
  if existsb (String.eqb n) (map fst cb) then map fst cb
  else (map fst cb ++ [n])%list.
Proof.
  induction cb as [|[k' vs] cb IH]; simpl; [reflexivity|].
  destruct (String.eqb n k') eqn:E; simpl; [reflexivity|].
  rewrite IH. destruct (existsb _ _); reflexivity.
Qed.

Lemma push_value_NoDup n v cb :
  List.NoDup (map fst cb) -> List.NoDup (map fst (push_value n v cb)).
Proof.
  intros H. rewrite push_value_keys.
  destruct (existsb (String.eqb n) (map fst cb)) eqn:E; [exact H|].
  apply List.NoDup_app.
  - exact H.
  - apply List.NoDup_cons; [intros []|apply List.NoDup_nil].
  - intros x Hx Hx'. simpl in Hx'. destruct Hx' as [<-|[]].
    assert (existsb (String.eqb n) (map fst cb) = true); [|congruence].
    apply List.existsb_exists. exists n. split; [exact Hx|apply String.eqb_refl].
Qed.

Lemma checkbox_data_NoDup fields : List.NoDup (map fst (checkbox_data fields)).
Proof.
  unfold checkbox_data.
  assert (H : forall (boxes : list Field) acc, List.NoDup (map fst acc) ->
            List.NoDup (map fst (fold_left
              (fun cb f => push_value (f_name f) (f_value f) cb) boxes acc))).
  { induction boxes as [|f boxes IH]; intros acc Hacc; simpl; [exact Hacc|].
    apply IH, push_value_NoDup, Hacc. }
  apply H. apply List.NoDup_nil.
Qed.

Lemma merge_checkbox_get k cb d :
  List.NoDup (map fst cb) ->
  obj_get k (merge_checkbox_data cb d) =
  match cb_get k cb with
  | Some vs => Some (JArr (map JStr vs))
  | None => obj_get k d
  end.
Proof.
  unfold merge_checkbox_data. revert d.
  induction cb as [|[k' vs] cb IH]; intros d Hnd; simpl; [reflexivity|].
  inversion Hnd as [|? ? Hnotin Hnd']; subst.
  rewrite (IH _ Hnd'). simpl.
  destruct (String.eqb k k') eqn:E.
  - apply String.eqb_eq in E. subst k'.
    rewrite (cb_get_none _ _ Hnotin). apply obj_get_set_eq.
  - destruct (cb_get k cb); [reflexivity|].
    apply obj_get_set_ne. intros ->. now rewrite String.eqb_refl in E.
Qed.

Lemma merge_form_get k entries d :
  obj_get k (merge_form_data entries d) =
  if includes "checkbox" k then obj_get k d
  else match last_value k entries with
       | Some v => Some (JStr v)
       | None => obj_get k d
       end.
Proof.
  unfold merge_form_data, last_value.
  induction entries as [|[k' v'] entries IH] using rev_ind.
  - simpl. destruct (includes "checkbox" k); reflexivity.
  - rewrite !fold_left_app. simpl.
    destruct (String.eqb k k') eqn:E.
    + apply String.eqb_eq in E. subst k'.
      destruct (includes "checkbox" k) eqn:C; [exact IH|].
      apply obj_get_set_eq.
    + assert (Hne : k' <> k) by (intros ->; now rewrite String.eqb_refl in E).
      destruct (includes "checkbox" k'); [exact IH|].
      rewrite (obj_get_set_ne _ _ _ _ Hne). exact IH.
Qed.

(** What [collectCurrentStepData] leaves in [wizardData] under each key,
    when the current step has a form. *)
Lemma collect_get st el fields k :
  pg_steps (page st) !! currentStep st = Some el ->
  se_form el = Some fields ->
  obj_get k (wizardData (collectCurrentStepData st)) =
  match group_values k fields with
  | [] =>
      if includes "checkbox" k then obj_get k (wizardData st)
      else match last_value k (form_data fields) with
           | Some v => Some (JStr v)
           | None => obj_get k (wizardData st)
           end
  | vs => Some (JArr (map JStr vs))
  end.
Proof.
  intros Hel Hform. unfold collectCurrentStepData. rewrite Hel, Hform. simpl.
  rewrite (merge_checkbox_get _ _ _ (checkbox_data_NoDup fields)).
  rewrite cb_get_checkbox_data, merge_form_get.
  destruct (group_values k fields); reflexivity.
Qed.

(** X1.  [collectCurrentStepData] changes no key other than those its
    form writes: a key that no ticked box has for its name, and that no
    entry of the form has for its name unless the name contains
    [checkbox], keeps the value it had, and so a group whose boxes were
    all unticked keeps the list it had before. *)
Theorem collect_keeps_unnamed_keys (st : Wizard) (el : StepElement)
    (fields : list Field) (k : string) :
  pg_steps (page st) !! currentStep st = Some el ->
  se_form el = Some fields ->
  group_values k fields = [] ->
  last_value k (form_data fields) = None \/ includes "checkbox" k = true ->
  obj_get k (wizardData (collectCurrentStepData st)) =
  obj_get k (wizardData st).
Proof.
  intros Hel Hform Hg Hk. rewrite (collect_get _ _ _ _ Hel Hform), Hg.
  destruct Hk as [Hk|Hk]; rewrite Hk; [|reflexivity].
  destruct (includes "checkbox" k); reflexivity.
Qed.

Lemma collect_keeps_unnamed_keys_witness :
  obj_get "frameworks"
    (wizardData (collectCurrentStepData
       (set_data [("frameworks", JArr [JStr "GDPR"])] Sample.plain_step2))) =
  Some (JArr [JStr "GDPR"]).
Proof.
  refine (collect_keeps_unnamed_keys
            (set_data [("frameworks", JArr [JStr "GDPR"])] Sample.plain_step2)
            _ _ "frameworks" _ _ _ _).
  - vm_compute. reflexivity.
  - reflexivity.
  - vm_compute. reflexivity.
  - left. vm_compute. reflexivity.
Defined.

(** X2.  The ticked boxes of one name are collected as one list, the
    values in document order, whatever was stored under that name and
    whatever the form's own entry of that name says. *)
Theorem ticked_boxes_collected_in_order (st : Wizard) (el : StepElement)
    (fields : list Field) (k : string) :
  pg_steps (page st) !! currentStep st = Some el ->
  se_form el = Some fields ->
  group_values k fields <> [] ->
  obj_get k (wizardData (collectCurrentStepData st)) =
  Some (JArr (map JStr (group_values k fields))).
Proof.
  intros Hel Hform Hg. rewrite (collect_get _ _ _ _ Hel Hform).
  destruct (group_values k fields); [contradiction|reflexivity].
Qed.

Lemma ticked_boxes_collected_in_order_witness :
  obj_get "frameworks" (wizardData (collectCurrentStepData Scenes.ticked)) =
  Some (JArr [JStr "gdpr"; JStr "soc2"]).
Proof.
  eapply eq_trans.
  - eapply (ticked_boxes_collected_in_order Scenes.ticked).
    + vm_compute. reflexivity.
    + reflexivity.
    + vm_compute. discriminate.
  - vm_compute. reflexivity.
Defined.

(** X3.  Of several entries of a form with the same name the last one is
    collected, as a string, unless the name contains [checkbox] or is the
    name of a ticked box. *)
Theorem last_entry_wins (st : Wizard) (el : StepElement)
    (fields : list Field) (k v : string) :
  pg_steps (page st) !! currentStep st = Some el ->
  se_form el = Some fields ->
  group_values k fields = [] ->
  includes "checkbox" k = false ->
  last_value k (form_data fields) = Some v ->
  obj_get k (wizardData (collectCurrentStepData st)) = Some (JStr v).
Proof.
  intros Hel Hform Hg Hc Hv.
  now rewrite (collect_get _ _ _ _ Hel Hform), Hg, Hc, Hv.
Qed.

Lemma last_entry_wins_witness :
  obj_get "company_name"
    (wizardData (collectCurrentStepData Sample.plain_filled)) =
  Some (JStr "Acme Robotics").
Proof.
  refine (last_entry_wins Sample.plain_filled _ _ "company_name" _ _ _ _ _ _).
  - vm_compute. reflexivity.
  - reflexivity.
  - vm_compute. reflexivity.
  - vm_compute. reflexivity.
  - vm_compute. reflexivity.
Defined.

(** A select has an entry in the form while one of its options is
    selected, the empty first one to begin with; set to a value that none
    of its options has, it has no entry, and the data keeps what it held
    for that name. *)
Remark unselected_select_has_no_entry :
  form_data [Sample.industry] = [("industry", "")]
  /\ form_data [set_value "biotech" Sample.industry] = []
  /\ form_data [set_value "fintech" (set_value "biotech" Sample.industry)]
     = [("industry", "fintech")]
  /\ obj_get "industry"
       (wizardData
          (collectCurrentStepData
             (perform APrevious
                (perform (AEdit 2 1 (set_value "biotech")) Sample.plain_step3))))
     = Some (JStr "fintech").
Proof. vm_compute. auto. Qed.

End CollectFacts.

(** ** Moving through the wizard, restarting it and coming back *)

Module SessionFacts.
Import Js Json Dom Present Wizard WizardView.
Import JsFacts JsonFacts StepFacts StorageFacts DemoFacts SubmitFacts.

#[local] Arguments ser : simpl never.
#[local] Arguments parse : simpl never.
#[local] Arguments Z_toString : simpl never.
#[local] Arguments parseInt : simpl never.
#[local] Arguments includes : simpl never.

Lemma autoFill_log st : log (autoFillDemoData st) = log st.
Proof. unfold autoFillDemoData. split_cases; reflexivity. Qed.

Lemma nextStep_log st :
  validateCurrentStep st = true -> log (nextStep st) = log st.
Proof.
  intros Hv. unfold nextStep. rewrite Hv. cbn [negb].
  destruct (collect_clock_log st) as (_ & Hlog & _).
  destruct (_ <? _); [|exact Hlog].
  destruct (truthy _); [rewrite autoFill_log|]; exact Hlog.
Qed.

Lemma nextStep_data_local st :
  validateCurrentStep st = true ->
  wizardData (nextStep st) = wizardData (collectCurrentStepData st)
  /\ localStorage (nextStep st) = localStorage (collectCurrentStepData st).
Proof.
  intros Hv. unfold nextStep. rewrite Hv. cbn [negb].
  destruct (_ <? _); [|now split].
  destruct (truthy _); [|now split].
  now rewrite autoFill_local, autoFill_data.
Qed.

Lemma restore_step_frame st :
  localStorage (restore_step st) = localStorage st
  /\ sessionStorage (restore_step st) = sessionStorage st
  /\ wizardData (restore_step st) = wizardData st
  /\ selectedPersona (restore_step st) = selectedPersona st
  /\ currentStep (restore_step st) = currentStep st.
Proof.
  unfold restore_step.
  destruct (getItem _ _); [|tauto].
  destruct (includes _ _); [tauto|].
  destruct (parseInt _); [|tauto].
  destruct (_ && _); simpl; tauto.
Qed.

Lemma loadURLParameters_storage persona isDemo scenarioName st :
  localStorage (loadURLParameters persona isDemo scenarioName st)
  = localStorage st
  /\ sessionStorage (loadURLParameters persona isDemo scenarioName st)
     = sessionStorage st.
Proof.
  unfold loadURLParameters. destruct persona as [p|]; [|tauto].
  destruct (String.eqb p ""); simpl; tauto.
Qed.

Lemma loadDemoScenario_nothing n st :
  sessionStorage st !! "selectedScenario" = None -> loadDemoScenario n st = st.
Proof. intros H. unfold loadDemoScenario, getItem. now rewrite H. Qed.

(** Loading a page reads the two storages and writes neither. *)
Lemma enter_storage pg persona isDemo scenarioName (ls ss : gmap string string) :
  localStorage (enter pg persona isDemo scenarioName ls ss) = ls
  /\ sessionStorage (enter pg persona isDemo scenarioName ls ss) = ss.
Proof.
  unfold enter, loadSavedWizardData.
  destruct (loadURLParameters_storage persona isDemo scenarioName
              (restore_step (restore_data (fresh pg ls ss)))) as [-> ->].
  destruct (restore_step_frame (restore_data (fresh pg ls ss)))
    as (-> & -> & _).
  destruct (restore_data_frame (fresh pg ls ss)) as (-> & -> & _).
  split; reflexivity.
Qed.

(** *** Sessions stay within the model

    What [saveWizardData] writes is the text of an object, so the local
    storage of a session is [restorable] at every point, and a page that
    is loaded again within a session starts a session again. *)

Lemma parse_brace r v : parse (String "{" r) = Some v -> exists o, v = JObj o.
Proof.
  unfold parse. cbn [parse_value skip_ws].
  change (json_ws "{") with false. cbv iota.
  change (Ascii.eqb "{" "n") with false.
  change (Ascii.eqb "{" "t") with false.
  change (Ascii.eqb "{" "f") with false.
  change (Ascii.eqb "{" dquote) with false.
  change (Ascii.eqb "{" "[") with false.
  change (Ascii.eqb "{" "{") with true. cbv iota.
  set (members := parse_members _ r). clearbody members.
  destruct (skip_ws r) as [|c r'].
  - destruct members as [[kvs r1]|]; [|discriminate].
    destruct (skip_ws r1); [|discriminate]. intros [= <-]. eauto.
  - destruct (Ascii.eqb c "}") eqn:E.
    + apply Ascii.eqb_eq in E. subst c.
      destruct (skip_ws r'); [|discriminate]. intros [= <-]. eauto.
    + assert (Hm : match c with
                   | "}"%char => Some (JObj [], r')
                   | _ =>
                       match members with
                       | Some (kvs, r1) =>
                           Some (JObj (fold_left
                                         (fun o kv => obj_set (fst kv) (snd kv) o)
                                         kvs []), r1)
                       | None => None
                       end
                   end
                   = match members with
                     | Some (kvs, r1) =>
                         Some (JObj (fold_left
                                       (fun o kv => obj_set (fst kv) (snd kv) o)
                                       kvs []), r1)
                     | None => None
                     end).
      { destruct c as [[] [] [] [] [] [] [] []]; try reflexivity.
        discriminate E. }
      rewrite Hm. destruct members as [[kvs r1]|]; [|discriminate].
      destruct (skip_ws r1); [|discriminate]. intros [= <-]. eauto.
Qed.

Lemma restorable_saved st : restorable (localStorage (saveWizardData st)) = true.
Proof.
  unfold restorable. rewrite saved_data_item.
  destruct (parse (ser (JObj (wizardData st)))) as [v|] eqn:E; [|reflexivity].
  assert (exists r, ser (JObj (wizardData st)) = String "{" r) as [r Hr]
    by (eexists; reflexivity).
  rewrite Hr in E. apply parse_brace in E as [o ->]. reflexivity.
Qed.

Lemma restorable_cleared (ls : gmap string string) :
  restorable (delete "nexusai_wizard_step" (delete "nexusai_wizard_data" ls))
  = true.
Proof.
  unfold restorable, getItem. rewrite lookup_delete_ne by discriminate.
  now rewrite lookup_delete_eq.
Qed.

Lemma collect_restorable st :
  restorable (localStorage st) = true ->
  restorable (localStorage (collectCurrentStepData st)) = true.
Proof.
  intros H. destruct (collect_cases st) as [[-> _]|(el & fields & _ & _ & ->)];
    [exact H | apply restorable_saved].
Qed.

Lemma nextStep_restorable st :
  restorable (localStorage st) = true ->
  restorable (localStorage (nextStep st)) = true.
Proof.
  intros H. destruct (validateCurrentStep st) eqn:Hv.
  - destruct (nextStep_data_local st Hv) as [_ ->]. now apply collect_restorable.
  - unfold nextStep. rewrite Hv. exact H.
Qed.

Lemma runAnalysis_local resp latency st :
  localStorage (runAnalysis resp latency st)
  = localStorage (collectCurrentStepData st)
  \/ localStorage (runAnalysis resp latency st)
     = delete "nexusai_wizard_step"
         (delete "nexusai_wizard_data"
            (localStorage (collectCurrentStepData st))).
Proof. run_cases resp; rewrite ?stages_local; auto. Qed.

Lemma loadDemoScenario_local n st :
  localStorage (loadDemoScenario n st) = localStorage st.
Proof.
  unfold loadDemoScenario.
  destruct (getItem _ _); [|reflexivity].
  destruct (parse _); [|reflexivity].
  destruct (prefillWizardFromScenario _ _) eqn:E; [|reflexivity].
  apply prefill_some in E as (industry & _ & ->). reflexivity.
Qed.

Lemma fire_next_restorable st :
  restorable (localStorage st) = true ->
  restorable (localStorage (fire_next st)) = true.
Proof.
  intros H.
  assert (Hi : restorable (localStorage (fire_interval st)) = true).
  { destruct (obj_nonempty (wizardData st)) eqn:E.
    - rewrite (interval_saves st E). apply (restorable_saved st).
    - unfold fire_interval, autoSave. cbn. now rewrite E. }
  unfold fire_next.
  destruct (earliest (timers st)) as [[[due t] rest]|]; [|exact Hi].
  destruct (autoSaveDue st <=? due); [exact Hi|].
  set (st1 := set_clock _ _).
  change (localStorage st) with (localStorage st1) in H. clearbody st1.
  destruct t as [p d n| |step]; cbn [run_task].
  - destruct d; [|exact H]. now rewrite loadDemoScenario_local.
  - destruct (currentStep st1 =? 1); [now apply nextStep_restorable | exact H].
  - exact H.
Qed.

Lemma perform_restorable a st :
  restorable (localStorage st) = true ->
  restorable (localStorage (perform a st)) = true.
Proof.
  intros H.
  destruct a as [persona| | |resp latency| |n i g|pg persona isDemo scenarioName];
    cbn [perform].
  - exact H.
  - now apply nextStep_restorable.
  - unfold previousStep. now destruct (1 <? currentStep st).
  - destruct (runAnalysis_local resp latency st) as [-> | ->].
    + now apply collect_restorable.
    + apply restorable_cleared.
  - now apply fire_next_restorable.
  - unfold edit_field. destruct (pg_steps (page st) !! n) as [el|]; [|exact H].
    now destruct (se_form el).
  - unfold startNewAssessment.
    destruct (enter_storage pg persona isDemo scenarioName
                (localStorage (clearSavedWizardData st))
                (sessionStorage (clearSavedWizardData st))) as [-> _].
    apply restorable_cleared.
Qed.

(** In a session, local storage is [restorable] throughout. *)
Lemma session_restorable st :
  session st -> restorable (localStorage st) = true.
Proof.
  induction 1 as [pg persona isDemo scenarioName ls ss H | a st _ IH].
  - now destruct (enter_storage pg persona isDemo scenarioName ls ss) as [-> _].
  - now apply perform_restorable.
Qed.

(** X4.  The object sent for analysis carries the selected persona under
    [persona], whatever the collected data holds under that name, the flag
    [use_demo] that tells whether a demo scenario is loaded, [demo_type]
    equal to the persona exactly in that case (a [demo_type] of the data
    goes through otherwise), and every other key of the data unchanged. *)
Theorem payload_carries_selected_persona (st : Wizard) :
  obj_get "persona" (analysisData st) = Some (selectedPersona st)
  /\ obj_get "use_demo" (analysisData st)
     = Some (JBool (truthy (prop (JObj (wizardData st)) "demo_scenario")))
  /\ obj_get "demo_type" (analysisData st)
     = (if truthy (prop (JObj (wizardData st)) "demo_scenario")
        then Some (selectedPersona st)
        else obj_get "demo_type" (wizardData st))
  /\ (forall k, k <> "persona" -> k <> "use_demo" -> k <> "demo_type" ->
       obj_get k (analysisData st) = obj_get k (wizardData st)).
Proof.
  unfold analysisData.
  destruct (truthy (prop (JObj (wizardData st)) "demo_scenario")).
  - split; [|split; [|split]].
    + rewrite obj_get_set_ne by discriminate. apply obj_get_set_eq.
    + rewrite !obj_get_set_ne by discriminate. apply obj_get_set_eq.
    + apply obj_get_set_eq.
    + intros k H1 H2 H3. rewrite !obj_get_set_ne by congruence. reflexivity.
  - split; [|split; [|split]].
    + apply obj_get_set_eq.
    + rewrite obj_get_set_ne by discriminate. apply obj_get_set_eq.
    + rewrite !obj_get_set_ne by discriminate. reflexivity.
    + intros k H1 H2 H3. rewrite !obj_get_set_ne by congruence. reflexivity.
Qed.

(** X5.  The automatic advance of a demo moves a wizard that is at step 1
    and passes validation to step 2, and does nothing when it runs once
    more. *)
Theorem auto_advance_fires_once (st : Wizard) :
  currentStep st = 1 ->
  validateCurrentStep st = true ->
  currentStep (run_task TAutoAdvance st) = 2
  /\ run_task TAutoAdvance (run_task TAutoAdvance st)
     = run_task TAutoAdvance st.
Proof.
  intros Hstep Hv.
  assert (H2 : currentStep (run_task TAutoAdvance st) = 2).
  { cbn [run_task]. rewrite Hstep. cbn [Z.eqb Pos.eqb].
    rewrite nextStep_step, Hv, Hstep. reflexivity. }
  split; [exact H2|].
  remember (run_task TAutoAdvance st) as st' eqn:E.
  cbn [run_task]. now rewrite H2.
Qed.

Lemma auto_advance_fires_once_witness :
  currentStep (run_task TAutoAdvance Sample.demo_loaded) = 2
  /\ run_task TAutoAdvance (run_task TAutoAdvance Sample.demo_loaded)
     = run_task TAutoAdvance Sample.demo_loaded.
Proof.
  apply (auto_advance_fires_once Sample.demo_loaded).
  - vm_compute. reflexivity.
  - vm_compute. reflexivity.
Defined.

(** X6.  [startNewAssessment] on any session, at any address: once the
    reloaded page has run its pending callback, the wizard is at step 1
    with nothing pending, nothing was announced, and the data holds the
    persona of the address and nothing else, so that on a demo link no
    scenario is loaded any more. *)
Theorem restart_forgets_the_demo (st : Wizard) (pg : Page)
    (persona isDemo scenarioName : option string) :
  currentStep (fire_next (startNewAssessment pg persona isDemo scenarioName st)) = 1
  /\ timers (fire_next (startNewAssessment pg persona isDemo scenarioName st)) = []
  /\ log (fire_next (startNewAssessment pg persona isDemo scenarioName st)) = []
  /\ wizardData (fire_next (startNewAssessment pg persona isDemo scenarioName st))
     = match persona with
       | Some p => if String.eqb p "" then [] else [("persona", JStr p)]
       | None => []
       end.
Proof.
  unfold startNewAssessment, enter.
  rewrite load_nothing_stored.
  2:{ cbn. rewrite lookup_delete_ne by discriminate. apply lookup_delete_eq. }
  2:{ cbn. apply lookup_delete_eq. }
  assert (Hss : sessionStorage (clearSavedWizardData st) !! "selectedScenario"
                = None).
  { cbn. rewrite lookup_delete_ne by discriminate. apply lookup_delete_eq. }
  set (ls := localStorage (clearSavedWizardData st)).
  set (ss := sessionStorage (clearSavedWizardData st)) in *.
  unfold loadURLParameters.
  destruct persona as [p|]; [|now cbn].
  destruct (String.eqb p "") eqn:Ep; [now cbn|].
  unfold fire_next. cbn -[loadDemoScenario].
  rewrite (loadDemoScenario_nothing scenarioName) by exact Hss.
  destruct (match isDemo with Some d => negb (String.eqb d "") | None => false end);
    cbn; auto.
Qed.

Lemma trackEvent_other n p t u a (ls : gmap string string) k :
  k <> "analytics_events" ->
  Analytics.stored (Analytics.trackEvent n p t u a ls) !! k = ls !! k.
Proof.
  intros Hk. unfold Analytics.trackEvent.
  destruct (parse _) as [[]|]; try reflexivity.
  cbn. now rewrite lookup_insert_ne by congruence.
Qed.

Lemma trackFunnelStep_other step t t' u a (ls : gmap string string) k :
  k <> "conversion_funnel" -> k <> "analytics_events" ->
  Analytics.stored (Analytics.trackFunnelStep step t t' u a ls) !! k = ls !! k.
Proof.
  intros H1 H2. unfold Analytics.trackFunnelStep.
  destruct (parse _) as [funnel|]; [|reflexivity].
  destruct (Analytics.assign step t funnel); [|reflexivity].
  rewrite trackEvent_other by exact H2.
  now rewrite lookup_insert_ne by congruence.
Qed.

Lemma trackUserJourney_other pathname t (ls : gmap string string) k :
  k <> "user_journey" ->
  Analytics.stored (Analytics.trackUserJourney pathname t ls) !! k = ls !! k.
Proof.
  intros Hk. unfold Analytics.trackUserJourney.
  destruct (parse _) as [[]|]; try reflexivity.
  cbn. now rewrite lookup_insert_ne by congruence.
Qed.

(** What the handler of the analytics script leaves alone. *)
Lemma onLoad_other pathname u a t variant_b (ls : gmap string string) k :
  k <> "user_journey" -> k <> "conversion_funnel" ->
  k <> "analytics_events" -> k <> "ab_test_cta_text" ->
  Analytics.stored (Analytics.onLoad pathname u a t variant_b ls) !! k
  = ls !! k.
Proof.
  intros H1 H2 H3 H4. unfold Analytics.onLoad.
  assert (Hj := trackUserJourney_other pathname (Analytics.t_journey t) ls k H1).
  destruct (Analytics.trackUserJourney _ _ _) as [ls1|ls1]; [|exact Hj].
  cbn [Analytics.stored] in Hj.
  destruct (String.eqb pathname "/").
  { rewrite trackFunnelStep_other by assumption.
    unfold Analytics.trackABTest.
    rewrite lookup_insert_ne; [exact Hj|]. intros E. apply H4. now rewrite <- E. }
  destruct (String.eqb pathname "/wizard").
  { now rewrite trackFunnelStep_other by assumption. }
  destruct (String.eqb pathname "/dashboard").
  { now rewrite trackFunnelStep_other by assumption. }
  exact Hj.
Qed.

(** X7.  [startNewAssessment] removes from local storage the two items of
    the wizard and from session storage the two items of the handoff.
    When the page has loaded again and both its handlers have run, that of
    the wizard and that of the analytics script, every item of session
    storage but those two is as it was, and so is every item of local
    storage but the two of the wizard and the four that the analytics
    script writes on a page load ([user_journey], [conversion_funnel],
    [analytics_events] and, on the landing page, [ab_test_cta_text]). *)
Theorem restart_keeps_other_keys (st : Wizard) (pg : Page)
    (persona isDemo scenarioName : option string) (k : string)
    (pathname url user_agent : string) (t : Analytics.Times)
    (variant_b : bool) :
  k <> "nexusai_wizard_data" -> k <> "nexusai_wizard_step" ->
  k <> "selectedScenario" -> k <> "selectedPersona" ->
  k <> "user_journey" -> k <> "conversion_funnel" ->
  k <> "analytics_events" -> k <> "ab_test_cta_text" ->
  Analytics.stored
    (Analytics.onLoad pathname url user_agent t variant_b
       (localStorage (startNewAssessment pg persona isDemo scenarioName st)))
  !! k
  = localStorage st !! k
  /\ sessionStorage (startNewAssessment pg persona isDemo scenarioName st) !! k
     = sessionStorage st !! k.
Proof.
  intros H1 H2 H3 H4 H5 H6 H7 H8.
  rewrite onLoad_other by assumption.
  unfold startNewAssessment.
  destruct (enter_storage pg persona isDemo scenarioName
              (localStorage (clearSavedWizardData st))
              (sessionStorage (clearSavedWizardData st))) as [-> ->].
  cbn. rewrite !lookup_delete_ne by congruence. split; reflexivity.
Qed.

Lemma restart_keeps_other_keys_witness :
  Analytics.stored
    (Analytics.onLoad "/wizard" "https://example.org/wizard" "browser"
       (Analytics.mkTimes "2024-05-02T09:30:00.000Z" "2024-05-02T09:30:00.001Z"
          "2024-05-02T09:30:00.002Z") false
       (localStorage
          (startNewAssessment Sample.plain_page None None None
             (set_local
                (<["selected_persona" := "seller"]>
                   (localStorage Sample.plain_step3))
                Sample.plain_step3))))
  !! "selected_persona"
  = Some "seller".
Proof.
  refine (eq_trans
            (proj1 (restart_keeps_other_keys _ Sample.plain_page None None
                      None "selected_persona" "/wizard"
                      "https://example.org/wizard" "browser" _ false
                      _ _ _ _ _ _ _ _)) _);
    try discriminate.
  apply lookup_insert_eq.
Defined.

(** X8.  At step 3 the buttons Previous, Next and Analyze are all shown;
    Next, when validation passes, leads to the results step, where only
    Previous is shown, and nothing is sent, shown or announced on the
    way. *)
Theorem next_at_step_three_skips_analysis (st : Wizard) :
  currentStep st = 3 ->
  validateCurrentStep st = true ->
  updateWizardDisplay st = mkButtons true true true
  /\ currentStep (nextStep st) = 4
  /\ log (nextStep st) = log st
  /\ updateWizardDisplay (nextStep st) = mkButtons true false false.
Proof.
  intros Hstep Hv.
  assert (H4 : currentStep (nextStep st) = 4).
  { rewrite nextStep_step, Hv, Hstep. reflexivity. }
  split; [unfold updateWizardDisplay; now rewrite Hstep|].
  split; [exact H4|]. split; [apply nextStep_log, Hv|].
  unfold updateWizardDisplay. now rewrite H4.
Qed.

Lemma next_at_step_three_skips_analysis_witness :
  currentStep (nextStep Sample.demo_step3) = 4
  /\ log (nextStep Sample.demo_step3) = log Sample.demo_step3.
Proof.
  assert (H := next_at_step_three_skips_analysis Sample.demo_step3).
  split; apply H; vm_compute; reflexivity.
Defined.

(** X9.  Next followed by Previous comes back to the step it left, with
    the data and the stored items as Next left them. *)
Theorem next_then_previous_returns (st : Wizard) :
  1 <= currentStep st < totalSteps ->
  validateCurrentStep st = true ->
  currentStep (previousStep (nextStep st)) = currentStep st
  /\ wizardData (previousStep (nextStep st)) = wizardData (nextStep st)
  /\ localStorage (previousStep (nextStep st)) = localStorage (nextStep st).
Proof.
  intros Hstep Hv.
  assert (Hn : currentStep (nextStep st) = currentStep st + 1).
  { rewrite nextStep_step, Hv.
    destruct (currentStep st <? totalSteps) eqn:E; [reflexivity|lia]. }
  unfold previousStep. rewrite Hn.
  destruct (1 <? currentStep st + 1) eqn:E; [|lia].
  cbn. split; [lia|]. split; reflexivity.
Qed.

Lemma next_then_previous_returns_witness :
  currentStep (previousStep (nextStep Sample.plain_filled)) = 2.
Proof.
  refine (proj1 (next_then_previous_returns Sample.plain_filled _ _)).
  - vm_compute. split; [discriminate|reflexivity].
  - vm_compute. reflexivity.
Defined.

(** X10.  A page loaded again right after a successful Next resumes one
    step behind: at the step that Next left, which is the step stored,
    when that step has a form and lies beyond the first and the address
    does not contain [demo]. *)
Theorem resume_is_one_step_behind (st : Wizard) (el : StepElement)
    (fields : list Field) (pg : Page) (ss : gmap string string) :
  validateCurrentStep st = true ->
  pg_steps (page st) !! currentStep st = Some el ->
  se_form el = Some fields ->
  1 < currentStep st < totalSteps ->
  includes "demo" (pg_search pg) = false ->
  currentStep (nextStep st) = currentStep st + 1
  /\ currentStep
       (fire_next (loadSavedWizardData (fresh pg (localStorage (nextStep st)) ss)))
     = currentStep st.
Proof.
  intros Hv Hel Hform Hstep Hdemo.
  split.
  { rewrite nextStep_step, Hv.
    destruct (currentStep st <? totalSteps) eqn:E; [reflexivity|lia]. }
  destruct (nextStep_data_local st Hv) as [_ Hls]. rewrite Hls.
  destruct (collect_cases st) as [[_ Hno]|(el' & fields' & _ & _ & Hc)].
  { rewrite (Hno _ Hel) in Hform. discriminate. }
  rewrite Hc.
  remember (set_data _ st) as st1 eqn:E1.
  assert (Hcs1 : currentStep st1 = currentStep st) by now subst st1.
  remember (fresh pg (localStorage (saveWizardData st1)) ss) as f eqn:Ef.
  destruct (restore_data_frame f) as (Hl & _ & Hpg & Htm & Hcs & Hck & _).
  assert (Hget : getItem "nexusai_wizard_step" (localStorage (restore_data f))
                 = Some (Z_toString (currentStep st))).
  { rewrite Hl. subst f. cbn [localStorage fresh]. rewrite <- Hcs1.
    apply saved_step_item. }
  assert (Hck' : clock (restore_data f) = 0).
  { rewrite Hck. now subst f. }
  assert (Hdue : autoSaveDue (restore_data f) = autoSaveInterval).
  { rewrite restore_data_due. now subst f. }
  assert (Hpg' : pg_search (page (restore_data f)) = pg_search pg).
  { rewrite Hpg. now subst f. }
  assert (Htm' : timers (restore_data f) = []).
  { rewrite Htm. now subst f. }
  unfold loadSavedWizardData.
  rewrite (restore_step_saved _ _ Hget) by lia.
  rewrite Hpg', Hdemo.
  destruct (1 <? currentStep st) eqn:E; [|lia].
  unfold fire_next. cbn. rewrite Htm', Hdue, Hck'. cbn. reflexivity.
Qed.

Lemma resume_is_one_step_behind_witness :
  currentStep (nextStep Sample.plain_filled) = 3
  /\ currentStep
       (fire_next
          (loadSavedWizardData
             (fresh Sample.plain_page
                (localStorage (nextStep Sample.plain_filled)) ∅)))
     = 2.
Proof.
  refine (resume_is_one_step_behind Sample.plain_filled _ _ Sample.plain_page ∅
            _ _ _ _ _).
  - vm_compute. reflexivity.
  - vm_compute. reflexivity.
  - reflexivity.
  - vm_compute. split; reflexivity.
  - vm_compute. reflexivity.
Defined.

(** X11.  The persona of a page loaded again, when its handler has run, is
    the persona of the address if the address has one that is not empty;
    otherwise it is the [persona] of the saved data, when that is there and
    not empty, and [null] without it.  The persona that was selected when
    the data was saved is not looked at. *)
Theorem persona_comes_from_saved_data (st : Wizard) (pg : Page)
    (persona isDemo scenarioName : option string) (ss : gmap string string) :
  representable (JObj (wizardData st)) = true ->
  selectedPersona
    (enter pg persona isDemo scenarioName (localStorage (saveWizardData st)) ss)
  = match persona with
    | Some p =>
        if negb (String.eqb p "") then JStr p
        else if truthy (prop (JObj (wizardData st)) "persona")
             then prop (JObj (wizardData st)) "persona"
             else JNull
    | None =>
        if truthy (prop (JObj (wizardData st)) "persona")
        then prop (JObj (wizardData st)) "persona"
        else JNull
    end.
Proof.
  intros Hrep.
  assert (Hload :
    selectedPersona
      (loadSavedWizardData (fresh pg (localStorage (saveWizardData st)) ss))
    = if truthy (prop (JObj (wizardData st)) "persona")
      then prop (JObj (wizardData st)) "persona"
      else JNull);
    [|unfold enter, loadURLParameters;
      destruct persona as [p|]; [|exact Hload];
      destruct (String.eqb p ""); [exact Hload | reflexivity]].
  unfold loadSavedWizardData.
  remember (fresh pg (localStorage (saveWizardData st)) ss) as f eqn:Ef.
  destruct (restore_step_frame (restore_data f)) as (_ & _ & _ & -> & _).
  unfold restore_data.
  assert (Hget : getItem "nexusai_wizard_data" (localStorage f)
                 = Some (ser (JObj (wizardData st)))).
  { subst f. apply saved_data_item. }
  rewrite Hget.
  assert (Hd : wizardData f = []) by now subst f.
  rewrite Hd. cbn [prop obj_get default truthy].
  rewrite (parse_ser _ Hrep).
  destruct (truthy _); subst f; reflexivity.
Qed.

Lemma persona_comes_from_saved_data_witness :
  selectedPersona
    (enter Scenes.bare_page None None None
       (localStorage
          (saveWizardData (set_persona (JStr "seller") Sample.plain_step3)))
       ∅)
  = JStr "entrepreneur"
  /\ selectedPersona
       (enter Sample.plain_page (Some "consultant") None None
          (localStorage
             (saveWizardData (set_persona (JStr "seller") Sample.plain_step3)))
          ∅)
     = JStr "consultant".
Proof.
  split.
  - refine (eq_trans
              (persona_comes_from_saved_data
                 (set_persona (JStr "seller") Sample.plain_step3)
                 Scenes.bare_page None None None ∅ _) _).
    + vm_compute. reflexivity.
    + vm_compute. reflexivity.
  - refine (eq_trans
              (persona_comes_from_saved_data
                 (set_persona (JStr "seller") Sample.plain_step3)
                 Sample.plain_page (Some "consultant") None None ∅ _) _).
    + vm_compute. reflexivity.
    + vm_compute. reflexivity.
Defined.

Lemma unanswered_emit e st :
  unanswered (log (emit e st)) = settle (unanswered (log st)) (clock st, e).
Proof. unfold unanswered. cbn [log emit]. now rewrite fold_left_app. Qed.

Lemma unanswered_stages i n st :
  unanswered (log (stages i n st)) = unanswered (log st).
Proof.
  revert i st. induction n as [|n IH]; intros i st; [reflexivity|].
  cbn [stages]. rewrite IH.
  change (log (sleep 1200 (emit (StageActive i) st)))
    with (log (emit (StageActive i) st)).
  rewrite unanswered_emit. now destruct (unanswered (log st)).
Qed.

Lemma nextStep_unanswered st :
  unanswered (log (nextStep st)) = unanswered (log st).
Proof.
  destruct (validateCurrentStep st) eqn:Hv.
  - now rewrite nextStep_log.
  - unfold nextStep. rewrite Hv. cbn [negb]. unfold showNotification.
    rewrite unanswered_emit. now destruct (unanswered (log st)).
Qed.

Lemma loadDemoScenario_unanswered n st :
  unanswered (log (loadDemoScenario n st)) = unanswered (log st).
Proof.
  unfold loadDemoScenario.
  destruct (getItem _ _); [|reflexivity].
  destruct (parse _) as [scenario|].
  - destruct (prefillWizardFromScenario scenario st) as [w|] eqn:E.
    + unfold prefillWizardFromScenario in E.
      destruct scenario; try discriminate;
        destruct (prop _ "industry"); try discriminate;
        injection E as <-; reflexivity.
    + rewrite unanswered_emit. now destruct (unanswered (log st)).
  - rewrite unanswered_emit. now destruct (unanswered (log st)).
Qed.

Lemma fire_next_unanswered st :
  unanswered (log (fire_next st)) = unanswered (log st).
Proof.
  assert (Hi : unanswered (log (fire_interval st)) = unanswered (log st)).
  { now destruct (interval_frame st) as (_ & _ & _ & _ & _ & _ & ->). }
  unfold fire_next. destruct (earliest (timers st)) as [[[due t] rest]|];
    [|exact Hi].
  destruct (autoSaveDue st <=? due); [exact Hi|].
  set (st1 := set_clock _ _).
  change (log st) with (log st1). clearbody st1.
  destruct t as [p d n| |step]; cbn [run_task].
  - destruct d; [|reflexivity].
    now rewrite loadDemoScenario_unanswered.
  - destruct (currentStep st1 =? 1); [apply nextStep_unanswered|reflexivity].
  - reflexivity.
Qed.

Lemma showAnalysisError_unanswered st :
  unanswered (log (showAnalysisError st)) = unanswered (log st).
Proof.
  unfold showAnalysisError. destruct (negb _); [reflexivity|].
  rewrite unanswered_emit. now destruct (unanswered (log st)).
Qed.

Lemma runAnalysis_unanswered resp latency st :
  is_Some (unanswered (log st)) ->
  is_Some (unanswered (log (runAnalysis resp latency st))).
Proof.
  intros [k Hk].
  set (sent := sleep latency
                 (emit (Request "/api/analyze"
                          (analysisData
                             (emit Loading (set_step 4 (collectCurrentStepData st)))))
                    (simulateAnalysisSteps
                       (emit Loading (set_step 4 (collectCurrentStepData st)))))).
  assert (Hsent : unanswered (log sent) = Some (S k)).
  { unfold sent.
    change (log (sleep latency ?x)) with (log x).
    rewrite unanswered_emit. unfold simulateAnalysisSteps.
    rewrite unanswered_stages, unanswered_emit.
    change (log (set_step 4 ?x)) with (log x).
    destruct (collect_clock_log st) as (_ & -> & _). now rewrite Hk. }
  assert (Hrun :
    runAnalysis resp latency st =
    match resp with
    | Ok body =>
        match displayWizardResults body sent with
        | Some st4 => emit (Completed (selectedPersona st4)) st4
        | None => showAnalysisError (emit (ConsoleError "Analysis failed:") sent)
        end
    | _ =>
        showAnalysisError
          (emit (ConsoleError "Analysis failed:")
             (emit (ConsoleError "API call failed:") sent))
    end) by (destruct resp; reflexivity).
  rewrite Hrun. clear Hrun. clearbody sent.
  destruct resp as [| | |body];
    try (rewrite showAnalysisError_unanswered, !unanswered_emit, Hsent; now eexists).
  unfold displayWizardResults.
  destruct (negb (pg_results (page sent))).
  - rewrite unanswered_emit, Hsent. now eexists.
  - destruct body;
      try (rewrite showAnalysisError_unanswered, unanswered_emit, Hsent;
           now eexists);
      rewrite unanswered_emit;
      change (log (clearSavedWizardData ?x)) with (log x);
      rewrite unanswered_emit, Hsent; now eexists.
Qed.

Lemma enter_unanswered pg persona isDemo scenarioName (ls ss : gmap string string) :
  is_Some (unanswered (log (enter pg persona isDemo scenarioName ls ss))).
Proof.
  unfold enter.
  assert (H : log (loadURLParameters persona isDemo scenarioName
                     (loadSavedWizardData (fresh pg ls ss)))
              = log (loadSavedWizardData (fresh pg ls ss))).
  { unfold loadURLParameters. destruct persona as [p|]; [|reflexivity].
    now destruct (String.eqb p ""). }
  rewrite H. unfold loadSavedWizardData.
  destruct (restore_data_frame (fresh pg ls ss)) as (_ & _ & _ & _ & _ & _ & Hlog).
  unfold restore_step.
  destruct (getItem _ _); [|rewrite Hlog; now eexists].
  destruct (includes _ _); [rewrite Hlog; now eexists|].
  destruct (parseInt _); [|rewrite Hlog; now eexists].
  destruct (_ && _); [|rewrite Hlog; now eexists].
  change (log (setTimeout ?t ?d ?x)) with (log x). unfold showNotification.
  rewrite unanswered_emit, Hlog. now eexists.
Qed.

(** X27.  In every state the wizard can reach, each display of results in
    the log answers a request of its own that was sent before it: results
    are never shown without a request, nor twice for one request. *)
Theorem results_answer_requests (st : Wizard) :
  reachable st -> is_Some (unanswered (log st)).
Proof.
  induction 1 as [pg persona isDemo scenarioName ls ss|a st Hreach IH].
  - apply enter_unanswered.
  - destruct a as [persona| | |resp latency| |n i g|pg persona isDemo scenarioName];
      cbn [perform].
    + exact IH.
    + now rewrite nextStep_unanswered.
    + unfold previousStep. now destruct (1 <? currentStep st).
    + now apply runAnalysis_unanswered.
    + now rewrite fire_next_unanswered.
    + unfold edit_field. destruct (pg_steps (page st) !! n) as [el|]; [|exact IH].
      now destruct (se_form el).
    + apply enter_unanswered.
Qed.

Lemma results_answer_requests_witness :
  reachable Sample.demo_step3
  /\ is_Some (unanswered (log Sample.demo_step3)).
Proof.
  assert (H : reachable Sample.demo_step3).
  { unfold Sample.demo_step3, Sample.demo_step2, Sample.demo_loaded,
      Sample.demo_entry.
    do 3 apply reach_perform. apply reach_enter. }
  split; [exact H | exact (results_answer_requests _ H)].
Defined.

End SessionFacts.

(** ** Labels *)

Module LabelFacts.
Import Js Json Present JsFacts.

Local Abbreviation plain := (fun c : ascii => negb (Ascii.eqb c "_")).

Lemma upper_char_word c : is_word (upper_char c) = is_word c.
Proof. destruct c as [[] [] [] [] [] [] [] []]; reflexivity. Qed.

Lemma upper_char_idem c : upper_char (upper_char c) = upper_char c.
Proof. destruct c as [[] [] [] [] [] [] [] []]; reflexivity. Qed.

Lemma upper_char_plain c : plain c = true -> plain (upper_char c) = true.
Proof. destruct c as [[] [] [] [] [] [] [] []]; intros H; exact H || reflexivity. Qed.

Lemma capitalise_idem b s : capitalise b (capitalise b s) = capitalise b s.
Proof.
  revert b. induction s as [|c r IH]; intros b; simpl; [reflexivity|].
  destruct (is_word c && negb b) eqn:E.
  - rewrite upper_char_word, E, upper_char_idem. now rewrite IH.
  - rewrite E. now rewrite IH.
Qed.

Lemma capitalise_length b s : String.length (capitalise b s) = String.length s.
Proof.
  revert b. induction s as [|c r IH]; intros b; simpl; [reflexivity|].
  now rewrite IH.
Qed.

Lemma capitalise_plain b s :
  string_forallb plain s = true -> string_forallb plain (capitalise b s) = true.
Proof.
  revert b. induction s as [|c r IH]; intros b; simpl; [reflexivity|].
  intros H. apply andb_true_iff in H as [Hc Hr].
  rewrite (IH _ Hr), andb_true_r.
  destruct (is_word c && negb b); [apply upper_char_plain|]; exact Hc.
Qed.

Lemma spaced_length s :
  String.length (string_map (fun c => if Ascii.eqb c "_" then " "%char else c) s)
  = String.length s.
Proof. induction s as [|c r IH]; simpl; [reflexivity|now rewrite IH]. Qed.

Lemma spaced_plain s :
  string_forallb plain
    (string_map (fun c => if Ascii.eqb c "_" then " "%char else c) s) = true.
Proof.
  induction s as [|c r IH]; simpl; [reflexivity|].
  rewrite IH, andb_true_r.
  destruct (Ascii.eqb c "_") eqn:E; [reflexivity|now rewrite E].
Qed.

Lemma spaced_id s :
  string_forallb plain s = true ->
  string_map (fun c => if Ascii.eqb c "_" then " "%char else c) s = s.
Proof.
  induction s as [|c r IH]; simpl; [reflexivity|].
  intros H. apply andb_true_iff in H as [Hc Hr]. rewrite (IH Hr).
  apply negb_true_iff in Hc. now rewrite Hc.
Qed.

Lemma plain_no_underscore s :
  string_forallb plain s = true -> includes "_" s = false.
Proof.
  induction s as [|c r IH]; [reflexivity|].
  cbn [string_forallb includes]. intros H.
  apply andb_true_iff in H as [Hc Hr]. rewrite (IH Hr), orb_false_r.
  apply negb_true_iff in Hc. cbn [String.prefix].
  destruct (ascii_dec "_" c) as [<-|_]; [discriminate|reflexivity].
Qed.

(** X12.  A label made by [formatLabel] is as long as the key, holds no
    underscore, and is left as it is when it is formatted again. *)
Theorem formatLabel_shape (key : string) :
  String.length (formatLabel key) = String.length key
  /\ includes "_" (formatLabel key) = false
  /\ formatLabel (formatLabel key) = formatLabel key.
Proof.
  unfold formatLabel. split; [|split].
  - now rewrite capitalise_length, spaced_length.
  - apply plain_no_underscore, capitalise_plain, spaced_plain.
  - rewrite (spaced_id (capitalise false _)).
    + apply capitalise_idem.
    + apply capitalise_plain, spaced_plain.
Qed.

End LabelFacts.

(** ** The carousel *)

Module CarouselFacts.
Import Js Json Present Carousel.
Import JsFacts JsonFacts.

#[local] Arguments ser : simpl never.
#[local] Arguments parse : simpl never.
#[local] Arguments Z_toString : simpl never.
#[local] Arguments includes : simpl never.

Lemma in_range_ext c c' :
  currentScenarioIndex c' = currentScenarioIndex c ->
  scenarios c' = scenarios c ->
  in_range c -> in_range c'.
Proof.
  unfold in_range, len. intros -> ->. exact id.
Qed.

Lemma start_frame c :
  currentScenarioIndex (startCarouselAutoplay c) = currentScenarioIndex c
  /\ scenarios (startCarouselAutoplay c) = scenarios c.
Proof.
  unfold startCarouselAutoplay. destruct (1 <? _); split; reflexivity.
Qed.

Lemma len_pos c : scenarios c <> [] -> 0 < len c.
Proof.
  unfold len. destruct (scenarios c); [congruence|]. intros _. simpl. lia.
Qed.

Lemma load_in_range persona c :
  (scenarios c <> [] -> in_range c) ->
  scenarios (loadPersonaScenarios persona c) <> [] ->
  in_range (loadPersonaScenarios persona c).
Proof.
  intros Hc. unfold loadPersonaScenarios.
  destruct (allScenarios c) as [table|]; [|exact Hc].
  set (c1 := mkCarousel _ _ _ _ _ _ _ _).
  assert (H1 : scenarios c1 <> [] -> in_range c1).
  { intros Hne. exists 0. split; [reflexivity|].
    split; [lia | apply len_pos, Hne]. }
  destruct (negb (renders (scenarios c1))); [exact H1|].
  destruct (0 <? len c1); [|exact H1].
  destruct (start_frame c1) as [Hi Hs]. intros Hne.
  apply (in_range_ext c1); [exact Hi | exact Hs |]. apply H1. now rewrite <- Hs.
Qed.

Lemma next_in_range c : in_range c -> in_range (nextScenario c).
Proof.
  intros (i & Hi & Hr). unfold in_range, nextScenario, len in *. simpl.
  rewrite Hi. simpl.
  destruct (Z.of_nat (length (scenarios c)) =? 0) eqn:E; [lia|].
  eexists. split; [reflexivity|].
  rewrite Z.rem_mod_nonneg by lia. apply Z.mod_pos_bound. lia.
Qed.

Lemma previous_in_range c : in_range c -> in_range (previousScenario c).
Proof.
  intros (i & Hi & Hr). unfold in_range, previousScenario, len in *. simpl.
  rewrite Hi. simpl.
  destruct (Z.of_nat (length (scenarios c)) =? 0) eqn:E; [lia|].
  eexists. split; [reflexivity|].
  rewrite Z.rem_mod_nonneg by lia. apply Z.mod_pos_bound. lia.
Qed.

Lemma analyze_frame index c :
  currentScenarioIndex (analyzeScenario index c) = currentScenarioIndex c
  /\ scenarios (analyzeScenario index c) = scenarios c.
Proof.
  unfold analyzeScenario. destruct (scenario_at index c); split; reflexivity.
Qed.

Lemma perform_in_range a c :
  enabled a c ->
  (scenarios c <> [] -> in_range c) ->
  scenarios (perform a c) <> [] -> in_range (perform a c).
Proof.
  intros Hen Hc. destruct a as [data|persona| | |i| | | |i]; cbn [perform].
  - destruct data as [table|]; cbn [loadDemoScenarios].
    + destruct (renders _).
      * apply load_in_range. cbn [set_table scenarios]. exact Hc.
      * unfold loadFallbackScenarios. apply load_in_range.
        cbn [set_table scenarios]. apply load_in_range.
        cbn [set_table scenarios]. exact Hc.
    + unfold loadFallbackScenarios. apply load_in_range.
      cbn [set_table scenarios]. exact Hc.
  - apply load_in_range, Hc.
  - intros Hne. apply previous_in_range.
    apply (in_range_ext c); [reflexivity | reflexivity | apply Hc, Hne].
  - intros Hne. apply next_in_range.
    apply (in_range_ext c); [reflexivity | reflexivity | apply Hc, Hne].
  - intros _. exists (Z.of_nat i). split; [reflexivity|].
    cbn [enabled] in Hen. unfold len. cbn. lia.
  - intros Hne. apply next_in_range, Hc, Hne.
  - intros Hne. apply (in_range_ext c); [reflexivity | reflexivity | apply Hc, Hne].
  - destruct (start_frame c) as [Hi Hs]. intros Hne.
    apply (in_range_ext c); [exact Hi | exact Hs |]. apply Hc. now rewrite <- Hs.
  - destruct (analyze_frame (Z.of_nat i) c) as [Hi Hs]. intros Hne.
    apply (in_range_ext c); [exact Hi | exact Hs |]. apply Hc. now rewrite <- Hs.
Qed.

(** X13.  Whatever happens on the page of the carousel, while there are
    scenarios to show, the index is a number that points at one of them. *)
Theorem index_points_at_a_scenario (c : Carousel) :
  reachable c -> scenarios c <> [] -> in_range c.
Proof.
  induction 1 as [ss|a c Hreach IH Hen].
  - intros H. now destruct H.
  - apply perform_in_range; assumption.
Qed.

Lemma index_points_at_a_scenario_witness :
  in_range (perform ANext (perform ANext Scenes.carousel)).
Proof.
  apply index_points_at_a_scenario.
  - unfold Scenes.carousel.
    repeat (apply reach_perform; [|exact I]). apply reach_initial.
  - vm_compute. discriminate.
Defined.

Lemma set_index_same c i :
  currentScenarioIndex c = i -> set_index i c = c.
Proof. destruct c. simpl. now intros ->. Qed.

Lemma next_from c i :
  currentScenarioIndex c = Some i -> 0 <= i -> 0 < len c ->
  nextScenario c = set_index (Some ((i + 1) mod len c)) c.
Proof.
  intros Hi Hi0 Hlen. unfold nextScenario. rewrite Hi. cbn [js_add js_rem].
  destruct (len c =? 0) eqn:E; [lia|].
  now rewrite Z.rem_mod_nonneg by lia.
Qed.

Lemma previous_from c i :
  currentScenarioIndex c = Some i -> 0 <= i -> 0 < len c ->
  previousScenario c = set_index (Some ((i - 1 + len c) mod len c)) c.
Proof.
  intros Hi Hi0 Hlen. unfold previousScenario. rewrite Hi. cbn [js_add js_rem].
  destruct (len c =? 0) eqn:E; [lia|].
  replace (i + -1 + len c) with (i - 1 + len c) by lia.
  now rewrite Z.rem_mod_nonneg by lia.
Qed.

Lemma mod_next_previous i n :
  0 <= i < n -> ((i + 1) mod n - 1 + n) mod n = i.
Proof.
  intros H. destruct (Z.eq_dec (i + 1) n) as [E|E].
  - rewrite E, Z_mod_same_full. symmetry.
    apply (Z.mod_unique_pos _ _ 0); lia.
  - rewrite (Z.mod_small (i + 1)) by lia. symmetry.
    apply (Z.mod_unique_pos _ _ 1); lia.
Qed.

Lemma mod_previous_next i n :
  0 <= i < n -> ((i - 1 + n) mod n + 1) mod n = i.
Proof.
  intros H. destruct (Z.eq_dec i 0) as [E|E].
  - subst i. rewrite (Z.mod_small (0 - 1 + n)) by lia. symmetry.
    apply (Z.mod_unique_pos _ _ 1); lia.
  - replace ((i - 1 + n) mod n) with (i - 1)
      by (apply (Z.mod_unique_pos _ _ 1); lia).
    symmetry. apply (Z.mod_unique_pos _ _ 0); lia.
Qed.

Lemma len_set_index i c : len (set_index i c) = len c.
Proof. reflexivity. Qed.

Lemma set_index_twice i j c : set_index i (set_index j c) = set_index i c.
Proof. reflexivity. Qed.

Lemma iter_next (k : nat) c i :
  currentScenarioIndex c = Some i -> 0 <= i < len c ->
  Nat.iter k nextScenario c = set_index (Some ((i + Z.of_nat k) mod len c)) c.
Proof.
  intros Hi Hr. induction k as [|k IH].
  - simpl. rewrite Z.add_0_r, Z.mod_small by lia. symmetry.
    now apply set_index_same.
  - change (Nat.iter (S k) nextScenario c)
      with (nextScenario (Nat.iter k nextScenario c)).
    rewrite IH.
    rewrite (next_from _ ((i + Z.of_nat k) mod len c)).
    + rewrite len_set_index, set_index_twice, Zplus_mod_idemp_l.
      do 3 f_equal. lia.
    + reflexivity.
    + apply Z.mod_pos_bound. lia.
    + rewrite len_set_index. lia.
Qed.

(** X14.  While the index points at a scenario, Next and Previous undo
    each other, and as many steps forward as there are scenarios lead back
    to where they started. *)
Theorem next_and_previous_undo_each_other (c : Carousel) :
  in_range c ->
  previousScenario (nextScenario c) = c
  /\ nextScenario (previousScenario c) = c
  /\ Nat.iter (length (scenarios c)) nextScenario c = c.
Proof.
  intros (i & Hi & Hr). split; [|split].
  - rewrite (next_from c i) by (trivial; lia).
    rewrite (previous_from _ ((i + 1) mod len c)).
    + rewrite len_set_index, set_index_twice, mod_next_previous by exact Hr.
      now apply set_index_same.
    + reflexivity.
    + apply Z.mod_pos_bound. lia.
    + rewrite len_set_index. lia.
  - rewrite (previous_from c i) by (trivial; lia).
    rewrite (next_from _ ((i - 1 + len c) mod len c)).
    + rewrite len_set_index, set_index_twice, mod_previous_next by exact Hr.
      now apply set_index_same.
    + reflexivity.
    + apply Z.mod_pos_bound. lia.
    + rewrite len_set_index. lia.
  - rewrite (iter_next _ c i Hi Hr). fold (len c).
    replace (i + len c) with (i + 1 * len c) by lia.
    rewrite Z_mod_plus_full, Z.mod_small by lia. now apply set_index_same.
Qed.

Lemma next_and_previous_undo_each_other_witness :
  previousScenario (nextScenario Scenes.carousel) = Scenes.carousel.
Proof.
  apply (next_and_previous_undo_each_other Scenes.carousel).
  exists 0. split; [reflexivity | vm_compute; split; [discriminate|reflexivity]].
Defined.

Lemma load_with_table c table persona :
  allScenarios c = Some table ->
  scenarioInterval (loadPersonaScenarios persona c)
  = (if renders (lookup_scenarios persona table)
     then match lookup_scenarios persona table with
          | [] => scenarioInterval c
          | [_] => false
          | _ => true
          end
     else scenarioInterval c)
  /\ scenarios (loadPersonaScenarios persona c) = lookup_scenarios persona table
  /\ currentScenarioIndex (loadPersonaScenarios persona c) = Some 0
  /\ currentPersona (loadPersonaScenarios persona c) = persona
  /\ allScenarios (loadPersonaScenarios persona c) = Some table.
Proof.
  intros Ht. unfold loadPersonaScenarios. rewrite Ht. cbn [scenarios].
  destruct (renders (lookup_scenarios persona table)); cbn [negb];
    [|cbn; tauto].
  destruct (lookup_scenarios persona table) as [|x [|y l]] eqn:E.
  - cbn. tauto.
  - cbn. tauto.
  - unfold len, startCarouselAutoplay, stopCarouselAutoplay, len.
    cbn [scenarios set_interval length].
    destruct (Z.ltb_spec 0 (Z.of_nat (S (S (length l))))); [|lia].
    destruct (Z.ltb_spec 1 (Z.of_nat (S (S (length l))))); [|lia].
    cbn. tauto.
Qed.

Lemma fallback_renders persona :
  renders (lookup_scenarios persona fallbackScenarios) = true.
Proof.
  cbn [fallbackScenarios lookup_scenarios].
  destruct (String.eqb persona "entrepreneur"); [reflexivity|].
  destruct (String.eqb persona "consultant"); [reflexivity|].
  destruct (String.eqb persona "seller"); reflexivity.
Qed.

(** X15.  Switching to a persona whose cards can all be drawn (each of
    its scenarios is an object whose [status] is a text or a list) starts
    the autoplay when it has two scenarios or more and stops it when it has
    one; switching to a persona without scenarios, or to one with a card
    that cannot be drawn, leaves the autoplay as it was.  Without
    scenarios, the next step, by hand or by a running autoplay, then makes
    the index [NaN], and Previous does not bring it back.  (The persona
    is not the name of a member that every object inherits.) *)
Theorem autoplay_after_persona_switch (c : Carousel) (table : Table)
    (persona : string) :
  inherited persona = false ->
  allScenarios c = Some table ->
  scenarioInterval (loadPersonaScenarios persona c)
  = (if renders (lookup_scenarios persona table)
     then match lookup_scenarios persona table with
          | [] => scenarioInterval c
          | [_] => false
          | _ => true
          end
     else scenarioInterval c)
  /\ (lookup_scenarios persona table = [] ->
      currentScenarioIndex (nextScenario (loadPersonaScenarios persona c)) = None
      /\ currentScenarioIndex
           (previousScenario (nextScenario (loadPersonaScenarios persona c)))
         = None).
Proof.
  intros _ Ht.
  destruct (load_with_table c table persona Ht) as (Hint & Hsc & Hidx & _).
  split; [exact Hint|]. intros Hempty.
  unfold previousScenario, nextScenario, len.
  cbn [currentScenarioIndex set_index scenarios].
  rewrite Hsc, Hempty, Hidx. split; reflexivity.
Qed.

Lemma autoplay_after_persona_switch_witness :
  scenarioInterval Scenes.carousel = true
  /\ scenarioInterval (loadPersonaScenarios "consultant" Scenes.carousel)
     = false
  /\ scenarioInterval (loadPersonaScenarios "seller" Scenes.carousel) = true
  /\ currentScenarioIndex
       (nextScenario (loadPersonaScenarios "seller" Scenes.carousel)) = None
  /\ scenarioInterval
       (loadPersonaScenarios "investor"
          (loadPersonaScenarios "consultant" Scenes.carousel)) = false.
Proof.
  destruct (autoplay_after_persona_switch Scenes.carousel Scenes.table "seller"
              eq_refl eq_refl) as [H1 H2].
  split; [reflexivity|].
  split; [exact (proj1 (autoplay_after_persona_switch Scenes.carousel
                          Scenes.table "consultant" eq_refl eq_refl))|].
  split; [exact H1|]. split; [exact (proj1 (H2 eq_refl))|].
  exact (proj1 (autoplay_after_persona_switch
                  (loadPersonaScenarios "consultant" Scenes.carousel)
                  Scenes.table "investor" eq_refl eq_refl)).
Defined.

(** X16.  The two colours of a scenario card are both computed from the
    risk score, the second from its complement to 100: when one is the
    colour of the best class the other is the colour of the worst; both
    are the colour of the worst class exactly when the risk score is not a
    number. *)
Theorem card_colours_oppose (scenario : JValue) :
  (fst (card_colors scenario) = "#10b981" ->
   snd (card_colors scenario) = "#dc2626")
  /\ (snd (card_colors scenario) = "#10b981" ->
      fst (card_colors scenario) = "#dc2626")
  /\ (card_colors scenario = ("#dc2626", "#dc2626") <->
      to_number (prop scenario "risk_score") = None).
Proof.
  unfold card_colors, getScoreColor.
  destruct (to_number (prop scenario "risk_score")) as [s|]; cbn [fmap option_fmap option_map fst snd].
  - destruct (80 <=? s) eqn:E1; destruct (60 <=? s) eqn:E2;
      destruct (40 <=? s) eqn:E3;
      destruct (80 <=? 100 - s) eqn:E4; destruct (60 <=? 100 - s) eqn:E5;
      destruct (40 <=? 100 - s) eqn:E6;
      try lia; (split; [|split; [|split]]); try discriminate; try reflexivity.
  - split; [discriminate|]. split; [discriminate|]. split; reflexivity.
Qed.

(** X19.  With the fallback table every persona has at most one scenario,
    so the autoplay is never running after a persona is chosen, and for
    each of the three personas of the table Next and Previous stay on the
    one card. *)
Theorem fallback_never_autoplays (c : Carousel) (persona : string) :
  scenarioInterval (loadPersonaScenarios persona (loadFallbackScenarios c))
  = false
  /\ (length (scenarios (loadPersonaScenarios persona (loadFallbackScenarios c)))
      <= 1)%nat
  /\ (In persona ["entrepreneur"; "consultant"; "seller"] ->
      nextScenario (loadPersonaScenarios persona (loadFallbackScenarios c))
      = loadPersonaScenarios persona (loadFallbackScenarios c)
      /\ previousScenario (loadPersonaScenarios persona (loadFallbackScenarios c))
         = loadPersonaScenarios persona (loadFallbackScenarios c)).
Proof.
  assert (Hf : allScenarios (loadFallbackScenarios c) = Some fallbackScenarios
               /\ scenarioInterval (loadFallbackScenarios c) = false).
  { split; reflexivity. }
  destruct Hf as [Ht Hoff].
  destruct (load_with_table _ _ persona Ht) as (Hint & Hsc & Hidx & _).
  rewrite fallback_renders in Hint.
  rewrite Hint, Hsc, Hoff.
  assert (Hone : lookup_scenarios persona fallbackScenarios = []
                 \/ exists x, lookup_scenarios persona fallbackScenarios = [x]).
  { cbn [fallbackScenarios lookup_scenarios].
    destruct (String.eqb persona "entrepreneur"); [right; eauto|].
    destruct (String.eqb persona "consultant"); [right; eauto|].
    destruct (String.eqb persona "seller"); [right; eauto|now left]. }
  assert (Hin : In persona ["entrepreneur"; "consultant"; "seller"] ->
                exists x, lookup_scenarios persona fallbackScenarios = [x]).
  { intros [<-|[<-|[<-|[]]]]; eexists; reflexivity. }
  split; [|split].
  - destruct Hone as [->|[x ->]]; reflexivity.
  - destruct Hone as [->|[x ->]]; simpl; lia.
  - intros Hp. destruct (Hin Hp) as [x Hx].
    set (c' := loadPersonaScenarios persona (loadFallbackScenarios c)) in *.
    assert (Hlen : len c' = 1) by (unfold len; now rewrite Hsc, Hx).
    split.
    + rewrite (next_from c' 0 Hidx) by lia. rewrite Hlen.
      now apply set_index_same.
    + rewrite (previous_from c' 0 Hidx) by lia. rewrite Hlen.
      now apply set_index_same.
Qed.

End CarouselFacts.

(** ** From a card of the carousel into the wizard *)

Module HandoffFacts.
Import Js Json Dom Present Wizard.
Import JsFacts JsonFacts StepFacts StorageFacts DemoFacts SessionFacts.

#[local] Arguments ser : simpl never.
#[local] Arguments parse : simpl never.
#[local] Arguments Z_toString : simpl never.
#[local] Arguments parseInt : simpl never.
#[local] Arguments includes : simpl never.


Lemma includes_cons sub y a :
  includes sub (String y a) = String.prefix sub (String y a) || includes sub a.
Proof. reflexivity. Qed.







(** X18.  The button of a card that has no scenario behind it, or [null]
    for one, does not leave the page, but it has already replaced the
    stored handoff: what is stored for the scenario is then a text that is
    not an object, the wizard finds nothing to load in it, and a scenario
    stored before is lost. *)
Theorem missing_scenario_spoils_the_handoff (c : Carousel.Carousel)
    (index : Z) :
  Carousel.scenario_at index c = JUndef \/ Carousel.scenario_at index c = JNull ->
  Carousel.href (Carousel.analyzeScenario index c) = Carousel.href c
  /\ Carousel.notes (Carousel.analyzeScenario index c)
     = (Carousel.notes c
        ++ [("Loading scenario analysis...", "info");
            ("Failed to load scenario analysis", "error")])%list
  /\ Carousel.storage (Carousel.analyzeScenario index c) !! "selectedPersona"
     = Some (Carousel.currentPersona c)
  /\ (exists text,
        Carousel.storage (Carousel.analyzeScenario index c) !! "selectedScenario"
        = Some text /\ (text = "undefined" \/ text = "null"))
  /\ (forall st name,
        sessionStorage st = Carousel.storage (Carousel.analyzeScenario index c) ->
        wizardData (loadDemoScenario name st) = wizardData st
        /\ timers (loadDemoScenario name st) = timers st).
Proof.
  intros H. unfold Carousel.analyzeScenario.
  destruct H as [-> | ->]; cbn.
  - split; [reflexivity|]. split; [now rewrite <- app_assoc|].
    split; [apply lookup_insert_eq|]. split.
    + exists "undefined". split; [|now left].
      rewrite lookup_insert_ne by discriminate. apply lookup_insert_eq.
    + intros st name Hst. unfold loadDemoScenario, getItem. rewrite Hst.
      rewrite lookup_insert_ne by discriminate. rewrite lookup_insert_eq.
      split; reflexivity.
  - split; [reflexivity|]. split; [now rewrite <- app_assoc|].
    split; [apply lookup_insert_eq|]. split.
    + exists "null". split; [|now right].
      rewrite lookup_insert_ne by discriminate. apply lookup_insert_eq.
    + intros st name Hst. unfold loadDemoScenario, getItem. rewrite Hst.
      rewrite lookup_insert_ne by discriminate. rewrite lookup_insert_eq.
      split; reflexivity.
Qed.

Lemma missing_scenario_spoils_the_handoff_witness :
  Carousel.href
    (Carousel.analyzeScenario 0
       (Carousel.initial (Sample.handoff Sample.scenario))) = None
  /\ Carousel.storage
       (Carousel.analyzeScenario 0
          (Carousel.initial (Sample.handoff Sample.scenario)))
     !! "selectedScenario" = Some "undefined".
Proof.
  destruct (missing_scenario_spoils_the_handoff
              (Carousel.initial (Sample.handoff Sample.scenario)) 0
              (or_introl eq_refl)) as (H1 & _).
  split; [exact H1 | vm_compute; reflexivity].
Defined.

End HandoffFacts.

(** ** Numbers read back from their text *)

Module NumberFacts.
Import Js Json JsFacts JsonFacts.

Lemma read_digits_stop acc c r :
  is_digit c = false -> read_digits dec_val 10 acc (String c r) = acc.
Proof. intros H. cbn [read_digits]. unfold dec_val. now rewrite H. Qed.

Lemma read_digits_step k c s acc :
  dec_val c = Some k ->
  read_digits dec_val 10 acc (String c s)
  = read_digits dec_val 10 (Some (default 0 acc * 10 + k)) s.
Proof. intros H. cbn [read_digits]. now rewrite H. Qed.

Lemma read_digits_acc d p c r :
  is_digit c = false ->
  read_digits dec_val 10 (Some (Z.pos p))
    (NilEmpty.string_of_uint d +:+ String c r)
  = Some (Z.pos (Pos.of_uint_acc d p)).
Proof.
  intros Hc. revert p.
  induction d as [|d IH|d IH|d IH|d IH|d IH|d IH|d IH|d IH|d IH|d IH];
    intros p; cbn [NilEmpty.string_of_uint Pos.of_uint_acc];
    rewrite ?append_cons, ?append_nil_l;
    [now apply read_digits_stop| ..];
    (erewrite read_digits_step by reflexivity); cbn [default];
    rewrite <- IH; do 2 f_equal;
    match goal with
    | |- context [code ?x] =>
        let v := eval vm_compute in (code x) in change (code x) with v
    end;
    unfold id; lia.
Qed.

Lemma parse_unsigned_pos p c r :
  is_digit c = false ->
  parse_unsigned (NilEmpty.string_of_uint (Pos.to_uint p) +:+ String c r)
  = Some (Z.pos p).
Proof.
  intros Hc.
  assert (Hof := DecimalPos.Unsigned.of_to p).
  assert (Hnil := DecimalPos.Unsigned.to_uint_nonnil p).
  assert (Hhead := to_uint_head p).
  destruct (Pos.to_uint p) as [|d|d|d|d|d|d|d|d|d|d];
    [congruence | now destruct (Hhead d) | ..];
    cbn [NilEmpty.string_of_uint]; rewrite append_cons;
    unfold parse_unsigned;
    (erewrite read_digits_step by reflexivity); cbn [default];
    cbn [Pos.of_uint] in Hof; injection Hof as Hof;
    rewrite <- Hof; exact (read_digits_acc d _ c r Hc).
Qed.

(** [parseInt] reads an integer back from its text, whatever follows it
    that is not a digit or the mark of a hexadecimal number. *)
Lemma parseInt_toString n c r :
  is_digit c = false -> Ascii.eqb c "x" = false -> Ascii.eqb c "X" = false ->
  parseInt (Z_toString n +:+ String c r) = Some n.
Proof.
  intros Hc Hx HX. destruct n as [|p|p].
  - change (Z_toString 0) with "0". rewrite append_cons, append_nil_l.
    change (parseInt (String "0" (String c r)))
      with (if (Ascii.eqb c "x" || Ascii.eqb c "X")%bool
            then read_digits hex_val 16 None r
            else read_digits dec_val 10 None (String "0" (String c r))).
    rewrite Hx, HX. cbn [orb].
    erewrite read_digits_step by reflexivity. now apply read_digits_stop.
  - rewrite Z_toString_pos.
    assert (H := parse_unsigned_pos p c r Hc).
    assert (Hnil := DecimalPos.Unsigned.to_uint_nonnil p).
    assert (Hhead := to_uint_head p).
    destruct (Pos.to_uint p) as [|d|d|d|d|d|d|d|d|d|d];
      [congruence | now destruct (Hhead d) | ..];
      cbn [NilEmpty.string_of_uint] in *; rewrite append_cons in *;
      exact H.
  - rewrite Z_toString_neg, append_cons.
    change (parseInt (String "-" (NilEmpty.string_of_uint (Pos.to_uint p)
                                  +:+ String c r)))
      with (Z.opp <$> parse_unsigned (NilEmpty.string_of_uint (Pos.to_uint p)
                                      +:+ String c r)).
    now rewrite parse_unsigned_pos.
Qed.

End NumberFacts.

(** ** The dashboard and the landing page *)

Module PageFacts.
Import Js Json Dom WizardView.
Import JsFacts JsonFacts DemoFacts NumberFacts HandoffFacts.

Lemma includes_percent s : includes "%" (s +:+ "%") = true.
Proof.
  induction s as [|c s IH]; [reflexivity|].
  rewrite append_cons, includes_cons, IH. apply orb_true_r.
Qed.

(** X20.  [updateAssessmentCount] turns a percentage that reads as [v]
    into the percentage [min(40, v + r)], written as a whole number, [r]
    being the random 0 or 1 of that card: no count is above 40 after an
    update, a count above 40 comes down to 40, and the new text is again
    a percentage that reads as its value. *)
Theorem assessment_count_is_capped (rnd : nat -> Z)
    (cards : list (option string)) (i : nat) (text : string) (v : Z) :
  cards !! i = Some (Some text) ->
  includes "%" text = true ->
  parseInt text = Some v ->
  exists text',
    Dashboard.updateAssessmentCount rnd cards !! i = Some (Some text')
    /\ text' = Z_toString (Z.min 40 (v + rnd i)) +:+ "%"
    /\ includes "%" text' = true
    /\ parseInt text' = Some (Z.min 40 (v + rnd i)).
Proof.
  intros Hcard Hpc Hv. eexists. split; [|split; [reflexivity|split]].
  - unfold Dashboard.updateAssessmentCount.
    rewrite list_lookup_imap, Hcard. cbn [fmap option_fmap option_map].
    unfold Dashboard.bump. rewrite Hpc, Hv. reflexivity.
  - apply includes_percent.
  - now apply parseInt_toString.
Qed.

Lemma assessment_count_is_capped_witness :
  exists text',
    Dashboard.updateAssessmentCount (fun _ => 1) [None; Some "34.2%"] !! 1%nat
    = Some (Some text')
    /\ text' = "35%".
Proof.
  destruct (assessment_count_is_capped (fun _ => 1) [None; Some "34.2%"] 1
              "34.2%" 34 eq_refl eq_refl eq_refl) as (text' & H & E & _).
  exists text'. split; [exact H|]. rewrite E. reflexivity.
Defined.

(** X21.  [initializeDashboard] uses the flag [showPricing] once: when it
    is stored as [true] it is removed and one call of
    [viewPricingStrategy] is set for half a second later, and a second
    run does nothing more; any other value stays and sets nothing, and no
    other key is touched. *)
Theorem pricing_flag_is_used_once (d : Dashboard.Dashboard) :
  Dashboard.initializeDashboard (Dashboard.initializeDashboard d)
  = Dashboard.initializeDashboard d
  /\ Dashboard.localStorage (Dashboard.initializeDashboard d) !! "showPricing"
     <> Some "true"
  /\ (forall k, k <> "showPricing" ->
      Dashboard.localStorage (Dashboard.initializeDashboard d) !! k
      = Dashboard.localStorage d !! k)
  /\ Dashboard.pending (Dashboard.initializeDashboard d)
     = (Dashboard.pending d
        ++ match Dashboard.localStorage d !! "showPricing" with
           | Some flag => if String.eqb flag "true" then [500] else []
           | None => []
           end)%list.
Proof.
  unfold Dashboard.initializeDashboard.
  destruct (Dashboard.localStorage d !! "showPricing") as [flag|] eqn:E.
  - destruct (String.eqb flag "true") eqn:F.
    + apply String.eqb_eq in F. subst flag. cbn.
      rewrite lookup_delete_eq. split; [reflexivity|].
      split; [discriminate|]. split; [|reflexivity].
      intros k Hk. now rewrite lookup_delete_ne.
    + rewrite E, F. split; [reflexivity|]. split.
      * intros [= ->]. discriminate.
      * split; [reflexivity|]. now rewrite app_nil_r.
  - rewrite E. split; [reflexivity|]. split; [discriminate|].
    split; [reflexivity|]. now rewrite app_nil_r.
Qed.

Lemma fromEntries_get k entries :
  obj_get k (Dashboard.fromEntries entries) = JStr <$> last_value k entries.
Proof.
  unfold Dashboard.fromEntries, last_value.
  induction entries as [|[k' v'] entries IH] using rev_ind; [reflexivity|].
  rewrite !fold_left_app. cbn [fold_left fst snd].
  destruct (String.eqb k k') eqn:E.
  - apply String.eqb_eq in E. subst k'. rewrite obj_get_set_eq. reflexivity.
  - rewrite obj_get_set_ne; [exact IH|].
    intros ->. now rewrite String.eqb_refl in E.
Qed.

(** X22.  The object that the quick assessment sends always names a
    persona: the last [persona] entry of the form when that entry is not
    empty, [entrepreneur] otherwise (also where an earlier entry of that
    name was not empty).  [use_demo] is the state of the demo box
    whatever the form holds under that name, [demo_type] is the persona
    when the box is ticked, and every other key is the last entry of the
    form with that name.  Without the demo box nothing is sent. *)
Theorem quick_assessment_names_a_persona (fields : list Field)
    (checked : bool) :
  Dashboard.quickAssessmentData fields None = None
  /\ exists d p,
       Dashboard.quickAssessmentData fields (Some checked) = Some d
       /\ p = match last_value "persona" (form_data fields) with
              | Some q => if String.eqb q "" then "entrepreneur" else q
              | None => "entrepreneur"
              end
       /\ p <> ""
       /\ obj_get "persona" d = Some (JStr p)
       /\ obj_get "use_demo" d = Some (JBool checked)
       /\ obj_get "demo_type" d
          = (if checked then Some (JStr p)
             else JStr <$> last_value "demo_type" (form_data fields))
       /\ (forall k, k <> "persona" -> k <> "use_demo" -> k <> "demo_type" ->
           obj_get k d = JStr <$> last_value k (form_data fields)).
Proof.
  split; [reflexivity|]. unfold Dashboard.quickAssessmentData.
  set (data := Dashboard.fromEntries (form_data fields)).
  assert (Hp : prop (JObj (obj_set "use_demo" (JBool checked) data)) "persona"
               = default JUndef (JStr <$> last_value "persona" (form_data fields))).
  { unfold prop. rewrite obj_get_set_ne by discriminate.
    unfold data. now rewrite fromEntries_get. }
  rewrite Hp. clear Hp.
  set (p := match last_value "persona" (form_data fields) with
            | Some q => if String.eqb q "" then "entrepreneur" else q
            | None => "entrepreneur"
            end).
  assert (Hor : or_else
                  (default JUndef (JStr <$> last_value "persona" (form_data fields)))
                  (JStr "entrepreneur") = JStr p
                /\ p <> "").
  { unfold p, or_else.
    destruct (last_value "persona" (form_data fields)) as [q|]; cbn.
    - destruct (String.eqb q "") eqn:E; cbn; [split; [reflexivity|discriminate]|].
      split; [reflexivity|]. intros ->. discriminate.
    - split; [reflexivity|discriminate]. }
  destruct Hor as [-> Hne].
  eexists. exists p. split; [reflexivity|]. split; [reflexivity|].
  split; [exact Hne|].
  destruct checked.
  - split; [|split; [|split]].
    + rewrite obj_get_set_ne by discriminate. apply obj_get_set_eq.
    + rewrite !obj_get_set_ne by discriminate. apply obj_get_set_eq.
    + apply obj_get_set_eq.
    + intros k H1 H2 H3. rewrite !obj_get_set_ne by congruence.
      apply fromEntries_get.
  - split; [|split; [|split]].
    + apply obj_get_set_eq.
    + rewrite obj_get_set_ne by discriminate. apply obj_get_set_eq.
    + rewrite !obj_get_set_ne by discriminate. apply fromEntries_get.
    + intros k H1 H2 H3. rewrite !obj_get_set_ne by congruence.
      apply fromEntries_get.
Qed.

(** X23.  A click on a persona option of the landing page runs two
    handlers on the start button, one of the main script and one of the
    analytics script.  For a persona that is not the name of a member
    that every object inherits (where the two tables are looked up
    differently), the button ends up, in either order, as the main script
    alone leaves it: with the text of the persona, or [Start Assessment]
    for a persona that has none, and the address of the wizard for that
    persona. *)
Theorem start_button_handlers_agree (persona : string) (b : Landing.Button) :
  inherited persona = false ->
  Landing.updatePersonaMessaging persona (Landing.select_option persona (Some b))
  = Landing.select_option persona (Some b)
  /\ Landing.select_option persona
       (Landing.updatePersonaMessaging persona (Some b))
     = Landing.select_option persona (Some b)
  /\ Landing.select_option persona (Some b)
     = Some (Landing.mkButton
               (default "Start Assessment" (Landing.personaMessages persona))
               ("/wizard?persona=" +:+ persona)).
Proof.
  intros _.
  unfold Landing.updatePersonaMessaging, Landing.select_option,
    Landing.updateStartButton, Landing.cta, Landing.personaMessages.
  destruct (String.eqb persona "entrepreneur");
    [|destruct (String.eqb persona "consultant");
      [|destruct (String.eqb persona "seller")]];
    repeat split.
Qed.

Lemma start_button_handlers_agree_witness :
  Landing.updatePersonaMessaging "seller"
    (Landing.select_option "seller"
       (Some (Landing.mkButton "Start Assessment" "/wizard")))
  = Some (Landing.mkButton "Enable Enterprise Sales" "/wizard?persona=seller")
  /\ Landing.select_option "investor"
       (Landing.updatePersonaMessaging "investor"
          (Some (Landing.mkButton "Get Investor-Ready"
                   "/wizard?persona=entrepreneur")))
     = Some (Landing.mkButton "Start Assessment" "/wizard?persona=investor").
Proof.
  split.
  - refine (eq_trans
              (proj1 (start_button_handlers_agree "seller"
                        (Landing.mkButton "Start Assessment" "/wizard") _)) _);
      reflexivity.
  - refine (eq_trans
              (proj1 (proj2 (start_button_handlers_agree "investor"
                               (Landing.mkButton "Get Investor-Ready"
                                  "/wizard?persona=entrepreneur") _))) _);
      reflexivity.
Defined.

End PageFacts.

(** ** The analytics kept in local storage *)

Module AnalyticsFacts.
Import Js Json Analytics.
Import JsFacts JsonFacts StorageFacts DemoFacts.

#[local] Arguments ser : simpl never.
#[local] Arguments parse : simpl never.

Lemma slice_last_length {A} n (l : list A) :
  (length (slice_last n l) <= n)%nat.
Proof. unfold slice_last. rewrite List.length_skipn. lia. Qed.

Lemma slice_last_short {A} n (l : list A) :
  (length l <= n)%nat -> slice_last n l = l.
Proof.
  intros H. unfold slice_last. replace (length l - n)%nat with 0%nat by lia.
  reflexivity.
Qed.

Lemma slice_last_app {A} n (a b : list A) :
  slice_last n (slice_last n a ++ b) = slice_last n (a ++ b).
Proof.
  unfold slice_last.
  rewrite !List.skipn_app, List.skipn_skipn, !length_app, !List.length_skipn.
  f_equal; f_equal; lia.
Qed.

Lemma slice_last_last {A} n (l : list A) x :
  (0 < n)%nat -> last (slice_last n (l ++ [x])) = Some x.
Proof.
  intros Hn. unfold slice_last. rewrite List.skipn_app, length_app.
  cbn [length]. replace (length l + 1 - n - length l)%nat with 0%nat by lia.
  cbn [skipn]. apply last_snoc.
Qed.

Lemma forallb_skipn {A} (p : A -> bool) n (l : list A) :
  forallb p l = true -> forallb p (skipn n l) = true.
Proof.
  revert n. induction l as [|x l IH]; intros [|n] H; try exact H.
  simpl in H. apply andb_true_iff in H as [_ H]. now apply IH.
Qed.

Lemma obj_set_keys k v (o : Obj) :
  map fst (obj_set k v o) =
  if existsb (String.eqb k) (map fst o) then map fst o
  else (map fst o ++ [k])%list.
Proof.
  induction o as [|[k' v'] o IH]; simpl; [reflexivity|].
  destruct (String.eqb k k') eqn:E; simpl; [reflexivity|].
  rewrite IH. now destruct (existsb _ _).
Qed.

Lemma unique_snoc k (l : list string) :
  unique l = true -> existsb (String.eqb k) l = false ->
  unique (l ++ [k]) = true.
Proof.
  induction l as [|x l IH]; simpl; [reflexivity|].
  intros H Hk. apply andb_true_iff in H as [Hx Hl].
  apply orb_false_iff in Hk as [Hkx Hk].
  rewrite (IH Hl Hk), andb_true_r, existsb_app. simpl.
  apply negb_true_iff in Hx. rewrite Hx, String.eqb_sym, Hkx. reflexivity.
Qed.

Lemma obj_set_values (p : string * JValue -> bool) k v (o : Obj) :
  forallb p o = true ->
  (forall k', p (k', v) = true) ->
  forallb p (obj_set k v o) = true.
Proof.
  intros Ho Hv. induction o as [|[k' v'] o IH]; simpl.
  - now rewrite Hv.
  - simpl in Ho. apply andb_true_iff in Ho as [H1 H2].
    destruct (String.eqb k k'); simpl.
    + now rewrite Hv, H2.
    + now rewrite H1, (IH H2).
Qed.

Lemma obj_set_representable k v (o : Obj) :
  representable (JObj o) = true -> representable v = true ->
  representable (JObj (obj_set k v o)) = true.
Proof.
  cbn [representable]. intros Ho Hv.
  apply andb_true_iff in Ho as [Hu Hf]. apply andb_true_iff. split.
  - rewrite obj_set_keys.
    destruct (existsb (String.eqb k) (map fst o)) eqn:E; [exact Hu|].
    now apply unique_snoc.
  - apply obj_set_values; [exact Hf | intros; exact Hv].
Qed.

Lemma eventData_representable n p t u a :
  representable (JObj p) = true ->
  representable (eventData n p t u a) = true.
Proof.
  intros Hp. unfold eventData.
  change (representable (JObj (obj_set "user_agent" (JStr a)
            (obj_set "url" (JStr u) (obj_set "timestamp" (JStr t) p)))) && true
          = true).
  rewrite andb_true_r. now repeat apply obj_set_representable.
Qed.

Lemma stored_or_insert dflt k v (ls : gmap string string) :
  String.eqb v "" = false -> stored_or dflt k (<[k := v]> ls) = v.
Proof. intros H. unfold stored_or. now rewrite getItem_insert. Qed.

Lemma stored_or_insert_ne dflt k k' v (ls : gmap string string) :
  k' <> k -> stored_or dflt k (<[k' := v]> ls) = stored_or dflt k ls.
Proof. intros H. unfold stored_or. now rewrite getItem_insert_ne. Qed.

(** What one call of [trackEvent] does to a log that reads as a list. *)
Lemma trackEvent_step n p t u a (ls : gmap string string) l :
  parse (stored_or "[]" "analytics_events" ls) = Some (JArr l) ->
  forallb representable l = true ->
  representable (JObj p) = true ->
  trackEvent n p t u a ls
  = Returned (<["analytics_events" :=
                 ser (JArr (slice_last 100 (l ++ [eventData n p t u a])))]> ls)
  /\ parse (stored_or "[]" "analytics_events"
             (<["analytics_events" :=
                 ser (JArr (slice_last 100 (l ++ [eventData n p t u a])))]> ls))
     = Some (JArr (slice_last 100 (l ++ [eventData n p t u a])))
  /\ forallb representable (slice_last 100 (l ++ [eventData n p t u a])) = true.
Proof.
  intros Hparse Hl Hp.
  assert (Hrep : forallb representable
                   (slice_last 100 (l ++ [eventData n p t u a])) = true).
  { apply forallb_skipn. rewrite forallb_app, Hl. cbn [forallb].
    now rewrite (eventData_representable _ _ _ _ _ Hp). }
  split; [|split; [|exact Hrep]].
  - unfold trackEvent. now rewrite Hparse.
  - rewrite stored_or_insert by apply ser_nonempty.
    apply parse_ser. exact Hrep.
Qed.

Lemma trackEvents_log calls u a : forall (ls : gmap string string) l,
  parse (stored_or "[]" "analytics_events" ls) = Some (JArr l) ->
  forallb representable l = true ->
  (length l <= 100)%nat ->
  Forall (fun c => representable (JObj (c_properties c)) = true) calls ->
  exists ls',
    trackEvents calls u a ls = Returned ls'
    /\ parse (stored_or "[]" "analytics_events" ls')
       = Some (JArr (slice_last 100 (l ++ map (recorded u a) calls)))
    /\ (forall k, k <> "analytics_events" -> ls' !! k = ls !! k).
Proof.
  induction calls as [|c calls IH]; intros ls l Hparse Hl Hlen Hcalls.
  - exists ls. split; [reflexivity|]. split; [|reflexivity].
    rewrite app_nil_r, slice_last_short by exact Hlen. exact Hparse.
  - apply Forall_cons_iff in Hcalls as [Hc Hcalls].
    destruct (trackEvent_step (c_name c) (c_properties c) (c_time c) u a ls l
                Hparse Hl Hc) as (Hstep & Hparse' & Hl').
    destruct (IH _ _ Hparse' Hl' (slice_last_length _ _) Hcalls)
      as (ls' & Hrun & Hlog & Hother).
    exists ls'. split; [|split].
    + cbn [trackEvents]. now rewrite Hstep.
    + rewrite Hlog. fold (recorded u a c). rewrite slice_last_app.
      now rewrite <- app_assoc.
    + intros k Hk. rewrite (Hother k Hk). now apply lookup_insert_ne.
Qed.

(** X24.  Starting without a log, any number of calls of [trackEvent]
    whose properties hold no [undefined] succeed, and what is stored then
    reads as the list of the last hundred events recorded, oldest first;
    no other item of local storage is touched. *)
Theorem event_log_keeps_the_last_hundred (calls : list Call)
    (url user_agent : string) (ls : gmap string string) :
  ls !! "analytics_events" = None ->
  Forall (fun c => representable (JObj (c_properties c)) = true) calls ->
  exists ls',
    trackEvents calls url user_agent ls = Returned ls'
    /\ parse (stored_or "[]" "analytics_events" ls')
       = Some (JArr (slice_last 100 (map (recorded url user_agent) calls)))
    /\ (forall k, k <> "analytics_events" -> ls' !! k = ls !! k).
Proof.
  intros Hnone Hcalls.
  apply (trackEvents_log calls url user_agent ls []); trivial.
  - unfold stored_or, Wizard.getItem. rewrite Hnone. reflexivity.
  - simpl. lia.
Qed.

Lemma event_log_keeps_the_last_hundred_witness :
  exists ls',
    trackEvents (map Scenes.click (seq 0 101)) "https://example.org/" "browser"
      (<["selected_persona" := "seller"]> ∅) = Returned ls'
    /\ parse (stored_or "[]" "analytics_events" ls')
       = Some (JArr (map (recorded "https://example.org/" "browser")
                       (map Scenes.click (seq 1 100))))
    /\ ls' !! "selected_persona" = Some "seller".
Proof.
  destruct (event_log_keeps_the_last_hundred
              (map Scenes.click (seq 0 101)) "https://example.org/" "browser"
              (<["selected_persona" := "seller"]> ∅))
    as (ls' & H & Hlog & Hother).
  - reflexivity.
  - apply Forall_forall. intros c Hc.
    apply list_elem_of_fmap in Hc as (i & -> & _). reflexivity.
  - exists ls'. split; [exact H|]. split; [exact Hlog|].
    rewrite Hother by discriminate. reflexivity.
Defined.

(** X25.  [trackFunnelStep], for a step that is not called [__proto__],
    on a funnel that reads as an object without [undefined] and a log that
    reads as a list: the funnel then holds the time of this call for the
    step, replacing an earlier time, and the times of the other steps as
    they were; the log has the event [funnel_step] for its last entry; no
    other item of local storage is touched. *)
Theorem funnel_holds_the_latest_time (step timestamp timestamp' url user_agent : string)
    (ls : gmap string string) (o : Obj) (events : list JValue) :
  step <> "__proto__" ->
  parse (stored_or "{}" "conversion_funnel" ls) = Some (JObj o) ->
  representable (JObj o) = true ->
  parse (stored_or "[]" "analytics_events" ls) = Some (JArr events) ->
  forallb representable events = true ->
  exists ls' o' log,
    trackFunnelStep step timestamp timestamp' url user_agent ls = Returned ls'
    /\ parse (stored_or "{}" "conversion_funnel" ls') = Some (JObj o')
    /\ obj_get step o' = Some (JStr timestamp)
    /\ (forall k, k <> step -> obj_get k o' = obj_get k o)
    /\ parse (stored_or "[]" "analytics_events" ls') = Some (JArr log)
    /\ last log
       = Some (eventData "funnel_step" [("step", JStr step)] timestamp' url
                 user_agent)
    /\ (forall k, k <> "conversion_funnel" -> k <> "analytics_events" ->
        ls' !! k = ls !! k).
Proof.
  intros Hproto Hf Hrep He Hev.
  apply String.eqb_neq in Hproto.
  set (o' := obj_set step (JStr timestamp) o).
  assert (Hrep' : representable (JObj o') = true)
    by now apply obj_set_representable.
  set (ls1 := <["conversion_funnel" := ser (JObj o')]> ls).
  assert (He1 : parse (stored_or "[]" "analytics_events" ls1)
                = Some (JArr events)).
  { unfold ls1. now rewrite stored_or_insert_ne by discriminate. }
  destruct (trackEvent_step "funnel_step" [("step", JStr step)] timestamp'
              url user_agent ls1 events He1 Hev eq_refl)
    as (Hstep & Hparse & _).
  eexists. exists o'. eexists.
  split; [|split; [|split; [|split; [|split; [|split]]]]].
  - unfold trackFunnelStep. rewrite Hf. cbn [assign]. rewrite Hproto.
    destruct (obj_get step o); fold o'; fold ls1; exact Hstep.
  - rewrite stored_or_insert_ne by discriminate. unfold ls1.
    rewrite stored_or_insert by apply ser_nonempty. now apply parse_ser.
  - apply obj_get_set_eq.
  - intros k Hk. apply obj_get_set_ne. congruence.
  - exact Hparse.
  - apply slice_last_last. lia.
  - intros k H1 H2. unfold ls1. now rewrite !lookup_insert_ne by congruence.
Qed.

Lemma funnel_holds_the_latest_time_witness :
  exists ls' o',
    trackFunnelStep "wizard_start" "2024-05-02T09:30:00.000Z"
      "2024-05-02T09:30:00.001Z" "https://example.org/wizard" "browser"
      Scenes.visited
    = Returned ls'
    /\ parse (stored_or "{}" "conversion_funnel" ls') = Some (JObj o')
    /\ obj_get "wizard_start" o' = Some (JStr "2024-05-02T09:30:00.000Z")
    /\ obj_get "landing_page_view" o'
       = Some (JStr "2024-05-01T10:00:00.000Z")
    /\ ls' !! "selected_persona" = Some "seller".
Proof.
  destruct (funnel_holds_the_latest_time "wizard_start"
              "2024-05-02T09:30:00.000Z" "2024-05-02T09:30:00.001Z"
              "https://example.org/wizard" "browser" Scenes.visited
              Scenes.funnel [Scenes.landing_event])
    as (ls' & o' & log & H & Hp & Hget & Hkeep & _ & _ & Hother).
  - discriminate.
  - vm_compute. reflexivity.
  - reflexivity.
  - vm_compute. reflexivity.
  - reflexivity.
  - exists ls', o'. split; [exact H|]. split; [exact Hp|].
    split; [exact Hget|]. split.
    + rewrite Hkeep by discriminate. reflexivity.
    + rewrite Hother by discriminate. reflexivity.
Defined.

(** X26.  [trackUserJourney] after [trackPersonaSelection], on a journey
    that reads as a list without [undefined]: the journey stored then
    reads as a list of at most twenty steps, the last of which is the
    page just loaded with the persona just selected. *)
Theorem journey_ends_with_the_selected_persona (persona pathname timestamp : string)
    (b : option Landing.Button) (ls : gmap string string)
    (journey : list JValue) :
  parse (stored_or "[]" "user_journey" ls) = Some (JArr journey) ->
  forallb representable journey = true ->
  exists ls' steps,
    trackUserJourney pathname timestamp
      (snd (Landing.trackPersonaSelection persona (b, ls))) = Returned ls'
    /\ parse (stored_or "[]" "user_journey" ls') = Some (JArr steps)
    /\ (length steps <= 20)%nat
    /\ last steps
       = Some (JObj [("page", JStr pathname); ("timestamp", JStr timestamp);
                     ("persona", JStr persona)]).
Proof.
  intros Hj Hrep. cbn [Landing.trackPersonaSelection snd].
  set (ls1 := <["selected_persona" := persona]> ls).
  assert (Hj1 : parse (stored_or "[]" "user_journey" ls1) = Some (JArr journey)).
  { unfold ls1. now rewrite stored_or_insert_ne by discriminate. }
  assert (Hstep : journeyStep pathname timestamp ls1
                  = JObj [("page", JStr pathname); ("timestamp", JStr timestamp);
                          ("persona", JStr persona)]).
  { unfold journeyStep, ls1. now rewrite lookup_insert_eq. }
  eexists. eexists. split; [|split; [|split]].
  - unfold trackUserJourney. rewrite Hj1, Hstep. reflexivity.
  - rewrite stored_or_insert by apply ser_nonempty. apply parse_ser.
    cbn [representable]. apply forallb_skipn.
    rewrite forallb_app, Hrep. reflexivity.
  - apply slice_last_length.
  - apply slice_last_last. lia.
Qed.

Lemma journey_ends_with_the_selected_persona_witness :
  exists ls' steps,
    trackUserJourney "/wizard" "2024-05-02T09:30:00.000Z"
      (snd (Landing.trackPersonaSelection "seller" (None, Scenes.travelled)))
    = Returned ls'
    /\ parse (stored_or "[]" "user_journey" Scenes.travelled)
       = Some (JArr (repeat Scenes.landing_step 20))
    /\ parse (stored_or "[]" "user_journey" ls') = Some (JArr steps)
    /\ (length steps <= 20)%nat
    /\ last steps
       = Some (JObj [("page", JStr "/wizard");
                     ("timestamp", JStr "2024-05-02T09:30:00.000Z");
                     ("persona", JStr "seller")]).
Proof.
  assert (Hj : parse (stored_or "[]" "user_journey" Scenes.travelled)
               = Some (JArr (repeat Scenes.landing_step 20)))
    by (vm_compute; reflexivity).
  destruct (journey_ends_with_the_selected_persona "seller" "/wizard"
              "2024-05-02T09:30:00.000Z" None Scenes.travelled
              (repeat Scenes.landing_step 20) Hj eq_refl)
    as (ls' & steps & H & Hp & Hlen & Hlast).
  exists ls', steps. split; [exact H|]. split; [exact Hj|].
  split; [exact Hp|]. split; [exact Hlen | exact Hlast].
Defined.

End AnalyticsFacts.
